(** * Data Alchemist: validation engine, rule interpreter and query engine

    A shallow embedding of the TypeScript sources

      - [ValidationService]            (validateEntity, checkRequiredColumns,
                                        validatePhaseSlotSaturation),
      - [FileUpload]                   (detectEntityType, intelligentColumnMapping,
                                        parseFile after the decoders, onDrop),
      - [ExportPanel]                  (the totals of the export status),
      - [RuleBuilder]                  (processNaturalLanguageRule, handleAddRule,
                                        handleRemoveRule, the allowed-phases input),
      - [SearchPanel.processNaturalLanguageQuery] with its pattern table,

    together with the pieces of the JavaScript runtime they call: string
    methods, [parseInt], [JSON.parse], property keys of plain objects and
    regular expressions.

    Modelling conventions.
      - Text is a [string] of bytes, the UTF-8 encoding of the JavaScript
        string. White space is the set [trim] and [parseInt] skip, with its
        members beyond ASCII (U+00A0, U+FEFF, the space separators and the
        two line separators) in their UTF-8 form. Case mapping touches A-Z
        only, which is the mapping of the source on ASCII text; [isAscii]
        marks that domain in the statements that need it.
      - A row ([Record<string, any>]) is a finite map from column names to
        cell texts, the shape the CSV decoder delivers (every cell a string);
        an absent key reads as [undefined], here [None]. Cells of other
        types, as a spreadsheet may deliver, and the properties a row
        inherits from [Object.prototype] are outside the model.
      - A JavaScript number is [NaN] or an exact integer; a JSON number is an
        exact decimal [m * 10^e]. The rounding of binary64 (beyond 2^53, or
        past 17 significant digits) is not modelled: the statements that
        quote a number, or add numbers up, bound it by [safeInteger].
      - [errors.push], [seenIds.add] and the writes to the phase tables are
        explicit state passing, in the order the source performs them.
      - An exception that the source catches is an [option]: [None] is the
        [catch] branch. On rows of texts no other exception can arise.
      - The only function that runs on fuel is the JSON parser; the fuel it
        is given is shown to be enough ([parse_complete]). *)

From Stdlib Require Import ZArith String Ascii List Bool Lia DecimalString DecimalFacts DecimalPos.
From stdpp Require Import gmap strings list sorting.

Local Open Scope string_scope.

(** ** The JavaScript runtime *)

Module JS.

(** *** Strings *)

Definition isUpper (c : ascii) : bool :=
  (65 <=? nat_of_ascii c)%nat && (nat_of_ascii c <=? 90)%nat.

Definition lowerChar (c : ascii) : ascii :=
  if isUpper c then ascii_of_nat (nat_of_ascii c + 32) else c.

(** [s.toLowerCase()] on ASCII text: the letters A-Z. Beyond ASCII the
    source maps the other capital letters too, which this function leaves
    as they are. *)
Fixpoint toLowerCase (s : string) : string :=
  match s with
  | EmptyString => EmptyString
  | String c r => String (lowerChar c) (toLowerCase r)
  end.

(** [s.startsWith(p)] *)
Fixpoint startsWith (p s : string) : bool :=
  match p, s with
  | EmptyString, _ => true
  | String _ _, EmptyString => false
  | String a p', String b s' => if Ascii.eqb a b then startsWith p' s' else false
  end.

(** [s.includes(sub)] *)
Fixpoint includes (s sub : string) : bool :=
  startsWith sub s ||
  match s with
  | EmptyString => false
  | String _ r => includes r sub
  end.

(** White space and line terminators of one byte, as [trim] and [parseInt]
    skip them: TAB, LF, VT, FF, CR and SPACE. *)
Definition isWhiteSpace (c : ascii) : bool :=
  match nat_of_ascii c with
  | 9 | 10 | 11 | 12 | 13 | 32 => true
  | _ => false
  end%nat.

(** The bytes that open the UTF-8 form of the other white space characters. *)
Definition isWhiteSpaceLead (c : ascii) : bool :=
  let n := nat_of_ascii c in
  (n =? 194)%nat || (n =? 225)%nat || (n =? 226)%nat || (n =? 227)%nat || (n =? 239)%nat.

(** U+00A0, the no-break space. *)
Definition isWhiteSpace2 (c c1 : ascii) : bool :=
  (nat_of_ascii c =? 194)%nat && (nat_of_ascii c1 =? 160)%nat.

(** U+1680; U+2000 to U+200A, the line separators U+2028 and U+2029 and
    U+202F; U+205F; U+3000; U+FEFF, the byte order mark. *)
Definition isWhiteSpace3 (c c1 c2 : ascii) : bool :=
  let n := nat_of_ascii c in
  let n1 := nat_of_ascii c1 in
  let n2 := nat_of_ascii c2 in
  ((n =? 225) && (n1 =? 154) && (n2 =? 128)
   || (n =? 226) && (n1 =? 128)
      && ((128 <=? n2) && (n2 <=? 138) || (n2 =? 168) || (n2 =? 169) || (n2 =? 175))
   || (n =? 226) && (n1 =? 129) && (n2 =? 159)
   || (n =? 227) && (n1 =? 128) && (n2 =? 128)
   || (n =? 239) && (n1 =? 187) && (n2 =? 191))%nat.

(** A text that is one white space character or line terminator. *)
Definition isWhiteSpaceChar (s : string) : bool :=
  match s with
  | String c EmptyString => isWhiteSpace c
  | String c (String c1 EmptyString) => isWhiteSpace2 c c1
  | String c (String c1 (String c2 EmptyString)) => isWhiteSpace3 c c1 c2
  | _ => false
  end.

Fixpoint trimStart (s : string) : string :=
  match s with
  | EmptyString => EmptyString
  | String c r =>
      if isWhiteSpace c then trimStart r
      else if isWhiteSpaceLead c then
        match r with
        | String c1 r1 =>
            if isWhiteSpace2 c c1 then trimStart r1
            else
              match r1 with
              | String c2 r2 => if isWhiteSpace3 c c1 c2 then trimStart r2 else s
              | EmptyString => s
              end
        | EmptyString => s
        end
      else s
  end.

(** The continuation bytes of a character never open one, so what is left
    of a text whose tail is trimmed ends in white space exactly when it is
    one white space character. *)
Fixpoint trimEnd (s : string) : string :=
  match s with
  | EmptyString => EmptyString
  | String c r =>
      let r' := trimEnd r in
      if isWhiteSpaceChar (String c r') then EmptyString else String c r'
  end.

(** [s.trim()] *)
Definition trim (s : string) : string := trimEnd (trimStart s).

(** [s.split(sep)] for a separator of one character: the pieces between the
    separators, [[""]] for the empty text. *)
Fixpoint split (sep : ascii) (s : string) : list string :=
  match s with
  | EmptyString => [EmptyString]
  | String c r =>
      if Ascii.eqb c sep then EmptyString :: split sep r
      else match split sep r with
           | [] => [String c EmptyString]
           | piece :: pieces => String c piece :: pieces
           end
  end.

(** [pieces.join(sep)] *)
Fixpoint join (sep : string) (pieces : list string) : string :=
  match pieces with
  | [] => EmptyString
  | [p] => p
  | p :: rest => p ++ sep ++ join sep rest
  end.

(** Truthiness of a cell: [undefined] and the empty text are falsy. *)
Definition truthy (v : option string) : bool :=
  match v with
  | Some (String _ _) => true
  | _ => false
  end.

(** *** Numbers *)

Inductive number : Type :=
| NaN
| Num (z : Z).

#[global] Instance number_eq_dec : EqDecision number.
Proof. solve_decision. Defined.

Definition isNaN (n : number) : bool :=
  match n with NaN => true | Num _ => false end.

(** [a < b] and [a > b]: false as soon as one side is [NaN]. *)
Definition lt (a b : number) : bool :=
  match a, b with
  | Num x, Num y => (x <? y)%Z
  | _, _ => false
  end.

Definition gt (a b : number) : bool := lt b a.

Definition ge (a b : number) : bool :=
  match a, b with
  | Num x, Num y => (y <=? x)%Z
  | _, _ => false
  end.

(** [a + b] *)
Definition add (a b : number) : number :=
  match a, b with
  | Num x, Num y => Num (x + y)
  | _, _ => NaN
  end.

(** [n || d]: [NaN] and [0] are falsy. *)
Definition orElse (n : number) (d : number) : number :=
  match n with
  | NaN => d
  | Num z => if (z =? 0)%Z then d else n
  end.

(** Value of a character as a digit, up to radix 36. *)
Definition digitValue (c : ascii) : option Z :=
  let n := nat_of_ascii c in
  if (48 <=? n)%nat && (n <=? 57)%nat then Some (Z.of_nat n - 48)%Z
  else if (97 <=? n)%nat && (n <=? 122)%nat then Some (Z.of_nat n - 87)%Z
  else if (65 <=? n)%nat && (n <=? 90)%nat then Some (Z.of_nat n - 55)%Z
  else None.

(** The longest prefix of radix-[R] digits, read as an integer; [acc] is
    [None] until a digit has been seen. *)
Fixpoint parseDigits (R : Z) (s : string) (acc : option Z) : option Z :=
  match s with
  | EmptyString => acc
  | String c r =>
      match digitValue c with
      | Some d =>
          if (d <? R)%Z then parseDigits R r (Some (default 0%Z acc * R + d)%Z)
          else acc
      | None => acc
      end
  end.

(** [parseInt(s)] without a radix: leading white space, a sign, an optional
    [0x] prefix, then digits; [NaN] when no digit follows. The value is
    that of the digits; the source rounds it to binary64, which changes it
    from 2^53 on only. *)
Definition parseInt (s : string) : number :=
  let s0 := trimStart s in
  let '(sign, s1) :=
    match s0 with
    | String "-" r => ((-1)%Z, r)
    | String "+" r => (1%Z, r)
    | _ => (1%Z, s0)
    end in
  let '(R, s2) :=
    match s1 with
    | String "0" (String "x" r) => (16%Z, r)
    | String "0" (String "X" r) => (16%Z, r)
    | _ => (10%Z, s1)
    end in
  match parseDigits R s2 None with
  | None => NaN
  | Some n => Num (sign * n)
  end.

(** [parseInt(row.field)]: [undefined] converts to the text "undefined". *)
Definition parseIntCell (v : option string) : number :=
  match v with
  | None => NaN
  | Some s => parseInt s
  end.

(** [String(z)] for an integer: its decimal digits, with a minus sign for
    a negative one. The source prints these digits for every integer that
    binary64 holds below 10^21, so for every integer up to 2^53. *)
Definition intToString (z : Z) : string :=
  NilZero.string_of_int (Z.to_int z).

(** The same for a natural number. *)
Definition natToString (n : Z) : string := intToString (Z.abs n).

(** [String(n)], as template literals and property keys convert a number. *)
Definition numberToString (n : number) : string :=
  match n with
  | NaN => "NaN"
  | Num z => intToString z
  end.

End JS.

(** ** JSON values and [JSON.parse] *)

Module JSON.

(** A JSON number literal, kept exact: [mant * 10 ^ expo]. *)
Record decimal : Type := Decimal { mant : Z; expo : Z }.

#[warnings="-register-all"]
Inductive value : Type :=
| JNull
| JBool (b : bool)
| JNum (d : decimal)
| JStr (s : string)
| JArr (elements : list value)
| JObj (members : list (string * value)).

(** [Number.isInteger(d)] *)
Definition isInteger (d : decimal) : bool :=
  (mant d =? 0)%Z || (0 <=? expo d)%Z || (mant d mod 10 ^ (- expo d) =? 0)%Z.

(** [d < 1] *)
Definition ltOne (d : decimal) : bool :=
  if (0 <=? expo d)%Z then (mant d <? 1)%Z
  else (mant d <? 10 ^ (- expo d))%Z.

(** [d === z] for an integer [z] *)
Definition equalsInt (d : decimal) (z : Z) : bool :=
  if (0 <=? expo d)%Z then (mant d * 10 ^ expo d =? z)%Z
  else (mant d =? z * 10 ^ (- expo d))%Z.

Fixpoint zeros (n : nat) : string :=
  match n with
  | O => EmptyString
  | S n' => String "0" (zeros n')
  end.

(** Digits without their trailing zeros, and how many zeros were dropped. *)
Fixpoint stripZeros (ds : string) : string * nat :=
  match ds with
  | EmptyString => (EmptyString, 0)
  | String c r =>
      let '(r', n) := stripZeros r in
      match r' with
      | EmptyString => if Ascii.eqb c "0" then (EmptyString, S n) else (String c EmptyString, n)
      | String _ _ => (String c r', n)
      end
  end.

(** [String(d)] (Number::toString, radix 10): with [k] significant digits
    and the decimal point after the [n]-th of them, plain digits for
    [-6 < n <= 21] and exponent notation otherwise. *)
Definition numberToString (d : decimal) : string :=
  if (mant d =? 0)%Z then "0"
  else
    let sign := if (mant d <? 0)%Z then "-" else "" in
    let '(ds, dropped) := stripZeros (JS.natToString (mant d)) in
    let k := Z.of_nat (String.length ds) in
    let n := (k + Z.of_nat dropped + expo d)%Z in
    let exponent := (if (n - 1 <? 0)%Z then "-" else "+") ++ JS.natToString (n - 1) in
    sign ++
    (if (k <=? n)%Z && (n <=? 21)%Z then ds ++ zeros (Z.to_nat (n - k))
     else if (0 <? n)%Z && (n <=? 21)%Z then
       substring 0 (Z.to_nat n) ds ++ "." ++ substring (Z.to_nat n) (Z.to_nat (k - n)) ds
     else if (-6 <? n)%Z && (n <=? 0)%Z then "0." ++ zeros (Z.to_nat (- n)) ++ ds
     else if (k =? 1)%Z then ds ++ "e" ++ exponent
     else substring 0 1 ds ++ "." ++ substring 1 (Z.to_nat (k - 1)) ds ++ "e" ++ exponent).

Definition hasOwn (key : string) (members : list (string * value)) : bool :=
  existsb (λ m, String.eqb (fst m) key) members.

(** [ToPropertyKey(v)], the conversion behind [table[v]]; [None] is the
    [TypeError] of an object whose own [toString] member hides the inherited
    method. An array converts through [join(",")], where [null] elements
    give the empty text. *)
Fixpoint toPropertyKey (v : value) : option string :=
  match v with
  | JNull => Some "null"
  | JBool true => Some "true"
  | JBool false => Some "false"
  | JNum d => Some (numberToString d)
  | JStr s => Some s
  | JArr elements =>
      let fix pieces (l : list value) : option (list string) :=
        match l with
        | [] => Some []
        | x :: r =>
            match (match x with JNull => Some EmptyString | _ => toPropertyKey x end) with
            | None => None
            | Some p =>
                match pieces r with
                | Some ps => Some (p :: ps)
                | None => None
                end
            end
        end in
      match pieces elements with
      | Some ps => Some (JS.join "," ps)
      | None => None
      end
  | JObj members => if hasOwn "toString" members then None else Some "[object Object]"
  end.

(** *** The parser: ECMA-404 grammar, recursive descent *)

Definition isJsonSpace (c : ascii) : bool :=
  match nat_of_ascii c with
  | 9 | 10 | 13 | 32 => true
  | _ => false
  end%nat.

Fixpoint skipSpace (s : string) : string :=
  match s with
  | EmptyString => EmptyString
  | String c r => if isJsonSpace c then skipSpace r else s
  end.

Definition isDigit (c : ascii) : bool :=
  (48 <=? nat_of_ascii c)%nat && (nat_of_ascii c <=? 57)%nat.

(** The double quote, character 34. *)
Abbreviation quote := (Ascii false true false false false true false false).

(** A run of decimal digits: its value on top of [acc], its length, the rest. *)
Fixpoint digitRun (s : string) (acc : Z) (len : Z) : Z * Z * string :=
  match s with
  | EmptyString => (acc, len, s)
  | String c r =>
      if isDigit c then digitRun r (acc * 10 + (Z.of_nat (nat_of_ascii c) - 48))%Z (len + 1)%Z
      else (acc, len, s)
  end.

(** The text after the character [c], when [s] starts with it. *)
Definition afterChar (c : ascii) (s : string) : option string :=
  match s with
  | String c' r => if Ascii.eqb c' c then Some r else None
  | EmptyString => None
  end.

(** One digit or more: the value on top of [acc], how many, the rest. *)
Definition digits (s : string) (acc : Z) : option (Z * Z * string) :=
  let '(n, len, r) := digitRun s acc 0 in
  if (len =? 0)%Z then None else Some (n, len, r).

(** [0], or digits that do not start with [0]. *)
Definition parseIntegerPart (s : string) : option (Z * string) :=
  match afterChar "0" s with
  | Some r => Some (0%Z, r)
  | None =>
      match digits s 0 with
      | Some (n, _, r) => Some (n, r)
      | None => None
      end
  end.

(** An optional fraction after the integer part [n]: the digits of both
    as one integer, and the number of fraction digits. *)
Definition parseFraction (n : Z) (s : string) : option (Z * Z * string) :=
  match afterChar "." s with
  | Some r => digits r n
  | None => Some (n, 0%Z, s)
  end.

(** An optional exponent, [0] when there is none. *)
Definition parseExponent (s : string) : option (Z * string) :=
  let signed (r : string) :=
    match afterChar "+" r, afterChar "-" r with
    | Some r', _ =>
        match digits r' 0 with
        | Some (e, _, r'') => Some (e, r'')
        | None => None
        end
    | None, Some r' =>
        match digits r' 0 with
        | Some (e, _, r'') => Some ((- e)%Z, r'')
        | None => None
        end
    | None, None =>
        match digits r 0 with
        | Some (e, _, r'') => Some (e, r'')
        | None => None
        end
    end in
  match afterChar "e" s, afterChar "E" s with
  | Some r, _ => signed r
  | None, Some r => signed r
  | None, None => Some (0%Z, s)
  end.

(** [int frac? exp?] after the optional minus sign. *)
Definition parseNumberBody (s : string) : option (decimal * string) :=
  match parseIntegerPart s with
  | None => None
  | Some (n, r) =>
      match parseFraction n r with
      | None => None
      | Some (m, flen, r1) =>
          match parseExponent r1 with
          | None => None
          | Some (e, r2) => Some (Decimal m (e - flen), r2)
          end
      end
  end.

Definition parseNumber (s : string) : option (decimal * string) :=
  match afterChar "-" s with
  | Some r =>
      match parseNumberBody r with
      | Some (d, r') => Some (Decimal (- mant d) (expo d), r')
      | None => None
      end
  | None => parseNumberBody s
  end.

(** UTF-8 bytes of a UTF-16 code unit written as [\uXXXX]. *)
Definition utf8 (c : Z) : string :=
  let byte (z : Z) := ascii_of_nat (Z.to_nat z) in
  if (c <? 128)%Z then String (byte c) EmptyString
  else if (c <? 2048)%Z then
    String (byte (192 + c / 64)%Z) (String (byte (128 + c mod 64)%Z) EmptyString)
  else
    String (byte (224 + c / 4096)%Z)
      (String (byte (128 + (c / 64) mod 64)%Z) (String (byte (128 + c mod 64)%Z) EmptyString)).

Definition hexValue (c : ascii) : option Z :=
  match JS.digitValue c with
  | Some d => if (d <? 16)%Z then Some d else None
  | None => None
  end.

(** The character a one-letter escape stands for. *)
Definition escape (e : ascii) : option nat :=
  if Ascii.eqb e quote then Some 34
  else if Ascii.eqb e "\" then Some 92
  else if Ascii.eqb e "/" then Some 47
  else if Ascii.eqb e "b" then Some 8
  else if Ascii.eqb e "f" then Some 12
  else if Ascii.eqb e "n" then Some 10
  else if Ascii.eqb e "r" then Some 13
  else if Ascii.eqb e "t" then Some 9
  else None.

Definition prepend (text : string) (rest : option (string * string))
    : option (string * string) :=
  match rest with
  | Some (t, r) => Some (text ++ t, r)
  | None => None
  end.

(** The characters of a string literal after its opening quote, up to the
    closing quote, and the text left after it. *)
Fixpoint parseString (s : string) : option (string * string) :=
  match s with
  | EmptyString => None
  | String c r =>
      if Ascii.eqb c quote then Some (EmptyString, r)
      else if Ascii.eqb c "\" then
        match r with
        | EmptyString => None
        | String e r' =>
            match escape e with
            | Some n => prepend (String (ascii_of_nat n) EmptyString) (parseString r')
            | None =>
                if Ascii.eqb e "u" then
                  match r' with
                  | String h3 (String h2 (String h1 (String h0 r''))) =>
                      match hexValue h3, hexValue h2, hexValue h1, hexValue h0 with
                      | Some x3, Some x2, Some x1, Some x0 =>
                          prepend (utf8 (((x3 * 16 + x2) * 16 + x1) * 16 + x0)%Z)
                                  (parseString r'')
                      | _, _, _, _ => None
                      end
                  | _ => None
                  end
                else None
            end
        end
      else if (nat_of_ascii c <? 32)%nat then None
      else prepend (String c EmptyString) (parseString r)
  end.

(** The text after the literal [word], when [s] starts with it. *)
Fixpoint afterWord (word s : string) : option string :=
  match word with
  | EmptyString => Some s
  | String c word' =>
      match afterChar c s with
      | Some r => afterWord word' r
      | None => None
      end
  end.

(** One value, the elements of an array after [[], the members of an object
    after [{]; each returns what it read and the text left. *)
Fixpoint parseValue (fuel : nat) (s : string) : option (value * string) :=
  match fuel with
  | O => None
  | S fuel' =>
      let s := skipSpace s in
      match afterChar "[" s with
      | Some r =>
          match afterChar "]" (skipSpace r) with
          | Some r' => Some (JArr [], r')
          | None =>
              match parseElements fuel' r with
              | Some (l, r') => Some (JArr l, r')
              | None => None
              end
          end
      | None =>
      match afterChar "{" s with
      | Some r =>
          match afterChar "}" (skipSpace r) with
          | Some r' => Some (JObj [], r')
          | None =>
              match parseMembers fuel' r with
              | Some (l, r') => Some (JObj l, r')
              | None => None
              end
          end
      | None =>
      match afterChar quote s with
      | Some r =>
          match parseString r with
          | Some (t, r') => Some (JStr t, r')
          | None => None
          end
      | None =>
      match afterWord "null" s with
      | Some r => Some (JNull, r)
      | None =>
      match afterWord "true" s with
      | Some r => Some (JBool true, r)
      | None =>
      match afterWord "false" s with
      | Some r => Some (JBool false, r)
      | None =>
      match parseNumber s with
      | Some (d, r) => Some (JNum d, r)
      | None => None
      end end end end end end end
  end
with parseElements (fuel : nat) (s : string) : option (list value * string) :=
  match fuel with
  | O => None
  | S fuel' =>
      match parseValue fuel' s with
      | None => None
      | Some (v, r) =>
          match afterChar "," (skipSpace r) with
          | Some r' =>
              match parseElements fuel' r' with
              | Some (l, r'') => Some (v :: l, r'')
              | None => None
              end
          | None =>
              match afterChar "]" (skipSpace r) with
              | Some r' => Some ([v], r')
              | None => None
              end
          end
      end
  end
with parseMembers (fuel : nat) (s : string) : option (list (string * value) * string) :=
  match fuel with
  | O => None
  | S fuel' =>
      match afterChar quote (skipSpace s) with
      | None => None
      | Some r =>
          match parseString r with
          | None => None
          | Some (k, r1) =>
              match afterChar ":" (skipSpace r1) with
              | None => None
              | Some r2 =>
                  match parseValue fuel' r2 with
                  | None => None
                  | Some (v, r3) =>
                      match afterChar "," (skipSpace r3) with
                      | Some r4 =>
                          match parseMembers fuel' r4 with
                          | Some (l, r5) => Some ((k, v) :: l, r5)
                          | None => None
                          end
                      | None =>
                          match afterChar "}" (skipSpace r3) with
                          | Some r4 => Some ([(k, v)], r4)
                          | None => None
                          end
                      end
                  end
              end
          end
      end
  end.

(** [JSON.parse(text)]: [None] is the [SyntaxError]. Each level of nesting
    and each element costs the parser one or two units of fuel and at least
    one character, so twice the length of the text is enough fuel (see
    [parse_complete]). *)
Definition parse (text : string) : option value :=
  match parseValue (2 * String.length text) text with
  | Some (v, r) =>
      match skipSpace r with
      | EmptyString => Some v
      | _ => None
      end
  | None => None
  end.

End JSON.

(** ** The data model ([pages/Index]) *)

Inductive Severity : Type :=
| error
| warning.

Inductive EntityType : Type :=
| clients
| workers
| tasks.

#[global] Instance Severity_eq_dec : EqDecision Severity.
Proof. solve_decision. Defined.

#[global] Instance EntityType_eq_dec : EqDecision EntityType.
Proof. solve_decision. Defined.

(** The text of an entity kind, as [entity.type] holds it. *)
Definition typeName (ty : EntityType) : string :=
  match ty with
  | clients => "clients"
  | workers => "workers"
  | tasks => "tasks"
  end.

(** One decoded row: column name to cell text. *)
Abbreviation Row := (gmap string string).

Module ValidationError.

Record t : Type := Build {
  row : nat;
  column : string;
  type : string;
  message : string;
  severity : Severity
}.

#[global] Instance eq_dec : EqDecision t.
Proof. solve_decision. Defined.

End ValidationError.

Module DataEntity.

Record t : Type := Build {
  id : string;
  type : EntityType;
  data : list Row;
  errors : list ValidationError.t;
  warnings : list ValidationError.t
}.

End DataEntity.

(** [rows.forEach((row, index) => ...)] over a state the callback updates. *)
Fixpoint forEachFrom {A St : Type} (f : St → nat → A → St) (index : nat) (l : list A) (s : St) : St :=
  match l with
  | [] => s
  | x :: r => forEachFrom f (S index) r (f s index x)
  end.

Definition forEach {A St : Type} (f : St → nat → A → St) (l : list A) (s : St) : St :=
  forEachFrom f 0 l s.

(** [Object.keys(row)] and [list.includes(x)] on texts. *)
Definition keys (row : Row) : list string := (map_to_list row).*1.

Definition listIncludes (l : list string) (x : string) : bool :=
  existsb (String.eqb x) l.

(** ** ValidationService *)

Module ValidationService.

(** The locals a validator mutates: the [errors] array and the [seenIds]
    set, whose members are raw cell values ([None] for [undefined]). *)
Record state : Type := State {
  errors : list ValidationError.t;
  seenIds : gset (option string)
}.

Definition push (e : ValidationError.t) (st : state) : state :=
  State (errors st ++ [e])%list (seenIds st).

Definition add (v : option string) (st : state) : state :=
  State (errors st) ({[ v ]} ∪ seenIds st).

Definition has {A : Type} `{Countable A} (s : gset A) (v : A) : bool :=
  bool_decide (v ∈ s).

Definition checkRequiredColumns (entity : DataEntity.t) (requiredColumns : list string)
    (errors : list ValidationError.t) : list ValidationError.t :=
  match DataEntity.data entity with
  | [] => errors
  | first :: _ =>
      let availableColumns := keys first in
      let missingColumns :=
        List.filter (λ col, negb (listIncludes availableColumns col)) requiredColumns in
      foldl (λ errors column,
               (errors ++ [ValidationError.Build 1 column "missing_column"
                             ("Required column '" ++ column ++ "' is missing") error])%list)
            errors missingColumns
  end.

(** Duplicate ID check, then Missing required values: the two checks every
    validator opens a row with, on its ID column. *)
Definition checkId (idColumn : string) (rowNum : nat) (row : Row) (st : state) : state :=
  let st :=
    if has (seenIds st) (row !! idColumn) then
      push (ValidationError.Build rowNum idColumn "duplicate_id"
              ("Duplicate " ++ idColumn ++ ": " ++ default "undefined" (row !! idColumn)) error) st
    else if JS.truthy (row !! idColumn) then add (row !! idColumn) st
    else st in
  if negb (JS.truthy (row !! idColumn)) then
    push (ValidationError.Build rowNum idColumn "missing_value"
            (idColumn ++ " is required") error) st
  else st.

(** The [try] block shared by AvailableSlots and PreferredPhases: parse,
    demand an array, demand positive integers; [None] when it throws. The
    test is on the number as written; the source tests it once rounded to
    binary64, which agrees for numerals of up to 15 significant digits and
    an exponent that binary64 can hold. *)
Definition isPhaseNumber (v : JSON.value) : bool :=
  match v with
  | JSON.JNum d => JSON.isInteger d && negb (JSON.ltOne d)
  | _ => false
  end.

Definition parsePhaseList (text : string) : option (list JSON.value) :=
  match JSON.parse text with
  | Some (JSON.JArr l) => if forallb isPhaseNumber l then Some l else None
  | _ => None
  end.

(** Priority level validation *)
Definition checkPriorityLevel (rowNum : nat) (row : Row) (st : state) : state :=
  let priority := JS.parseIntCell (row !! "PriorityLevel") in
  if JS.isNaN priority || JS.lt priority (JS.Num 1) || JS.gt priority (JS.Num 5) then
    push (ValidationError.Build rowNum "PriorityLevel" "invalid_range"
            "PriorityLevel must be between 1 and 5" error) st
  else st.

(** Validate JSON *)
Definition checkAttributesJSON (rowNum : nat) (row : Row) (st : state) : state :=
  match row !! "AttributesJSON" with
  | Some (String _ _ as text) =>
      match JSON.parse text with
      | Some _ => st
      | None =>
          push (ValidationError.Build rowNum "AttributesJSON" "invalid_json"
                  "Invalid JSON format in AttributesJSON" error) st
      end
  | _ => st
  end.

(** Validate requested task IDs *)
Definition checkRequestedTaskIDs (validTaskIds : gset (option string)) (rowNum : nat)
    (row : Row) (st : state) : state :=
  match row !! "RequestedTaskIDs" with
  | Some (String _ _ as text) =>
      let taskIds := JS.trim <$> JS.split "," text in
      foldl (λ st taskId,
               if negb (has validTaskIds (Some taskId)) then
                 push (ValidationError.Build rowNum "RequestedTaskIDs" "unknown_reference"
                         ("Unknown TaskID reference: " ++ taskId) error) st
               else st)
            st taskIds
  | _ => st
  end.

(** The callback of [entity.data.forEach] in [validateClients]. *)
Definition clientsRow (validTaskIds : gset (option string)) (st : state) (index : nat)
    (row : Row) : state :=
  let rowNum := index + 1 in
  let st := checkId "ClientID" rowNum row st in
  let st := checkPriorityLevel rowNum row st in
  let st := checkAttributesJSON rowNum row st in
  checkRequestedTaskIDs validTaskIds rowNum row st.

Definition validateClients (entity : DataEntity.t) (allEntities : list DataEntity.t)
    : list ValidationError.t :=
  let requiredColumns :=
    ["ClientID"; "ClientName"; "PriorityLevel"; "RequestedTaskIDs"; "GroupTag"] in
  let tasksEntity := List.find (λ e, bool_decide (DataEntity.type e = tasks)) allEntities in
  let validTaskIds : gset (option string) :=
    match tasksEntity with
    | Some te => list_to_set ((λ task : Row, task !! "TaskID") <$> DataEntity.data te)
    | None => ∅
    end in
  let st := State (checkRequiredColumns entity requiredColumns []) ∅ in
  errors (forEach (clientsRow validTaskIds) (DataEntity.data entity) st).

(** Validate AvailableSlots, with the check for overloaded workers *)
Definition checkAvailableSlots (rowNum : nat) (row : Row) (st : state) : state :=
  match row !! "AvailableSlots" with
  | Some (String _ _ as text) =>
      match parsePhaseList text with
      | Some slots =>
          let maxLoad := JS.parseIntCell (row !! "MaxLoadPerPhase") in
          if negb (JS.isNaN maxLoad) && JS.lt (JS.Num (Z.of_nat (length slots))) maxLoad then
            push (ValidationError.Build rowNum "MaxLoadPerPhase" "overloaded_worker"
                    ("MaxLoadPerPhase (" ++ JS.numberToString maxLoad
                       ++ ") exceeds available slots ("
                       ++ JS.intToString (Z.of_nat (length slots)) ++ ")") warning) st
          else st
      | None =>
          push (ValidationError.Build rowNum "AvailableSlots" "malformed_list"
                  "AvailableSlots must be a valid JSON array of phase numbers" error) st
      end
  | _ => st
  end.

(** Validate MaxLoadPerPhase *)
Definition checkMaxLoadPerPhase (rowNum : nat) (row : Row) (st : state) : state :=
  let maxLoad := JS.parseIntCell (row !! "MaxLoadPerPhase") in
  if JS.isNaN maxLoad || JS.lt maxLoad (JS.Num 1) then
    push (ValidationError.Build rowNum "MaxLoadPerPhase" "invalid_range"
            "MaxLoadPerPhase must be a positive integer" error) st
  else st.

(** The callback of [entity.data.forEach] in [validateWorkers]. *)
Definition workersRow (st : state) (index : nat) (row : Row) : state :=
  let rowNum := index + 1 in
  let st := checkId "WorkerID" rowNum row st in
  let st := checkAvailableSlots rowNum row st in
  checkMaxLoadPerPhase rowNum row st.

Definition validateWorkers (entity : DataEntity.t) (allEntities : list DataEntity.t)
    : list ValidationError.t :=
  let requiredColumns :=
    ["WorkerID"; "WorkerName"; "Skills"; "AvailableSlots"; "MaxLoadPerPhase"] in
  let st := State (checkRequiredColumns entity requiredColumns []) ∅ in
  errors (forEach workersRow (DataEntity.data entity) st).

(** [worker.Skills.split(',')] trimmed, for a worker that has skills. *)
Definition skillsOf (worker : Row) : list string :=
  match worker !! "Skills" with
  | Some (String _ _ as text) => JS.trim <$> JS.split "," text
  | _ => []
  end.

(** Duration validation *)
Definition checkDuration (rowNum : nat) (row : Row) (st : state) : state :=
  let duration := JS.parseIntCell (row !! "Duration") in
  if JS.isNaN duration || JS.lt duration (JS.Num 1) then
    push (ValidationError.Build rowNum "Duration" "invalid_range"
            "Duration must be a positive integer" error) st
  else st.

(** MaxConcurrent validation *)
Definition checkMaxConcurrent (rowNum : nat) (row : Row) (st : state) : state :=
  let maxConcurrent := JS.parseIntCell (row !! "MaxConcurrent") in
  if JS.isNaN maxConcurrent || JS.lt maxConcurrent (JS.Num 1) then
    push (ValidationError.Build rowNum "MaxConcurrent" "invalid_range"
            "MaxConcurrent must be a positive integer" error) st
  else st.

(** Skill coverage validation, with the max-concurrency feasibility check *)
Definition checkSkills (workersEntity : option DataEntity.t) (allWorkerSkills : gset string)
    (rowNum : nat) (row : Row) (st : state) : state :=
  let maxConcurrent := JS.parseIntCell (row !! "MaxConcurrent") in
  match row !! "RequiredSkills" with
  | Some (String _ _ as text) =>
      let requiredSkills := JS.trim <$> JS.split "," text in
      let uncoveredSkills :=
        List.filter (λ skill, negb (has allWorkerSkills skill)) requiredSkills in
      let st :=
        if (0 <? length uncoveredSkills)%nat then
          push (ValidationError.Build rowNum "RequiredSkills" "skill_coverage"
                  ("No workers have these required skills: " ++ JS.join ", " uncoveredSkills)
                  warning) st
        else st in
      let qualifiedWorkers :=
        match workersEntity with
        | Some we =>
            List.filter
              (λ worker : Row,
                 JS.truthy (worker !! "Skills") &&
                 existsb (λ reqSkill, listIncludes (skillsOf worker) reqSkill) requiredSkills)
              (DataEntity.data we)
        | None => []
        end in
      if JS.lt (JS.Num (Z.of_nat (length qualifiedWorkers))) maxConcurrent then
        push (ValidationError.Build rowNum "MaxConcurrent" "max_concurrency_feasibility"
                ("MaxConcurrent (" ++ JS.numberToString maxConcurrent
                   ++ ") exceeds qualified workers ("
                   ++ JS.intToString (Z.of_nat (length qualifiedWorkers)) ++ ")") warning) st
      else st
  | _ => st
  end.

(** Validate PreferredPhases *)
Definition checkPreferredPhases (rowNum : nat) (row : Row) (st : state) : state :=
  match row !! "PreferredPhases" with
  | Some (String _ _ as text) =>
      match parsePhaseList text with
      | Some _ => st
      | None =>
          push (ValidationError.Build rowNum "PreferredPhases" "malformed_list"
                  "PreferredPhases must be a valid JSON array of phase numbers" error) st
      end
  | _ => st
  end.

(** The callback of [entity.data.forEach] in [validateTasks]. *)
Definition tasksRow (workersEntity : option DataEntity.t) (allWorkerSkills : gset string)
    (st : state) (index : nat) (row : Row) : state :=
  let rowNum := index + 1 in
  let st := checkId "TaskID" rowNum row st in
  let st := checkDuration rowNum row st in
  let st := checkMaxConcurrent rowNum row st in
  let st := checkSkills workersEntity allWorkerSkills rowNum row st in
  checkPreferredPhases rowNum row st.

Definition validateTasks (entity : DataEntity.t) (allEntities : list DataEntity.t)
    : list ValidationError.t :=
  let requiredColumns := ["TaskID"; "TaskName"; "Duration"; "RequiredSkills"; "MaxConcurrent"] in
  let workersEntity := List.find (λ e, bool_decide (DataEntity.type e = workers)) allEntities in
  let allWorkerSkills : gset string :=
    match workersEntity with
    | Some we =>
        foldl (λ skills worker, foldl (λ skills skill, {[ skill ]} ∪ skills) skills (skillsOf worker))
              ∅ (DataEntity.data we)
    | None => ∅
    end in
  let st := State (checkRequiredColumns entity requiredColumns []) ∅ in
  errors (forEach (tasksRow workersEntity allWorkerSkills) (DataEntity.data entity) st).

Definition validateEntity (entity : DataEntity.t) (allEntities : list DataEntity.t)
    : list ValidationError.t :=
  match DataEntity.type entity with
  | clients => validateClients entity allEntities
  | workers => validateWorkers entity allEntities
  | tasks => validateTasks entity allEntities
  end.

(** *** Phase tables

    [phaseCapacity] and [phaseDemand] are plain objects used as maps from a
    phase to a number. Their own keys are texts, kept in insertion order;
    [Object.keys] lists the array-index keys first, in ascending order,
    then the others as inserted. *)

Abbreviation table := (list (string * JS.number)).

Fixpoint get (t : table) (key : string) : option JS.number :=
  match t with
  | [] => None
  | (k, v) :: r => if String.eqb k key then Some v else get r key
  end.

Fixpoint set (t : table) (key : string) (v : JS.number) : table :=
  match t with
  | [] => [(key, v)]
  | (k, w) :: r => if String.eqb k key then (k, v) :: r else (k, w) :: set r key v
  end.

(** [table[key] || 0] *)
Definition getOrZero (t : table) (key : string) : JS.number :=
  match get t key with
  | Some n => JS.orElse n (JS.Num 0)
  | None => JS.Num 0
  end.

(** The index a key denotes when it is a canonical array index. *)
Definition arrayIndex (key : string) : option Z :=
  match JS.parseDigits 10 key None with
  | Some n =>
      if String.eqb (JS.natToString n) key && (n <? 4294967295)%Z then Some n else None
  | None => None
  end.

Fixpoint insertByIndex (n : Z) (l : list Z) : list Z :=
  match l with
  | [] => [n]
  | m :: r => if (n <? m)%Z then n :: l else m :: insertByIndex n r
  end.

Definition ownKeys (t : table) : list string :=
  let names := fst <$> t in
  let indices := foldr insertByIndex [] (omap arrayIndex names) in
  ((JS.natToString <$> indices)
     ++ List.filter (λ k, negb (bool_decide (is_Some (arrayIndex k)))) names)%list.

(** [phases.forEach(phase => { table[phase] = (table[phase] || 0) + amount })]:
    the table as the loop leaves it, and whether the loop ran to its end;
    a phase that is no property key throws and ends it early. *)
Fixpoint accumulate (amount : JS.number) (phases : list JSON.value) (t : table) : table * bool :=
  match phases with
  | [] => (t, true)
  | phase :: r =>
      match JSON.toPropertyKey phase with
      | Some key => accumulate amount r (set t key (JS.add (getOrZero t key) amount))
      | None => (t, false)
      end
  end.

(** The body of both [try] blocks: parse the text and add [amount] to each
    phase it lists. Text that does not parse, or parses to a value without
    [forEach], throws before the table is touched. *)
Definition tryAccumulate (text : string) (amount : JS.number) (t : table) : table * bool :=
  match JSON.parse text with
  | Some (JSON.JArr phases) => accumulate amount phases t
  | _ => (t, false)
  end.

Definition workerCapacity (phaseCapacity : table) (index : nat) (worker : Row) : table :=
  match worker !! "AvailableSlots" with
  | Some (String _ _ as text) =>
      let maxLoad := JS.orElse (JS.parseIntCell (worker !! "MaxLoadPerPhase")) (JS.Num 1) in
      fst (tryAccumulate text maxLoad phaseCapacity)
  | _ => phaseCapacity
  end.

Definition taskDemand (acc : table * list ValidationError.t) (index : nat) (task : Row)
    : table * list ValidationError.t :=
  let '(phaseDemand, errors) := acc in
  match task !! "PreferredPhases" with
  | Some (String _ _ as text) =>
      if JS.truthy (task !! "Duration") then
        let duration := JS.parseIntCell (task !! "Duration") in
        let '(phaseDemand, completed) := tryAccumulate text duration phaseDemand in
        if completed then (phaseDemand, errors)
        else (phaseDemand,
              (errors ++ [ValidationError.Build (index + 1) "PreferredPhases" "phase_slot_saturation"
                            "Cannot calculate phase demand due to malformed PreferredPhases"
                            warning])%list)
      else acc
  | _ => acc
  end.

Definition checkSaturation (phaseCapacity phaseDemand : table)
    (errors : list ValidationError.t) (phaseStr : string) : list ValidationError.t :=
  let phase := JS.parseInt phaseStr in
  let capacity := getOrZero phaseCapacity (JS.numberToString phase) in
  match get phaseDemand (JS.numberToString phase) with
  | Some demand =>
      if JS.gt demand capacity then
        (errors ++ [ValidationError.Build 1 "Phase Analysis" "phase_slot_saturation"
                      ("Phase " ++ JS.numberToString phase ++ " is oversaturated: demand ("
                         ++ JS.numberToString demand ++ ") > capacity ("
                         ++ JS.numberToString capacity ++ ")") warning])%list
      else errors
  | None => errors
  end.

Definition validatePhaseSlotSaturation (allEntities : list DataEntity.t)
    : list ValidationError.t :=
  let tasksEntity := List.find (λ e, bool_decide (DataEntity.type e = tasks)) allEntities in
  let workersEntity := List.find (λ e, bool_decide (DataEntity.type e = workers)) allEntities in
  match tasksEntity, workersEntity with
  | Some tasksEntity, Some workersEntity =>
      let phaseCapacity := forEach workerCapacity (DataEntity.data workersEntity) [] in
      let '(phaseDemand, errors) := forEach taskDemand (DataEntity.data tasksEntity) ([], []) in
      foldl (checkSaturation phaseCapacity phaseDemand) errors (ownKeys phaseDemand)
  | _, _ => []
  end.

End ValidationService.

(** ** FileUpload: from the dropped files to the validated upload

    First the parsing of a file: its kind is detected from its name or its
    headers and its columns are mapped to the standard headers. Then the
    part of [onDrop] that follows the parsing of the files: every uploaded
    entity is validated against the whole upload and its findings are
    split by severity; the saturation findings are then pushed onto the
    first tasks entity. *)

Module FileUpload.

(** *** From a decoded file to rows

    The decoders (Papa Parse for CSV, SheetJS for spreadsheets) are inputs
    of the model: a decoded file is the sequence of its rows, each row the
    sequence of its cells in [Object.keys] order, header first. *)

Abbreviation RawRow := (list (string * string)).

Definition detectEntityType (filename : string) (data : list RawRow) : option EntityType :=
  let lowerFilename := JS.toLowerCase filename in
  (* File name based detection *)
  if JS.includes lowerFilename "client" then Some clients
  else if JS.includes lowerFilename "worker" || JS.includes lowerFilename "employee" then
    Some workers
  else if JS.includes lowerFilename "task" || JS.includes lowerFilename "job" then Some tasks
  else
    match data with
    | [] => None
    | first :: _ =>
        let headers := JS.toLowerCase <$> (fst <$> first) in
        (* Column based detection *)
        if existsb (λ h, JS.includes h "clientid" || JS.includes h "client_id") headers then
          Some clients
        else if existsb (λ h, JS.includes h "workerid" || JS.includes h "worker_id"
                              || JS.includes h "employeeid") headers then
          Some workers
        else if existsb (λ h, JS.includes h "taskid" || JS.includes h "task_id"
                              || JS.includes h "jobid") headers then
          Some tasks
        (* Content based detection *)
        else if listIncludes headers "prioritylevel" || listIncludes headers "requestedtaskids" then
          Some clients
        else if listIncludes headers "skills" || listIncludes headers "availableslots" then
          Some workers
        else if listIncludes headers "duration" || listIncludes headers "requiredskills" then
          Some tasks
        else None
    end.

Definition columnMappings (entityType : EntityType) : list (string * list string) :=
  match entityType with
  | clients =>
      [("ClientID", ["clientid"; "client_id"; "id"; "client"]);
       ("ClientName", ["clientname"; "client_name"; "name"; "company"; "organization"]);
       ("PriorityLevel", ["prioritylevel"; "priority_level"; "priority"; "urgency"]);
       ("RequestedTaskIDs", ["requestedtaskids"; "requested_task_ids"; "tasks"; "task_ids"]);
       ("GroupTag", ["grouptag"; "group_tag"; "group"; "category"]);
       ("AttributesJSON", ["attributesjson"; "attributes_json"; "attributes"; "metadata"])]
  | workers =>
      [("WorkerID", ["workerid"; "worker_id"; "employeeid"; "employee_id"; "id"]);
       ("WorkerName", ["workername"; "worker_name"; "name"; "employee_name"]);
       ("Skills", ["skills"; "skill_set"; "capabilities"; "expertise"]);
       ("AvailableSlots", ["availableslots"; "available_slots"; "slots"; "availability"]);
       ("MaxLoadPerPhase", ["maxloadperphase"; "max_load_per_phase"; "max_load"; "capacity"]);
       ("WorkerGroup", ["workergroup"; "worker_group"; "group"; "team"]);
       ("QualificationLevel", ["qualificationlevel"; "qualification_level"; "level"; "seniority"])]
  | tasks =>
      [("TaskID", ["taskid"; "task_id"; "id"; "job_id"]);
       ("TaskName", ["taskname"; "task_name"; "name"; "title"]);
       ("Category", ["category"; "type"; "classification"]);
       ("Duration", ["duration"; "time"; "length"; "phases"]);
       ("RequiredSkills", ["requiredskills"; "required_skills"; "skills"; "skill_requirements"]);
       ("PreferredPhases", ["preferredphases"; "preferred_phases"; "phases"; "timeline"]);
       ("MaxConcurrent", ["maxconcurrent"; "max_concurrent"; "concurrent"; "parallel"])]
  end.

(** [s.replace(/[^a-z0-9]/g, '')] *)
Definition isLowerOrDigit (c : ascii) : bool :=
  let n := nat_of_ascii c in
  ((97 <=? n)%nat && (n <=? 122)%nat) || ((48 <=? n)%nat && (n <=? 57)%nat).

Fixpoint stripOthers (s : string) : string :=
  match s with
  | EmptyString => EmptyString
  | String c r => if isLowerOrDigit c then String c (stripOthers r) else stripOthers r
  end.

(** The test of [originalHeaders.find]: the header, in lower case and
    stripped, is one of the possible names, stripped. *)
Definition isPossibleName (possibleNames : list string) (header : string) : bool :=
  existsb (λ possible,
             String.eqb (stripOthers (JS.toLowerCase header)) (stripOthers possible))
          possibleNames.

(** [headerMap] after the loop over the standard headers; a later standard
    header that matches the same original header overwrites the earlier.
    The map is read by its own entries: a header that names a property
    every object inherits ([constructor], [toString]) is outside the
    model. *)
Definition headerMapOf (mapping : list (string * list string)) (originalHeaders : list string)
    : gmap string string :=
  foldl (λ headerMap entry,
           match List.find (isPossibleName (snd entry)) originalHeaders with
           | Some (String _ _ as matchedHeader) => <[matchedHeader := fst entry]> headerMap
           | _ => headerMap
           end)
        ∅ mapping.

(** [newRow], filled cell after cell; a later cell that lands on the same
    standard key overwrites the earlier. [headerMap[originalKey]] is read
    as an entry of the map, which it is for every header but the names of
    the properties objects inherit. *)
Definition renameRow (headerMap : gmap string string) (row : RawRow) : Row :=
  foldl (λ newRow cell, <[default (fst cell) (headerMap !! fst cell) := snd cell]> newRow)
        ∅ row.

Definition intelligentColumnMapping (data : list RawRow) (entityType : EntityType) : list Row :=
  match data with
  | [] => []
  | first :: _ =>
      let headerMap := headerMapOf (columnMappings entityType) (fst <$> first) in
      renameRow headerMap <$> data
  end.

(** [file.name.split('.').pop()?.toLowerCase()] *)
Definition fileExtension (name : string) : option string :=
  JS.toLowerCase <$> last (JS.split "." name).

(** [parseFile] on a file name and what the decoder made of the file,
    [None] when the decoder failed: the kind and the rows of [ParsedData]
    ([originalHeaders] is never read), or [None] for [null]. A spreadsheet
    without rows is refused, a CSV file without rows is not. *)
Definition parseFile (name : string) (decoded : option (list RawRow))
    : option (EntityType * list Row) :=
  match fileExtension name, decoded with
  | Some fileExtension, Some rows =>
      if String.eqb fileExtension "csv" then
        match detectEntityType name rows with
        | Some entityType => Some (entityType, intelligentColumnMapping rows entityType)
        | None => None
        end
      else if String.eqb fileExtension "xlsx" || String.eqb fileExtension "xls" then
        match detectEntityType name rows with
        | Some entityType =>
            if (0 <? length rows)%nat then
              Some (entityType, intelligentColumnMapping rows entityType)
            else None
        | None => None
        end
      else None
  | _, _ => None
  end.

(** *** The validation of an upload *)

Definition isError (e : ValidationError.t) : bool :=
  bool_decide (ValidationError.severity e = error).

Definition isWarning (e : ValidationError.t) : bool :=
  bool_decide (ValidationError.severity e = warning).

Definition validated (uploadedEntities : list DataEntity.t) (entity : DataEntity.t)
    : DataEntity.t :=
  let errors := ValidationService.validateEntity entity uploadedEntities in
  DataEntity.Build (DataEntity.id entity) (DataEntity.type entity) (DataEntity.data entity)
    (List.filter isError errors) (List.filter isWarning errors).

(** [tasksEntity.warnings.push(...)] and [tasksEntity.errors.push(...)] on
    the entity that [find] returns: the first tasks entity of the list. *)
Fixpoint pushOntoTasks (phaseSlotErrors : list ValidationError.t) (entities : list DataEntity.t)
    : list DataEntity.t :=
  match entities with
  | [] => []
  | e :: r =>
      if bool_decide (DataEntity.type e = tasks) then
        DataEntity.Build (DataEntity.id e) (DataEntity.type e) (DataEntity.data e)
          (DataEntity.errors e ++ List.filter isError phaseSlotErrors)%list
          (DataEntity.warnings e ++ List.filter isWarning phaseSlotErrors)%list :: r
      else e :: pushOntoTasks phaseSlotErrors r
  end.

(** What [onDrop] hands to [onDataUpload]. *)
Definition onDrop (uploadedEntities : list DataEntity.t) : list DataEntity.t :=
  let validatedEntities := validated uploadedEntities <$> uploadedEntities in
  let phaseSlotErrors := ValidationService.validatePhaseSlotSaturation validatedEntities in
  if (0 <? length phaseSlotErrors)%nat then pushOntoTasks phaseSlotErrors validatedEntities
  else validatedEntities.

(** A dropped file: its name, what the decoder made of it, and the clock
    reading [Date.now()] when its entity was built. *)
Record File : Type := Dropped {
  name : string;
  decoded : option (list RawRow);
  now : Z
}.

(** The [for] loop of [onDrop]: one entity for each file that parses. *)
Definition uploaded (acceptedFiles : list File) : list DataEntity.t :=
  omap (λ file,
          match parseFile (name file) (decoded file) with
          | Some (type, data) =>
              Some (DataEntity.Build (typeName type ++ "-" ++ JS.intToString (now file))
                      type data [] [])
          | None => None
          end)
       acceptedFiles.

(** The whole of [onDrop]: what it hands to [onDataUpload], [None] when no
    file parsed and [onDataUpload] is not called. *)
Definition onDropFiles (acceptedFiles : list File) : option (list DataEntity.t) :=
  let uploadedEntities := uploaded acceptedFiles in
  if (0 <? length uploadedEntities)%nat then Some (onDrop uploadedEntities) else None.

End FileUpload.

(** ** ExportPanel: the export status

    The totals the panel shows and writes into the exported configuration;
    the Index page computes the same two sums for its header badges. *)

Module ExportPanel.

Definition totalErrors (data : list DataEntity.t) : nat :=
  foldl (λ sum entity, sum + length (DataEntity.errors entity)) 0 data.

Definition totalWarnings (data : list DataEntity.t) : nat :=
  foldl (λ sum entity, sum + length (DataEntity.warnings entity)) 0 data.

Definition isDataClean (data : list DataEntity.t) : bool :=
  (totalErrors data =? 0)%nat.

End ExportPanel.

(** ** Regular expressions

    The fragment the query patterns are written in: literal text,
    alternatives, greedy [+] on a character class, an optional part and
    numbered capturing groups, matched by backtracking as [RegExp.exec]
    does. The flag [i] makes literal text case-insensitive. *)

Module RegExp.

Inductive class : Type :=
| Word    (* \w *)
| Space   (* \s *)
| Digit   (* \d *)
| Dot.    (* .  *)

Inductive t : Type :=
| Lit (text : string)
| Plus (c : class)
| Seq (a b : t)
| Alt (a b : t)
| Opt (a : t)
| Group (n : nat) (a : t).

Definition inClass (c : class) (ch : ascii) : bool :=
  let n := nat_of_ascii ch in
  match c with
  | Word =>
      ((48 <=? n) && (n <=? 57)) || ((65 <=? n) && (n <=? 90))
      || ((97 <=? n) && (n <=? 122)) || (n =? 95)
  | Space => JS.isWhiteSpace ch
  | Digit => (48 <=? n) && (n <=? 57)
  | Dot => negb ((n =? 10) || (n =? 13))
  end%nat.

(** The text left after the literal [lit], when [s] starts with it. *)
Fixpoint afterLit (i : bool) (lit s : string) : option string :=
  match lit, s with
  | EmptyString, _ => Some s
  | String _ _, EmptyString => None
  | String a lit', String b s' =>
      if (if i then Ascii.eqb (JS.lowerChar a) (JS.lowerChar b) else Ascii.eqb a b)
      then afterLit i lit' s' else None
  end.

(** Greedy [c+]: the longest run first, then shorter ones. *)
Fixpoint plus {R : Type} (c : class) (s : string) (k : string → option R) : option R :=
  match s with
  | EmptyString => None
  | String ch r =>
      if inClass c ch then
        match plus c r k with
        | Some x => Some x
        | None => k r
        end
      else None
  end.

(** What was consumed between the text [s] and its suffix [rest]. *)
Definition consumed (s rest : string) : string :=
  substring 0 (String.length s - String.length rest) s.

Abbreviation captures := (list (option string)).

(** Match [r] at the start of [s], then continue with [k] on the rest. *)
Fixpoint run {R : Type} (i : bool) (r : t) (s : string) (caps : captures)
    (k : string → captures → option R) : option R :=
  match r with
  | Lit lit =>
      match afterLit i lit s with
      | Some rest => k rest caps
      | None => None
      end
  | Plus c => plus c s (λ rest, k rest caps)
  | Seq a b => run i a s caps (λ rest caps', run i b rest caps' k)
  | Alt a b =>
      match run i a s caps k with
      | Some x => Some x
      | None => run i b s caps k
      end
  | Opt a =>
      match run i a s caps k with
      | Some x => Some x
      | None => k s caps
      end
  | Group n a => run i a s caps (λ rest caps', k rest (<[n := Some (consumed s rest)]> caps'))
  end.

(** [s.match(r)] for a pattern with [groups] capturing groups and no [g]
    flag: the leftmost match, as the array of the whole match and the
    groups, [None] for a group that took no part. *)
Fixpoint exec (i : bool) (r : t) (groups : nat) (s : string) : option captures :=
  match run i r s (replicate (S groups) None)
              (λ rest caps, Some (<[0 := Some (consumed s rest)]> caps)) with
  | Some m => Some m
  | None =>
      match s with
      | EmptyString => None
      | String _ s' => exec i r groups s'
      end
  end.

(** [s.split(sep)] for a separator pattern that matches no empty text: a
    piece ends where the separator matches; [skip] counts the characters of
    a matched separator still to pass over. *)
Fixpoint splitFrom (sep : t) (skip : nat) (piece s : string) : list string :=
  match s with
  | EmptyString => [piece]
  | String ch r =>
      match skip with
      | S skip' => splitFrom sep skip' piece r
      | O =>
          match run false sep s [] (λ rest _, Some rest) with
          | Some rest =>
              piece :: splitFrom sep (String.length s - String.length rest - 1) EmptyString r
          | None => splitFrom sep 0 (piece ++ String ch EmptyString) r
          end
      end
  end.

Definition split (sep : t) (s : string) : list string :=
  splitFrom sep 0 EmptyString s.

(** Alternatives of literal texts, [(?:w|w1|...)]. *)
Fixpoint oneOf (w : string) (ws : list string) : t :=
  match ws with
  | [] => Lit w
  | w' :: ws' => Alt (Lit w) (oneOf w' ws')
  end.

End RegExp.

Declare Scope regexp_scope.
Delimit Scope regexp_scope with re.
Infix "·" := RegExp.Seq (at level 60, right associativity) : regexp_scope.

(** ** RuleBuilder: the rule description interpreter *)

Inductive RuleType : Type :=
| coRun
| slotRestriction
| loadLimit
| phaseWindow
| patternMatch
| precedence.

Definition ruleTypeName (ty : RuleType) : string :=
  match ty with
  | coRun => "coRun"
  | slotRestriction => "slotRestriction"
  | loadLimit => "loadLimit"
  | phaseWindow => "phaseWindow"
  | patternMatch => "patternMatch"
  | precedence => "precedence"
  end.

Module BusinessRule.

(** [Partial<BusinessRule>] as the interpreter fills it: every field but
    [id]. The parameters are an object literal. *)
Record t : Type := Build {
  type : RuleType;
  name : string;
  description : string;
  parameters : list (string * JSON.value)
}.

End BusinessRule.

(** A rule as the page keeps it in [businessRules]: the fields of the form
    under an [id]. The type is the text the form holds. *)
Module Rule.

Record t : Type := Build {
  id : string;
  type : string;
  name : string;
  description : string;
  parameters : list (string * JSON.value)
}.

End Rule.

Module RuleBuilder.

(** The component state the interpreter reads and writes. *)
Record form : Type := Form {
  selectedRuleType : string;
  ruleName : string;
  ruleDescription : string;
  ruleParameters : list (string * JSON.value);
  naturalLanguageRule : string
}.

(** The keyword chain of [processNaturalLanguageRule]. *)
Definition suggestedRule (naturalLanguageRule : string) : BusinessRule.t :=
  let ruleLower := JS.toLowerCase naturalLanguageRule in
  if JS.includes ruleLower "together" || JS.includes ruleLower "co-run" then
    BusinessRule.Build coRun "Co-run Rule" naturalLanguageRule
      [("tasks", JSON.JArr [])]
  else if JS.includes ruleLower "load" || JS.includes ruleLower "limit" then
    BusinessRule.Build loadLimit "Load Limit Rule" naturalLanguageRule
      [("maxSlotsPerPhase", JSON.JNum (JSON.Decimal 5 0)); ("workerGroup", JSON.JStr "")]
  else if JS.includes ruleLower "phase" || JS.includes ruleLower "window" then
    BusinessRule.Build phaseWindow "Phase Window Rule" naturalLanguageRule
      [("taskId", JSON.JStr ""); ("allowedPhases", JSON.JArr [])]
  else
    BusinessRule.Build patternMatch "Custom Rule" naturalLanguageRule
      [("pattern", JSON.JStr ""); ("action", JSON.JStr "apply")].

(** [x || ''] on a text. *)
Definition orEmpty (s : string) : string := s.

(** The handler: a blank description is refused with a toast and leaves the
    form as it is; otherwise the form is filled from the suggestion and the
    input box is cleared. *)
Definition processNaturalLanguageRule (f : form) : form :=
  match JS.trim (naturalLanguageRule f) with
  | EmptyString => f
  | String _ _ =>
      let suggested := suggestedRule (naturalLanguageRule f) in
      Form (orEmpty (ruleTypeName (BusinessRule.type suggested)))
           (orEmpty (BusinessRule.name suggested))
           (orEmpty (BusinessRule.description suggested))
           (BusinessRule.parameters suggested)
           ""
  end.

(** [handleAddRule], with the clock reading [Date.now()]: the form and the
    rules of the page afterwards. Without a rule type or with a blank name
    it is refused with a toast; otherwise the page appends the rule
    ([handleRuleAdd]) and the form is reset, the description box of the
    interpreter apart. *)
Definition handleAddRule (now : Z) (f : form) (rules : list Rule.t) : form * list Rule.t :=
  if negb (JS.truthy (Some (selectedRuleType f))) || negb (JS.truthy (Some (JS.trim (ruleName f))))
  then (f, rules)
  else
    let newRule :=
      Rule.Build ("rule-" ++ JS.intToString now) (selectedRuleType f) (ruleName f)
        (ruleDescription f) (ruleParameters f) in
    (Form "" "" "" [] (naturalLanguageRule f), (rules ++ [newRule])%list).

(** [handleRemoveRule]: the rules the page is handed ([onRuleUpdate]). *)
Definition handleRemoveRule (ruleId : string) (rules : list Rule.t) : list Rule.t :=
  List.filter (λ rule, negb (String.eqb (Rule.id rule) ruleId)) rules.

(** The input of the allowed phases of a phase window. What it shows,
    [ruleParameters.allowedPhases?.join(',') || ''], *)
Definition allowedPhasesValue (allowedPhases : option (list JS.number)) : string :=
  match allowedPhases with
  | Some phases => JS.join "," (JS.numberToString <$> phases)
  | None => ""
  end.

(** and what its [onChange] stores for the text it is handed. *)
Definition allowedPhasesOnChange (value : string) : list JS.number :=
  List.filter (λ p, negb (JS.isNaN p)) ((λ p, JS.parseInt (JS.trim p)) <$> JS.split "," value).

End RuleBuilder.

(** ** SearchPanel: the natural-language query engine *)

Module SearchPanel.

Import RegExp.

Record QueryPattern : Type := Build {
  pattern : RegExp.t;
  groups : nat;
  processor : RegExp.captures → list DataEntity.t → list Row;
  description : string
}.

(** [match[n]], the empty text standing in for a group that is [undefined]
    (no processor reads such a group as text). *)
Definition group (m : RegExp.captures) (n : nat) : string :=
  default "" (mjoin (m !! n)).

Definition findEntityByType (entityType : string) (entities : list DataEntity.t)
    : option DataEntity.t :=
  let typeMap :=
    [("client", clients); ("clients", clients);
     ("worker", workers); ("workers", workers);
     ("employee", workers); ("employees", workers);
     ("task", tasks); ("tasks", tasks);
     ("job", tasks); ("jobs", tasks)] in
  match List.find (λ entry, String.eqb (fst entry) (JS.toLowerCase entityType)) typeMap with
  | Some (_, targetType) =>
      List.find (λ e, bool_decide (DataEntity.type e = targetType)) entities
  | None => None
  end.

(** The first run of digits of a text, [text.match(/(\d+)/)[1]]. *)
Definition firstNumber (text : string) : option string :=
  match RegExp.exec false (Group 1 (Plus Digit)) 1 text with
  | Some m => mjoin (m !! 1)
  | None => None
  end.

Definition processCondition (entityType condition : string) (entities : list DataEntity.t)
    : list Row :=
  match findEntityByType entityType entities with
  | None => []
  | Some targetEntity =>
      let rows := DataEntity.data targetEntity in
      let conditionLower := JS.toLowerCase condition in
      if JS.includes conditionLower "priority" && JS.includes conditionLower "5" then
        List.filter (λ item : Row, bool_decide (item !! "PriorityLevel" = Some "5")) rows
      else if JS.includes conditionLower "high priority" then
        List.filter (λ item : Row, JS.ge (JS.parseIntCell (item !! "PriorityLevel")) (JS.Num 4)) rows
      else
        match
          (if JS.includes conditionLower "duration"
              && (JS.includes conditionLower "more than" || JS.includes conditionLower "longer than")
           then firstNumber condition else None)
        with
        | Some durationMatch =>
            let threshold := JS.parseInt durationMatch in
            List.filter (λ item : Row, JS.gt (JS.parseIntCell (item !! "Duration")) threshold) rows
        | None =>
            match
              (if JS.includes conditionLower "skills" && JS.includes conditionLower "more than"
               then firstNumber condition else None)
            with
            | Some countMatch =>
                let threshold := JS.parseInt countMatch in
                List.filter
                  (λ item : Row,
                     match item !! "Skills" with
                     | Some (String _ _ as skills) =>
                         JS.gt (JS.Num (Z.of_nat (length (JS.split "," skills)))) threshold
                     | _ => false
                     end) rows
            | None => []
            end
        end
  end.

(** The value a comparison is made against: a number for [>] and [<], the
    trimmed text for [=]. *)
Inductive operand : Type :=
| Number (n : JS.number)
| Text (s : string).

Definition processComparison (entityType field operator : string) (value : operand)
    (entities : list DataEntity.t) : list Row :=
  match findEntityByType entityType entities with
  | None => []
  | Some targetEntity =>
      let fieldMap :=
        [("priority", "PriorityLevel"); ("duration", "Duration"); ("skills", "Skills");
         ("load", "MaxLoadPerPhase"); ("concurrent", "MaxConcurrent")] in
      let actualField :=
        match List.find (λ entry, String.eqb (fst entry) (JS.toLowerCase field)) fieldMap with
        | Some (_, canonical) => canonical
        | None => field
        end in
      List.filter
        (λ item : Row,
           match item !! actualField with
           | None => false
           | Some itemValue =>
               match value with
               | Number v =>
                   let numValue := JS.parseInt itemValue in
                   if JS.isNaN numValue then false
                   else if String.eqb operator ">" then JS.gt numValue v
                   else if String.eqb operator "<" then JS.lt numValue v
                   else if String.eqb operator "=" then bool_decide (numValue = v)
                   else false
               | Text v => JS.includes (JS.toLowerCase itemValue) (JS.toLowerCase v)
               end
           end)
        (DataEntity.data targetEntity)
  end.

(** [a || b] on cells. *)
Definition orCell (a b : option string) : option string :=
  if JS.truthy a then a else b.

Definition processGroupFilter (entityType groupName : string) (entities : list DataEntity.t)
    : list Row :=
  match findEntityByType entityType entities with
  | None => []
  | Some targetEntity =>
      List.filter
        (λ item : Row,
           match orCell (orCell (item !! "GroupTag") (item !! "WorkerGroup")) (item !! "Category") with
           | Some (String _ _ as groupField) =>
               JS.includes (JS.toLowerCase groupField) (JS.toLowerCase groupName)
           | _ => false
           end)
        (DataEntity.data targetEntity)
  end.

(** [parsed.includes(phase)] for a parsed JSON value and a number: array
    membership, or containment of the digits in a text; [None] is the
    [TypeError] of a value that has no [includes], which the [catch] around
    the call turns into [false]. *)
Definition jsonIncludes (parsed : JSON.value) (phase : Z) : option bool :=
  match parsed with
  | JSON.JArr l =>
      Some (existsb (λ x, match x with JSON.JNum d => JSON.equalsInt d phase | _ => false end) l)
  | JSON.JStr s => Some (JS.includes s (JS.intToString phase))
  | _ => None
  end.

Definition processPhaseFilter (entityType : string) (phases : list Z)
    (entities : list DataEntity.t) : list Row :=
  match findEntityByType entityType entities with
  | None => []
  | Some targetEntity =>
      List.filter
        (λ item : Row,
           match item !! "AvailableSlots" with
           | Some (String _ _ as text) =>
               match JSON.parse text with
               | Some availableSlots =>
                   forallb (λ phase, bool_decide (jsonIncludes availableSlots phase = Some true)) phases
               | None => false
               end
           | _ =>
               match item !! "PreferredPhases" with
               | Some (String _ _ as text) =>
                   match JSON.parse text with
                   | Some preferredPhases =>
                       existsb (λ phase, bool_decide (jsonIncludes preferredPhases phase = Some true))
                               phases
                   | None => false
                   end
               | _ => false
               end
           end)
        (DataEntity.data targetEntity)
  end.

Definition processSkillFilter (entityType skillsText : string) (entities : list DataEntity.t)
    : list Row :=
  match findEntityByType entityType entities with
  | None => []
  | Some targetEntity =>
      let requiredSkills :=
        (λ s, JS.toLowerCase (JS.trim s))
          <$> RegExp.split (Plus Space · oneOf "or" ["and"] · Plus Space)%re skillsText in
      List.filter
        (λ item : Row,
           let itemSkills :=
             JS.toLowerCase
               (default "" (orCell (orCell (item !! "Skills") (item !! "RequiredSkills")) (Some ""))) in
           existsb (λ skill, JS.includes itemSkills skill) requiredSkills)
        (DataEntity.data targetEntity)
  end.

(** [[parseInt(phase1), phase2 ? parseInt(phase2) : null].filter(Boolean)] *)
Definition requestedPhases (m : RegExp.captures) : list Z :=
  let keep (n : JS.number) :=
    match n with
    | JS.Num z => if (z =? 0)%Z then [] else [z]
    | JS.NaN => []
    end in
  (keep (JS.parseInt (group m 2))
     ++ match mjoin (m !! 3) with
        | Some (String _ _ as phase2) => keep (JS.parseInt phase2)
        | _ => []
        end)%list.

Definition queryPatterns : list QueryPattern :=
  [ Build
      (oneOf "all" ["find"; "show"; "get"] · Plus Space · Group 1 (Plus Word) · Plus Space
         · oneOf "with" ["having"; "where"] · Plus Space · Group 2 (Plus Dot))%re 2
      (λ m entities, processCondition (group m 1) (group m 2) entities)
      "Find entities with specific conditions";
    Build
      (Group 1 (Plus Word) · Plus Space · oneOf "with" ["having"] · Plus Space
         · Group 2 (Plus Word) · Plus Space · oneOf "more than" ["greater than"; ">"]
         · Plus Space · Group 3 (Plus Digit))%re 3
      (λ m entities,
         processComparison (group m 1) (group m 2) ">" (Number (JS.parseInt (group m 3))) entities)
      "Find entities with numeric comparisons";
    Build
      (Group 1 (Plus Word) · Plus Space · oneOf "with" ["having"] · Plus Space
         · Group 2 (Plus Word) · Plus Space · oneOf "less than" ["fewer than"; "<"]
         · Plus Space · Group 3 (Plus Digit))%re 3
      (λ m entities,
         processComparison (group m 1) (group m 2) "<" (Number (JS.parseInt (group m 3))) entities)
      "Find entities with numeric comparisons";
    Build
      (Group 1 (Plus Word) · Plus Space · oneOf "with" ["having"] · Plus Space
         · Group 2 (Plus Word) · Plus Space · oneOf "equal to" ["equals"; "="]
         · Plus Space · Group 3 (Plus Dot))%re 3
      (λ m entities,
         processComparison (group m 1) (group m 2) "=" (Text (JS.trim (group m 3))) entities)
      "Find entities with exact matches";
    Build
      (Group 1 (Plus Word) · Plus Space · oneOf "in" ["from"] · Plus Space
         · oneOf "group" ["team"] · Plus Space · Group 2 (Plus Word))%re 2
      (λ m entities, processGroupFilter (group m 1) (group m 2) entities)
      "Find entities in specific groups";
    Build
      (Group 1 (Plus Word) · Plus Space · oneOf "available" ["working"] · Plus Space
         · oneOf "in" ["during"] · Plus Space · Lit "phase" · Plus Space · Group 2 (Plus Digit)
         · Opt (Plus Space · Lit "and" · Plus Space · Group 3 (Plus Digit)))%re 3
      (λ m entities, processPhaseFilter (group m 1) (requestedPhases m) entities)
      "Find entities available in specific phases";
    Build
      (Group 1 (Plus Word) · Plus Space · oneOf "requiring" ["needing"; "with"] · Plus Space
         · oneOf "skill" ["skills"] · Plus Space · Group 2 (Plus Dot))%re 2
      (λ m entities, processSkillFilter (group m 1) (group m 2) entities)
      "Find entities with specific skills" ].

(** The [for] loop over the pattern table: the first pattern that matches
    sets [results] and [insight] and breaks. *)
Fixpoint firstMatch (patterns : list QueryPattern) (query : string) (data : list DataEntity.t)
    : option (list Row * string) :=
  match patterns with
  | [] => None
  | p :: rest =>
      match RegExp.exec true (pattern p) (groups p) query with
      | Some m => Some (processor p m data, "Processed using pattern: " ++ description p)
      | None => firstMatch rest query data
      end
  end.

(** The text search the engine falls back on. *)
Definition fallbackSearch (query : string) (data : list DataEntity.t) : list Row :=
  let queryLower := JS.toLowerCase query in
  flat_map
    (λ entity,
       let matchingRows :=
         List.filter
           (λ row : Row,
              existsb (λ value, JS.includes (JS.toLowerCase value) queryLower)
                      (map_to_list row).*2)
           (DataEntity.data entity) in
       (λ row : Row, <["_entityType" := typeName (DataEntity.type entity)]> row) <$> matchingRows)
    data.

(** The [try] block of [processNaturalLanguageQuery], with [queryPatterns]
    as a parameter: the rows and the insight it hands to the component. *)
Definition processQueryWith (patterns : list QueryPattern) (query : string)
    (data : list DataEntity.t) : list Row * string :=
  let '(results, insight) := default ([], "") (firstMatch patterns query data) in
  let '(results, insight) :=
    if (length results =? 0)%nat then
      (fallbackSearch query data, "Used fallback text search across all entities")
    else (results, insight) in
  ((λ result : Row,
      <["_entityType" :=
          match result !! "_entityType" with
          | Some (String _ _ as ty) => ty
          | _ => "unknown"
          end]> result) <$> results,
   insight).

Definition processNaturalLanguageQuery (query : string) (data : list DataEntity.t)
    : list Row * string :=
  processQueryWith queryPatterns query data.

End SearchPanel.

(** * Verification *)

(** ** Vocabulary of the statements *)

Import ValidationService.

(** The ID column and the required columns of each kind, as the three
    validators name them. *)
Definition idColumn (ty : EntityType) : string :=
  match ty with
  | clients => "ClientID"
  | workers => "WorkerID"
  | tasks => "TaskID"
  end.

Definition requiredColumns (ty : EntityType) : list string :=
  match ty with
  | clients => ["ClientID"; "ClientName"; "PriorityLevel"; "RequestedTaskIDs"; "GroupTag"]
  | workers => ["WorkerID"; "WorkerName"; "Skills"; "AvailableSlots"; "MaxLoadPerPhase"]
  | tasks => ["TaskID"; "TaskName"; "Duration"; "RequiredSkills"; "MaxConcurrent"]
  end.

(** The required-column check in closed form. *)
Definition missingColumnFindings (entity : DataEntity.t) (required : list string)
    : list ValidationError.t :=
  match DataEntity.data entity with
  | [] => []
  | first :: _ =>
      (λ column, ValidationError.Build 1 column "missing_column"
                   ("Required column '" ++ column ++ "' is missing") error)
        <$> List.filter (λ column, bool_decide (first !! column = None)) required
  end.

(** The seen set holds the non-empty ID cells met so far. *)
Definition seenOk (seen : gset (option string)) (earlier : list (option string)) : Prop :=
  ∀ v, v ∈ seen ↔ JS.truthy v = true ∧ v ∈ earlier.

(** The first entity of a kind, [allEntities.find(e => e.type === ty)]. *)
Definition entityOf (ty : EntityType) (allEntities : list DataEntity.t) : option DataEntity.t :=
  List.find (λ e, bool_decide (DataEntity.type e = ty)) allEntities.

(** The raw TaskID cells of the tasks collection. *)
Definition taskIdCells (allEntities : list DataEntity.t) : list (option string) :=
  match entityOf tasks allEntities with
  | Some te => (λ task : Row, task !! "TaskID") <$> DataEntity.data te
  | None => []
  end.

Definition allWorkerSkills (allEntities : list DataEntity.t) : gset string :=
  match entityOf workers allEntities with
  | Some we =>
      foldl (λ skills worker, foldl (λ skills skill, {[ skill ]} ∪ skills) skills (skillsOf worker))
            ∅ (DataEntity.data we)
  | None => ∅
  end.

(** The [forEach] callback [validateEntity] runs for an entity of kind [ty]. *)
Definition rowCallback (ty : EntityType) (allEntities : list DataEntity.t)
    : state → nat → Row → state :=
  match ty with
  | clients => clientsRow (list_to_set (taskIdCells allEntities))
  | workers => workersRow
  | tasks => tasksRow (entityOf workers allEntities) (allWorkerSkills allEntities)
  end.

(** The raw ID cells of an entity, row by row. *)
Definition idCells (entity : DataEntity.t) : list (option string) :=
  (λ row : Row, row !! idColumn (DataEntity.type entity)) <$> DataEntity.data entity.

Definition hasType (ty : string) (d : ValidationError.t) : bool :=
  String.eqb (ValidationError.type d) ty.

Definition atRow (n : nat) (d : ValidationError.t) : bool :=
  (ValidationError.row d =? n)%nat.

(** What a check pushes, seen from an empty [errors] array. *)
Definition found (check : state → state) (seen : gset (option string))
    : list ValidationError.t :=
  errors (check (State [] seen)).

Definition pushAll (l : list ValidationError.t) (st : state) : state :=
  State (errors st ++ l)%list (seenIds st).

(** A check that only pushes, whatever the state. *)
Definition pushes (check : state → state) : Prop :=
  ∀ st, check st = pushAll (found check ∅) st.

(** The [seenIds] set after the ID checks of one more row. *)
Definition nextSeen (idc : string) (seen : gset (option string)) (row : Row)
    : gset (option string) :=
  if has seen (row !! idc) then seen
  else if JS.truthy (row !! idc) then {[ row !! idc ]} ∪ seen
  else seen.

(** What the checks after the ID checks push for one row. *)
Definition laterFindings (ty : EntityType) (allEntities : list DataEntity.t) (rowNum : nat)
    (row : Row) : list ValidationError.t :=
  match ty with
  | clients =>
      found (checkPriorityLevel rowNum row) ∅
        ++ found (checkAttributesJSON rowNum row) ∅
        ++ found (checkRequestedTaskIDs (list_to_set (taskIdCells allEntities)) rowNum row) ∅
  | workers =>
      found (checkAvailableSlots rowNum row) ∅
        ++ found (checkMaxLoadPerPhase rowNum row) ∅
  | tasks =>
      found (checkDuration rowNum row) ∅
        ++ found (checkMaxConcurrent rowNum row) ∅
        ++ found (checkSkills (entityOf workers allEntities) (allWorkerSkills allEntities)
                    rowNum row) ∅
        ++ found (checkPreferredPhases rowNum row) ∅
  end%list.

(** The findings of one row, and of the rows of an entity, block after
    block, with the set of seen IDs threaded through. *)
Definition rowFindings (ty : EntityType) (allEntities : list DataEntity.t)
    (seen : gset (option string)) (index : nat) (row : Row) : list ValidationError.t :=
  (found (checkId (idColumn ty) (index + 1) row) seen
     ++ laterFindings ty allEntities (index + 1) row)%list.

Fixpoint blocksFrom (ty : EntityType) (allEntities : list DataEntity.t)
    (seen : gset (option string)) (index : nat) (rows : list Row) : list ValidationError.t :=
  match rows with
  | [] => []
  | row :: rest =>
      (rowFindings ty allEntities seen index row
         ++ blocksFrom ty allEntities (nextSeen (idColumn ty) seen row) (S index) rest)%list
  end.

(** The order in which the validator of each kind runs its per-row checks,
    read off the source: the finding kind and the column each check
    reports. A worker's slots are checked before its load, and a task's
    preferred phases last, after the two skill checks. *)
Definition checkOrder (ty : EntityType) : list (string * string) :=
  match ty with
  | clients =>
      [("duplicate_id", "ClientID"); ("missing_value", "ClientID");
       ("invalid_range", "PriorityLevel"); ("invalid_json", "AttributesJSON");
       ("unknown_reference", "RequestedTaskIDs")]
  | workers =>
      [("duplicate_id", "WorkerID"); ("missing_value", "WorkerID");
       ("overloaded_worker", "MaxLoadPerPhase"); ("malformed_list", "AvailableSlots");
       ("invalid_range", "MaxLoadPerPhase")]
  | tasks =>
      [("duplicate_id", "TaskID"); ("missing_value", "TaskID");
       ("invalid_range", "Duration"); ("invalid_range", "MaxConcurrent");
       ("skill_coverage", "RequiredSkills"); ("max_concurrency_feasibility", "MaxConcurrent");
       ("malformed_list", "PreferredPhases")]
  end.

Fixpoint position (kind column : string) (order : list (string * string)) : nat :=
  match order with
  | [] => 0
  | (k, c) :: rest =>
      if String.eqb kind k && String.eqb column c then 0 else S (position kind column rest)
  end.

(** The place of a finding in the order of the checks. *)
Definition rank (ty : EntityType) (d : ValidationError.t) : nat :=
  position (ValidationError.type d) (ValidationError.column d) (checkOrder ty).

(** Row-major order, and the order of the checks within a row. *)
Definition precedes (ty : EntityType) (d1 d2 : ValidationError.t) : Prop :=
  (ValidationError.row d1 < ValidationError.row d2)%nat
  ∨ (ValidationError.row d1 = ValidationError.row d2 ∧ (rank ty d1 ≤ rank ty d2)%nat).

(** The order in which the specification enumerates the row-level checks
    (section 4.1), by the kind of finding each reports: identity, numeric
    range, encoded structure, cross-reference, capacity consistency, skill
    coverage, concurrency feasibility. This definition follows the
    specification's wording, not the source; [checkOrder] is the source's. *)
Definition specEnumerationRank (kind : string) : nat :=
  if listIncludes ["missing_value"; "duplicate_id"] kind then 0
  else if String.eqb kind "invalid_range" then 1
  else if listIncludes ["invalid_json"; "malformed_list"] kind then 2
  else if String.eqb kind "unknown_reference" then 3
  else if String.eqb kind "overloaded_worker" then 4
  else if String.eqb kind "skill_coverage" then 5
  else if String.eqb kind "max_concurrency_feasibility" then 6
  else 7.

(** Row-major order, and the specification's enumeration within a row. *)
Definition specEnumerated (d1 d2 : ValidationError.t) : Prop :=
  (ValidationError.row d1 < ValidationError.row d2)%nat
  ∨ (ValidationError.row d1 = ValidationError.row d2
     ∧ (specEnumerationRank (ValidationError.type d1)
        ≤ specEnumerationRank (ValidationError.type d2))%nat).

(** A block of findings of one row: in check order, all at [rowNum], with
    ranks between [lo] and [hi]. *)
Definition ranked (ty : EntityType) (rowNum lo hi : nat) (l : list ValidationError.t) : Prop :=
  StronglySorted (precedes ty) l
  ∧ Forall (λ d, ValidationError.row d = rowNum ∧ (lo ≤ rank ty d ≤ hi)%nat) l.

(** The rows that repeat an ID: row [index + 1] counts when its ID cell is
    not empty and already occurs among the [earlier] cells. *)
Fixpoint duplicateRowsFrom (earlier : list (option string)) (index : nat)
    (ids : list (option string)) : list nat :=
  match ids with
  | [] => []
  | v :: rest =>
      ((if JS.truthy v && bool_decide (v ∈ earlier) then [index + 1] else [])
         ++ duplicateRowsFrom (earlier ++ [v]) (S index) rest)%list
  end.

Definition duplicateRows (ids : list (option string)) : list nat :=
  duplicateRowsFrom [] 0 ids.

(** A text contains a keyword, letter case aside. *)
Definition containsIgnoringCase (text keyword : string) : Prop :=
  ∃ pre mid post, text = pre ++ mid ++ post ∧ JS.toLowerCase mid = JS.toLowerCase keyword.

(** The keywords the rule interpreter looks for, in the order it tests them.
    Beyond ASCII the lower-casing of the source yields an ASCII letter for
    two characters only: a [k] for U+212A, and for U+0130 an [i] that a
    combining dot follows. No keyword has a [k] or ends in [i], so the
    source finds a keyword in a text exactly when the text contains it
    with the case of A-Z set aside. *)
Definition ruleKeywords : list string :=
  ["together"; "co-run"; "load"; "limit"; "phase"; "window"].

(** The severity each kind of finding is reported with: the four advisory
    kinds are warnings, every other kind is an error. *)
Definition severityOf (kind : string) : Severity :=
  if listIncludes ["overloaded_worker"; "skill_coverage"; "max_concurrency_feasibility";
                   "phase_slot_saturation"] kind
  then warning else error.

(** The skills of the workers collection, worker after worker. *)
Definition workerSkills (allEntities : list DataEntity.t) : list string :=
  match entityOf workers allEntities with
  | Some we => DataEntity.data we ≫= skillsOf
  | None => []
  end.

(** The value of decimal digits read after digits of value [acc]. *)
Fixpoint digitsValue (d : Decimal.uint) (acc : Z) : Z :=
  match d with
  | Decimal.Nil => acc
  | Decimal.D0 d => digitsValue d (10 * acc)
  | Decimal.D1 d => digitsValue d (10 * acc + 1)
  | Decimal.D2 d => digitsValue d (10 * acc + 2)
  | Decimal.D3 d => digitsValue d (10 * acc + 3)
  | Decimal.D4 d => digitsValue d (10 * acc + 4)
  | Decimal.D5 d => digitsValue d (10 * acc + 5)
  | Decimal.D6 d => digitsValue d (10 * acc + 6)
  | Decimal.D7 d => digitsValue d (10 * acc + 7)
  | Decimal.D8 d => digitsValue d (10 * acc + 8)
  | Decimal.D9 d => digitsValue d (10 * acc + 9)
  end%Z.

(** A text that ends a decimal numeral put before it: it is empty, or
    starts with a character that is neither a decimal digit nor the [x] of
    a hexadecimal prefix. *)
Definition endsNumeral (rest : string) : bool :=
  match rest with
  | EmptyString => true
  | String c _ =>
      negb (JSON.isDigit c) && negb (Ascii.eqb c "x") && negb (Ascii.eqb c "X")
  end.

(** A text of decimal digits and minus signs only. *)
Fixpoint isNumeralText (s : string) : bool :=
  match s with
  | EmptyString => true
  | String c r => (JSON.isDigit c || Ascii.eqb c "-") && isNumeralText r
  end.

(** A row of one of the uploaded entities. *)
Definition uploadedRow (data : list DataEntity.t) (row : Row) : Prop :=
  ∃ entity, entity ∈ data ∧ row ∈ DataEntity.data entity.

(** The standard headers of a kind, in the order of its mapping table. *)
Definition standardHeaders (ty : EntityType) : list string :=
  fst <$> FileUpload.columnMappings ty.


(** A text that ends a JSON number put before it: it is empty, or starts
    with a character that is no digit, no decimal point and no exponent
    mark. *)
Definition endsJsonNumber (rest : string) : bool :=
  match rest with
  | EmptyString => true
  | String c _ =>
      negb (JSON.isDigit c) && negb (Ascii.eqb c ".") && negb (Ascii.eqb c "e")
      && negb (Ascii.eqb c "E")
  end.

(** A list of integers written as a JSON array, with the white space [gap]
    after each comma. *)
Definition phaseListText (gap : string) (phases : list Z) : string :=
  "[" ++ JS.join ("," ++ gap) (JS.intToString <$> phases) ++ "]".

(** The JSON values of a list of integers. *)
Definition phaseValues (phases : list Z) : list JSON.value :=
  (λ z, JSON.JNum (JSON.Decimal z 0)) <$> phases.

(** *** Phase tables in the abstract

    A phase table whose keys are numerals and whose values are numbers,
    as the list of its entries: phase and amount, in insertion order. *)

Definition encode (m : list (Z * Z)) : table :=
  (λ entry, (JS.intToString (fst entry), JS.Num (snd entry))) <$> m.

(** [table[z] = (table[z] || 0) + amount] *)
Fixpoint bump (amount z : Z) (m : list (Z * Z)) : list (Z * Z) :=
  match m with
  | [] => [(z, amount)]
  | (k, v) :: r => if (k =? z)%Z then (k, v + amount)%Z :: r else (k, v) :: bump amount z r
  end.

Definition bumpAll (m : list (Z * Z)) (entry : Z * list Z) : list (Z * Z) :=
  foldl (λ m z, bump (fst entry) z m) m (snd entry).

(** The amount a table holds for a phase, 0 for a phase it has no entry for. *)
Fixpoint amountAt (m : list (Z * Z)) (z : Z) : Z :=
  match m with
  | [] => 0
  | (k, v) :: r => if (k =? z)%Z then v else amountAt r z
  end.

(** How often a phase occurs in a list. *)
Definition occurrences (z : Z) (l : list Z) : Z :=
  Z.of_nat (length (List.filter (Z.eqb z) l)).

(** The total for a phase over entries that each put an amount on every
    phase of a list, once for each time the list has it. *)
Definition phaseTotal (entries : list (Z * list Z)) (z : Z) : Z :=
  foldr (λ entry total, fst entry * occurrences z (snd entry) + total)%Z 0%Z entries.

(** A cell that lists the phases [zs]: it is empty or absent and there are
    none, or it is their JSON array and they are array indices from 1 on. *)
Definition listsPhases (cell : option string) (zs : list Z) : Prop :=
  (JS.truthy cell = false ∧ zs = [])
  ∨ ∃ gap, cell = Some (phaseListText gap zs)
           ∧ JSON.skipSpace gap = ""
           ∧ Forall (λ z, (1 ≤ z < 4294967295)%Z) zs.

(** The warning for a phase whose demand exceeds its capacity. *)
Definition saturationWarning (z demand capacity : Z) : ValidationError.t :=
  ValidationError.Build 1 "Phase Analysis" "phase_slot_saturation"
    ("Phase " ++ JS.intToString z ++ " is oversaturated: demand (" ++ JS.intToString demand
       ++ ") > capacity (" ++ JS.intToString capacity ++ ")") warning.

(** A worker row that offers the load [fst w] on each of the slots
    [snd w]: its AvailableSlots cell lists the slots, and its
    MaxLoadPerPhase cell reads as the load, 1 standing in for a cell that
    reads as no number or as 0. *)
Definition offers (worker : Row) (w : Z * list Z) : Prop :=
  listsPhases (worker !! "AvailableSlots") (snd w)
  ∧ JS.orElse (JS.parseIntCell (worker !! "MaxLoadPerPhase")) (JS.Num 1) = JS.Num (fst w).

(** A task row that asks for the duration [fst t] on each of the phases
    [snd t]: its PreferredPhases cell lists the phases and, when that cell
    is not empty, its Duration cell is not empty either and reads as the
    duration. *)
Definition asksFor (task : Row) (t : Z * list Z) : Prop :=
  listsPhases (task !! "PreferredPhases") (snd t)
  ∧ (JS.truthy (task !! "PreferredPhases") = true →
     JS.truthy (task !! "Duration") = true
     ∧ JS.parseIntCell (task !! "Duration") = JS.Num (fst t)).

(** The Skills cells of the workers collection, row by row. *)
Definition skillCells (allEntities : list DataEntity.t) : list (option string) :=
  match entityOf workers allEntities with
  | Some we => (λ worker : Row, worker !! "Skills") <$> DataEntity.data we
  | None => []
  end.

(** [skillsOf] on the Skills cell alone. *)
Definition skillsOfCell (cell : option string) : list string :=
  match cell with
  | Some (String _ _ as text) => JS.trim <$> JS.split "," text
  | _ => []
  end.

(** *** The domain of the exact model *)

(** A text within ASCII. There [toLowerCase] is the mapping of A-Z alone,
    as [JS.toLowerCase] has it; beyond ASCII the source also maps the
    other capital letters, two of them (U+0130 and U+212A) to ASCII
    letters. *)
Definition isAscii (s : string) : bool :=
  forallb (λ c, (nat_of_ascii c <? 128)%nat) (list_ascii_of_string s).

(** An integer that binary64 holds exactly: [parseInt] reads its numeral
    without rounding and [String] prints it as plain digits. *)
Definition safeInteger (z : Z) : Prop := (- 2 ^ 53 < z < 2 ^ 53)%Z.

(** A cell that [parseInt] reads without rounding, when it reads a number. *)
Definition readsExactly (cell : option string) : Prop :=
  ∀ n, JS.parseIntCell cell = JS.Num n → safeInteger n.

(** Amounts that binary64 adds up exactly, in whatever order: none is
    negative, and all of them together, each counted once for every phase
    it is put on, stay a safe integer. *)
Definition addsExactly (entries : list (Z * list Z)) : Prop :=
  Forall (λ entry, (0 ≤ fst entry)%Z) entries
  ∧ safeInteger (foldr (λ entry total, fst entry * Z.of_nat (length (snd entry)) + total)%Z
                       0%Z entries).

(** The property names every plain object inherits from
    [Object.prototype]: [headerMap[name]] reads the inherited property
    for them, not an entry of the map. *)
Definition inheritedNames : list string :=
  ["constructor"; "hasOwnProperty"; "isPrototypeOf"; "propertyIsEnumerable";
   "toLocaleString"; "toString"; "valueOf"; "__proto__";
   "__defineGetter__"; "__defineSetter__"; "__lookupGetter__"; "__lookupSetter__"].

(** U+00A0, U+2003 and U+FEFF in UTF-8. *)
Definition noBreakSpace : string := String "194"%char (String "160"%char "").
Definition emSpace : string := String "226"%char (String "128"%char (String "131"%char "")).
Definition byteOrderMark : string :=
  String "239"%char (String "187"%char (String "191"%char "")).

(** ** The model at work *)

Example parseInt_examples :
  JS.parseInt "  -12px" = JS.Num (-12) ∧ JS.parseInt "0x1F" = JS.Num 31
  ∧ JS.parseInt "abc" = JS.NaN ∧ JS.parseInt "" = JS.NaN ∧ JS.parseInt "7.9" = JS.Num 7.
Proof. repeat split. Qed.

Example split_trim_example :
  JS.trim <$> JS.split "," "T1, T9 ,," = ["T1"; "T9"; ""; ""].
Proof. reflexivity. Qed.

Example trim_examples :
  JS.trim (byteOrderMark ++ " T1" ++ noBreakSpace ++ emSpace) = "T1"
  ∧ JS.trim (noBreakSpace ++ "a" ++ noBreakSpace ++ "b ") = "a" ++ noBreakSpace ++ "b"
  ∧ JS.trim noBreakSpace = ""
  ∧ JS.parseInt (noBreakSpace ++ "5") = JS.Num 5.
Proof. vm_compute. repeat split. Qed.

(** *** White space

    [trimStart] and [trimEnd] drop one white space character after the
    other, of one byte or of several. *)

Lemma append_cons c a b : String c a ++ b = String c (a ++ b).
Proof. reflexivity. Qed.

Lemma append_nil b : "" ++ b = b.
Proof. reflexivity. Qed.

Lemma isWhiteSpace_below c : JS.isWhiteSpace c = true → (nat_of_ascii c < 33)%nat.
Proof.
  destruct c as [[] [] [] [] [] [] [] []]; intros H; vm_compute in H; try discriminate;
    apply Nat.ltb_lt; reflexivity.
Qed.

Lemma isWhiteSpace2_bytes c c1 :
  JS.isWhiteSpace2 c c1 = true →
  JS.isWhiteSpace c = false ∧ JS.isWhiteSpaceLead c = true ∧ JS.isWhiteSpace c1 = false.
Proof.
  intros H. apply andb_true_iff in H as [Hc Hc1].
  apply Nat.eqb_eq in Hc, Hc1.
  rewrite <- (ascii_nat_embedding c), <- (ascii_nat_embedding c1), Hc, Hc1. done.
Qed.

Lemma isWhiteSpace3_lead c c1 c2 :
  JS.isWhiteSpace3 c c1 c2 = true →
  JS.isWhiteSpace c = false ∧ JS.isWhiteSpaceLead c = true ∧ JS.isWhiteSpace2 c c1 = false.
Proof.
  destruct c as [[] [] [] [] [] [] [] []]; cbn; intros H; try discriminate; done.
Qed.

Lemma isWhiteSpace3_tail c c1 c2 :
  JS.isWhiteSpace3 c c1 c2 = true →
  JS.isWhiteSpace c2 = false ∧ JS.isWhiteSpace2 c1 c2 = false.
Proof.
  intros H.
  assert (Hn : (nat_of_ascii c1 ≠ 194 ∧ 128 ≤ nat_of_ascii c2)%nat).
  { unfold JS.isWhiteSpace3 in H.
    repeat (apply orb_true_iff in H as [H|H]);
      repeat (match type of H with
              | _ && _ = true => let H' := fresh in apply andb_true_iff in H as [H H']
              end);
      repeat (match goal with
              | H0 : (_ =? _)%nat = true |- _ => apply Nat.eqb_eq in H0
              | H0 : (_ <=? _)%nat = true |- _ => apply Nat.leb_le in H0
              | H0 : _ || _ = true |- _ => apply orb_true_iff in H0 as [H0|H0]
              | H0 : _ && _ = true |- _ => let H' := fresh in apply andb_true_iff in H0 as [H0 H']
              end); lia. }
  destruct Hn as [Hn1 Hn2]. split.
  - destruct (JS.isWhiteSpace c2) eqn:E; [|done].
    apply isWhiteSpace_below in E. lia.
  - apply andb_false_iff. left. by apply Nat.eqb_neq.
Qed.

Lemma trimStart_whiteSpace w s :
  JS.isWhiteSpaceChar w = true → JS.trimStart (w ++ s) = JS.trimStart s.
Proof.
  destruct w as [|c [|c1 [|c2 [|c3 w]]]]; cbn [JS.isWhiteSpaceChar]; intros H; try done;
    rewrite !append_cons, append_nil; cbn [JS.trimStart].
  - by rewrite H.
  - destruct (isWhiteSpace2_bytes _ _ H) as (Hc & Hl & _). by rewrite Hc, Hl, H.
  - destruct (isWhiteSpace3_lead _ _ _ H) as (Hc & Hl & H2). by rewrite Hc, Hl, H2, H.
Qed.

Lemma trimEnd_whiteSpace w s :
  JS.isWhiteSpaceChar w = true → JS.trimEnd (s ++ w) = JS.trimEnd s.
Proof.
  intros H. induction s as [|c s IH]; [|by rewrite append_cons; cbn [JS.trimEnd]; rewrite IH].
  rewrite append_nil.
  destruct w as [|c [|c1 [|c2 [|c3 w]]]]; cbn [JS.isWhiteSpaceChar] in H; try done;
    cbn [JS.trimEnd JS.isWhiteSpaceChar].
  - by rewrite H.
  - destruct (isWhiteSpace2_bytes _ _ H) as (_ & _ & Hc1). by rewrite Hc1, H.
  - destruct (isWhiteSpace3_tail _ _ _ H) as (Hc2 & H2). by rewrite Hc2, H2, H.
Qed.

(** What [trimStart] returns does not start with white space of one byte. *)
Lemma trimStart_head s c r : JS.trimStart s = String c r → JS.isWhiteSpace c = false.
Proof.
  remember (String.length s) as n eqn:Hn. revert s c r Hn.
  induction n as [n IH] using lt_wf_ind. intros s c r ->.
  assert (Hrec : ∀ s', (String.length s' < String.length s)%nat →
                       JS.trimStart s' = String c r → JS.isWhiteSpace c = false).
  { intros s' Hlt. by apply (IH _ Hlt s'). }
  clear IH. destruct s as [|a s]; [done|]. cbn [JS.trimStart].
  destruct (JS.isWhiteSpace a) eqn:Ea; [apply Hrec; cbn; lia|].
  destruct (JS.isWhiteSpaceLead a); [|by intros [= <- _]].
  destruct s as [|a1 s]; [by intros [= <- _]|].
  destruct (JS.isWhiteSpace2 a a1); [apply Hrec; cbn; lia|].
  destruct s as [|a2 s]; [by intros [= <- _]|].
  destruct (JS.isWhiteSpace3 a a1 a2); [apply Hrec; cbn; lia|by intros [= <- _]].
Qed.

Example parse_examples :
  JSON.parse " [1, 2.50 ,3e1] "
  = Some (JSON.JArr [JSON.JNum (JSON.Decimal 1 0); JSON.JNum (JSON.Decimal 250 (-2));
                     JSON.JNum (JSON.Decimal 3 1)])
  ∧ JSON.parse "[[],{}, null]" = Some (JSON.JArr [JSON.JArr []; JSON.JObj []; JSON.JNull])
  ∧ JSON.parse "[1,]" = None ∧ JSON.parse "01" = None ∧ JSON.parse "1,2" = None
  ∧ JSON.parse "" = None ∧ JSON.parse "[1" = None.
Proof. vm_compute. repeat split. Qed.

Example numberToString_examples :
  JSON.numberToString
    <$> [JSON.Decimal 250 (-2); JSON.Decimal 1 21; JSON.Decimal 1 20; JSON.Decimal 1 (-7);
         JSON.Decimal (-25) (-1); JSON.Decimal 0 5]
  = ["2.5"; "1e+21"; "100000000000000000000"; "1e-7"; "-2.5"; "0"].
Proof. vm_compute. reflexivity. Qed.

Example isPhaseNumber_examples :
  parsePhaseList "[1, 2.0, 30e-1]" <> None ∧ parsePhaseList "[0]" = None
  ∧ parsePhaseList "[1.5]" = None ∧ parsePhaseList "7" = None ∧ parsePhaseList "[]" = Some [].
Proof. vm_compute. repeat split. discriminate. Qed.

Example ownKeys_example :
  ownKeys [("b", JS.NaN); ("10", JS.NaN); ("2", JS.NaN); ("01", JS.NaN); ("0", JS.NaN)]
  = ["0"; "2"; "10"; "b"; "01"].
Proof. vm_compute. reflexivity. Qed.

Example exec_example :
  RegExp.exec true
    (RegExp.Group 1 (RegExp.Plus RegExp.Word) · RegExp.Plus RegExp.Space
       · RegExp.oneOf "in" ["from"] · RegExp.Plus RegExp.Space
       · RegExp.oneOf "group" ["team"] · RegExp.Plus RegExp.Space
       · RegExp.Group 2 (RegExp.Plus RegExp.Word))%re
    2 "show Workers  FROM team  alpha7 now"
  = Some [Some "Workers  FROM team  alpha7"; Some "Workers"; Some "alpha7"].
Proof. vm_compute. reflexivity. Qed.

Example regexp_split_example :
  RegExp.split (RegExp.Plus RegExp.Space · RegExp.oneOf "or" ["and"] · RegExp.Plus RegExp.Space)%re
    "Python or  JavaScript and Go or"
  = ["Python"; "JavaScript"; "Go or"].
Proof. vm_compute. reflexivity. Qed.

(** Range validation: PriorityLevel 7 is one [invalid_range] error on
    that column, PriorityLevel 3 is none. *)
Example priority_range_example :
  found (checkPriorityLevel 1 {[ "PriorityLevel" := "7" ]}) ∅
  = [ValidationError.Build 1 "PriorityLevel" "invalid_range"
       "PriorityLevel must be between 1 and 5" error]
  ∧ found (checkPriorityLevel 1 {[ "PriorityLevel" := "3" ]}) ∅ = [].
Proof. vm_compute. split; reflexivity. Qed.

(** Saturation: capacity 3 in phase 2 against a demand of 5. *)
Example saturation_example :
  validatePhaseSlotSaturation
    [ DataEntity.Build "workers-1" workers
        [ {[ "WorkerID" := "W1"; "AvailableSlots" := "[2]"; "MaxLoadPerPhase" := "3" ]} ] [] [];
      DataEntity.Build "tasks-1" tasks
        [ {[ "TaskID" := "T1"; "Duration" := "2"; "PreferredPhases" := "[2]" ]};
          {[ "TaskID" := "T2"; "Duration" := "3"; "PreferredPhases" := "[1, 2]" ]} ] [] [] ]
  = [ ValidationError.Build 1 "Phase Analysis" "phase_slot_saturation"
        "Phase 1 is oversaturated: demand (3) > capacity (0)" warning;
      ValidationError.Build 1 "Phase Analysis" "phase_slot_saturation"
        "Phase 2 is oversaturated: demand (5) > capacity (3)" warning ].
Proof. vm_compute. reflexivity. Qed.

(** A query that matches no pattern is searched as text. *)
Example fallback_example :
  SearchPanel.processNaturalLanguageQuery "devops"
    [ DataEntity.Build "workers-1" workers
        [ {[ "WorkerID" := "W1"; "Skills" := "go" ]};
          {[ "WorkerID" := "W2"; "Skills" := "DevOps" ]} ] [] [] ]
  = ([ {[ "WorkerID" := "W2"; "Skills" := "DevOps"; "_entityType" := "workers" ]} ],
     "Used fallback text search across all entities").
Proof. vm_compute. reflexivity. Qed.

(** A pattern that matches and selects rows: the rows come back tagged
    [unknown], for a filter returns the rows of the entity as they are. *)
Example pattern_example :
  SearchPanel.processNaturalLanguageQuery "Workers available in phase 1 and 2"
    [ DataEntity.Build "workers-1" workers
        [ {[ "WorkerID" := "W1"; "AvailableSlots" := "[1,2,3]" ]};
          {[ "WorkerID" := "W2"; "AvailableSlots" := "[2]" ]} ] [] [] ]
  = ([ {[ "WorkerID" := "W1"; "AvailableSlots" := "[1,2,3]"; "_entityType" := "unknown" ]} ],
     "Processed using pattern: Find entities available in specific phases").
Proof. vm_compute. reflexivity. Qed.

(** ** The validators as a header and a block per row *)

Lemma foldl_push {A : Type} (c : A → bool) (e : A → ValidationError.t) (l : list A)
    (st : state) :
  foldl (λ st x, if c x then push (e x) st else st) st l
  = pushAll (e <$> List.filter c l) st.
Proof.
  revert st. induction l as [|x l IH]; intros st; simpl.
  - unfold pushAll. rewrite app_nil_r. by destruct st.
  - rewrite IH. destruct (c x); simpl; [|done].
    unfold pushAll, push. simpl. by rewrite <- app_assoc.
Qed.

Lemma pushAll_nil st : pushAll [] st = st.
Proof. unfold pushAll. rewrite app_nil_r. by destruct st. Qed.

Lemma push_pushAll e st : push e st = pushAll [e] st.
Proof. reflexivity. Qed.

Lemma pushAll_pushAll l1 l2 st : pushAll l2 (pushAll l1 st) = pushAll (l1 ++ l2) st.
Proof. unfold pushAll. simpl. by rewrite <- app_assoc. Qed.

Ltac solve_pushes :=
  intros [errs seen]; unfold found;
  cbn -[JSON.parse parsePhaseList JS.parseIntCell JS.join JS.numberToString JS.intToString];
  repeat case_match; rewrite ?push_pushAll, ?pushAll_nil; reflexivity.

Lemma checkPriorityLevel_pushes rowNum row : pushes (checkPriorityLevel rowNum row).
Proof. unfold checkPriorityLevel. solve_pushes. Qed.

Lemma checkAttributesJSON_pushes rowNum row : pushes (checkAttributesJSON rowNum row).
Proof. unfold checkAttributesJSON. solve_pushes. Qed.

Lemma checkRequestedTaskIDs_pushes v rowNum row : pushes (checkRequestedTaskIDs v rowNum row).
Proof.
  intros st. unfold found, checkRequestedTaskIDs.
  repeat case_match; rewrite ?pushAll_nil; try reflexivity.
  rewrite !foldl_push. reflexivity.
Qed.

Lemma checkAvailableSlots_pushes rowNum row : pushes (checkAvailableSlots rowNum row).
Proof. unfold checkAvailableSlots. solve_pushes. Qed.

Lemma checkMaxLoadPerPhase_pushes rowNum row : pushes (checkMaxLoadPerPhase rowNum row).
Proof. unfold checkMaxLoadPerPhase. solve_pushes. Qed.

Lemma checkDuration_pushes rowNum row : pushes (checkDuration rowNum row).
Proof. unfold checkDuration. solve_pushes. Qed.

Lemma checkMaxConcurrent_pushes rowNum row : pushes (checkMaxConcurrent rowNum row).
Proof. unfold checkMaxConcurrent. solve_pushes. Qed.

Lemma checkSkills_pushes we skills rowNum row : pushes (checkSkills we skills rowNum row).
Proof.
  intros [errs seen]. unfold found, checkSkills.
  cbn -[JS.parseIntCell JS.join JS.numberToString JS.intToString JS.split].
  repeat case_match; rewrite ?push_pushAll, ?pushAll_pushAll, ?pushAll_nil; reflexivity.
Qed.

Lemma checkPreferredPhases_pushes rowNum row : pushes (checkPreferredPhases rowNum row).
Proof. unfold checkPreferredPhases. solve_pushes. Qed.

(** The ID checks push and may add the ID to the set. *)
Lemma checkId_frame idc rowNum row st :
  checkId idc rowNum row st
  = State (errors st ++ found (checkId idc rowNum row) (seenIds st))%list
          (nextSeen idc (seenIds st) row).
Proof.
  destruct st as [errs seen]. unfold found, checkId, nextSeen, push, add. cbn.
  destruct (has seen (row !! idc)), (JS.truthy (row !! idc)); cbn;
    rewrite ?app_nil_r, <- ?app_assoc; reflexivity.
Qed.

Lemma after_checkId idc rowNum row (later : state → state) st :
  pushes later →
  later (checkId idc rowNum row st)
  = State (errors st ++ found (checkId idc rowNum row) (seenIds st) ++ found later ∅)%list
          (nextSeen idc (seenIds st) row).
Proof.
  intros Hl. rewrite checkId_frame, Hl. unfold pushAll. cbn.
  by rewrite <- app_assoc.
Qed.

Lemma pushes_compose (f g : state → state) :
  pushes f → pushes g →
  pushes (λ st, g (f st)) ∧ found (λ st, g (f st)) ∅ = (found f ∅ ++ found g ∅)%list.
Proof.
  intros Hf Hg.
  assert (Hfg : ∀ st, g (f st) = pushAll (found f ∅ ++ found g ∅) st).
  { intros st. by rewrite Hf, Hg, pushAll_pushAll. }
  assert (Heq : found (λ st, g (f st)) ∅ = (found f ∅ ++ found g ∅)%list).
  { unfold found at 1. by rewrite Hfg. }
  split; [|done]. intros st. by rewrite Heq, Hfg.
Qed.

(** One row of any validator: the findings of the ID checks, then those of
    the later checks, and the ID remembered. *)
Lemma rowCallback_frame ty allEntities st index row :
  rowCallback ty allEntities st index row
  = State (errors st ++ rowFindings ty allEntities (seenIds st) index row)%list
          (nextSeen (idColumn ty) (seenIds st) row).
Proof.
  unfold rowFindings. destruct ty; cbn [rowCallback idColumn laterFindings].
  - unfold clientsRow. cbn zeta.
    pose proof (pushes_compose _ _ (checkPriorityLevel_pushes (index + 1) row)
                  (checkAttributesJSON_pushes (index + 1) row)) as [H1 E1].
    pose proof (pushes_compose _ _ H1
                  (checkRequestedTaskIDs_pushes (list_to_set (taskIdCells allEntities))
                     (index + 1) row)) as [H2 E2].
    rewrite (after_checkId _ _ _ _ st H2), E2, E1. by rewrite <- !app_assoc.
  - unfold workersRow. cbn zeta.
    pose proof (pushes_compose _ _ (checkAvailableSlots_pushes (index + 1) row)
                  (checkMaxLoadPerPhase_pushes (index + 1) row)) as [H1 E1].
    by rewrite (after_checkId _ _ _ _ st H1), E1.
  - unfold tasksRow. cbn zeta.
    pose proof (pushes_compose _ _ (checkDuration_pushes (index + 1) row)
                  (checkMaxConcurrent_pushes (index + 1) row)) as [H1 E1].
    pose proof (pushes_compose _ _ H1
                  (checkSkills_pushes (entityOf workers allEntities)
                     (allWorkerSkills allEntities) (index + 1) row)) as [H2 E2].
    pose proof (pushes_compose _ _ H2 (checkPreferredPhases_pushes (index + 1) row)) as [H3 E3].
    rewrite (after_checkId _ _ _ _ st H3), E3, E2, E1. by rewrite <- !app_assoc.
Qed.

Lemma forEachFrom_blocks ty allEntities rows index st :
  errors (forEachFrom (rowCallback ty allEntities) index rows st)
  = (errors st ++ blocksFrom ty allEntities (seenIds st) index rows)%list.
Proof.
  revert index st. induction rows as [|row rows IH]; intros index st; cbn.
  - by rewrite app_nil_r.
  - rewrite IH, rowCallback_frame. cbn. by rewrite <- app_assoc.
Qed.

(** [validateEntity] is the required-column findings followed by the
    blocks of the rows. *)
Lemma validateEntity_blocks entity allEntities :
  validateEntity entity allEntities
  = (checkRequiredColumns entity (requiredColumns (DataEntity.type entity)) []
       ++ blocksFrom (DataEntity.type entity) allEntities ∅ 0 (DataEntity.data entity))%list.
Proof.
  pose proof (forEachFrom_blocks (DataEntity.type entity) allEntities (DataEntity.data entity) 0
                (State (checkRequiredColumns entity (requiredColumns (DataEntity.type entity)) []) ∅))
    as H.
  cbn [errors seenIds] in H. rewrite <- H.
  unfold validateEntity. destruct (DataEntity.type entity); [|reflexivity..].
  unfold validateClients, rowCallback, taskIdCells, entityOf.
  by destruct (List.find _ allEntities).
Qed.

(** ** Order of the findings *)

Lemma ranked_nil ty rowNum lo hi : ranked ty rowNum lo hi [].
Proof. split; constructor. Qed.

Lemma ranked_uniform ty rowNum r l :
  Forall (λ d, ValidationError.row d = rowNum ∧ rank ty d = r) l →
  ranked ty rowNum r r l.
Proof.
  intros H. split.
  - induction H as [|d l [Hd1 Hd2] Hl IH]; constructor; [done|].
    eapply Forall_impl; [exact Hl|]. intros d' [H1 H2]. right. split; [congruence|lia].
  - eapply Forall_impl; [exact H|]. intros d [H1 H2]. split; [done|lia].
Qed.

Lemma ranked_singleton ty rowNum r d :
  ValidationError.row d = rowNum → rank ty d = r → ranked ty rowNum r r [d].
Proof. intros H1 H2. apply ranked_uniform. by repeat constructor. Qed.

Lemma ranked_weaken ty rowNum lo hi lo' hi' l :
  (lo' ≤ lo)%nat → (hi ≤ hi')%nat → ranked ty rowNum lo hi l → ranked ty rowNum lo' hi' l.
Proof.
  intros Hlo Hhi [Hs Hf]. split; [done|].
  eapply Forall_impl; [exact Hf|]. intros d [H1 H2]. split; [done|lia].
Qed.

Lemma ranked_app ty rowNum lo1 hi1 lo2 hi2 l1 l2 :
  (hi1 ≤ lo2)%nat →
  ranked ty rowNum lo1 hi1 l1 → ranked ty rowNum lo2 hi2 l2 →
  ranked ty rowNum (lo1 `min` lo2) (hi1 `max` hi2) (l1 ++ l2).
Proof.
  intros Hle [Hs1 Hf1] [Hs2 Hf2]. split.
  - apply StronglySorted_app_2; [|done..].
    intros x1 x2 Hx1 Hx2.
    rewrite Forall_forall in Hf1, Hf2.
    destruct (Hf1 _ Hx1) as [Hr1 Hk1], (Hf2 _ Hx2) as [Hr2 Hk2].
    right. split; [congruence|lia].
  - apply Forall_app. split.
    + eapply Forall_impl; [exact Hf1|]. intros d [H1 H2]. split; [done|lia].
    + eapply Forall_impl; [exact Hf2|]. intros d [H1 H2]. split; [done|lia].
Qed.

Ltac solve_ranked :=
  unfold found;
  cbn -[JSON.parse parsePhaseList JS.parseIntCell JS.join JS.numberToString JS.intToString
        JS.split];
  repeat case_match;
  first [ apply ranked_nil
        | eapply ranked_weaken; [| |apply ranked_singleton; reflexivity]; cbn; lia ].

Lemma checkId_ranked ty rowNum row seen :
  ranked ty rowNum 0 1 (found (checkId (idColumn ty) rowNum row) seen).
Proof.
  unfold found, checkId, push, add. cbn.
  destruct (has seen (row !! idColumn ty)), (JS.truthy (row !! idColumn ty)); cbn;
    try apply ranked_nil.
  - eapply ranked_weaken; [| |apply ranked_singleton; reflexivity];
      destruct ty; cbn; lia.
  - apply (ranked_app ty rowNum 0 0 1 1 [_] [_]); [lia|..];
      apply ranked_singleton; destruct ty; reflexivity.
  - eapply ranked_weaken; [| |apply ranked_singleton; reflexivity];
      destruct ty; cbn; lia.
Qed.

Lemma checkPriorityLevel_ranked rowNum row :
  ranked clients rowNum 2 2 (found (checkPriorityLevel rowNum row) ∅).
Proof. unfold checkPriorityLevel. solve_ranked. Qed.

Lemma checkAttributesJSON_ranked rowNum row :
  ranked clients rowNum 3 3 (found (checkAttributesJSON rowNum row) ∅).
Proof. unfold checkAttributesJSON. solve_ranked. Qed.

Lemma checkRequestedTaskIDs_ranked v rowNum row :
  ranked clients rowNum 4 4 (found (checkRequestedTaskIDs v rowNum row) ∅).
Proof.
  unfold found, checkRequestedTaskIDs.
  repeat case_match; try apply ranked_nil.
  rewrite foldl_push. cbn. apply ranked_uniform.
  apply Forall_fmap, Forall_forall. intros taskId _. by split.
Qed.

Lemma checkAvailableSlots_ranked rowNum row :
  ranked workers rowNum 2 3 (found (checkAvailableSlots rowNum row) ∅).
Proof. unfold checkAvailableSlots. solve_ranked. Qed.

Lemma checkMaxLoadPerPhase_ranked rowNum row :
  ranked workers rowNum 4 4 (found (checkMaxLoadPerPhase rowNum row) ∅).
Proof. unfold checkMaxLoadPerPhase. solve_ranked. Qed.

Lemma checkDuration_ranked rowNum row :
  ranked tasks rowNum 2 2 (found (checkDuration rowNum row) ∅).
Proof. unfold checkDuration. solve_ranked. Qed.

Lemma checkMaxConcurrent_ranked rowNum row :
  ranked tasks rowNum 3 3 (found (checkMaxConcurrent rowNum row) ∅).
Proof. unfold checkMaxConcurrent. solve_ranked. Qed.

Lemma checkSkills_ranked we skills rowNum row :
  ranked tasks rowNum 4 5 (found (checkSkills we skills rowNum row) ∅).
Proof.
  unfold found, checkSkills, push.
  cbn -[JS.parseIntCell JS.join JS.numberToString JS.intToString JS.split].
  repeat case_match; cbn -[JS.parseIntCell JS.join JS.numberToString JS.intToString JS.split];
    first [ apply ranked_nil
          | apply (ranked_app tasks rowNum 4 4 5 5 [_] [_]); [lia|..];
              by apply ranked_singleton
          | eapply ranked_weaken; [| |apply ranked_singleton; reflexivity]; cbn; lia ].
Qed.

Lemma checkPreferredPhases_ranked rowNum row :
  ranked tasks rowNum 6 6 (found (checkPreferredPhases rowNum row) ∅).
Proof. unfold checkPreferredPhases. solve_ranked. Qed.

Ltac ranked_join H1 H2 H :=
  pose proof (λ Hle, ranked_app _ _ _ _ _ _ _ _ Hle H1 H2) as H;
  specialize (H ltac:(lia)).

(** The later checks of a row keep their enumeration order. *)
Lemma laterFindings_ranked ty allEntities rowNum row :
  ranked ty rowNum 2 (length (checkOrder ty) - 1) (laterFindings ty allEntities rowNum row).
Proof.
  destruct ty; cbn [laterFindings].
  - pose proof (checkPriorityLevel_ranked rowNum row) as Ha.
    pose proof (checkAttributesJSON_ranked rowNum row) as Hb.
    pose proof (checkRequestedTaskIDs_ranked (list_to_set (taskIdCells allEntities))
                  rowNum row) as Hc.
    ranked_join Hb Hc H1. ranked_join Ha H1 H2.
    eapply ranked_weaken; [| |exact H2]; cbn; lia.
  - pose proof (checkAvailableSlots_ranked rowNum row) as Ha.
    pose proof (checkMaxLoadPerPhase_ranked rowNum row) as Hb.
    ranked_join Ha Hb H1.
    eapply ranked_weaken; [| |exact H1]; cbn; lia.
  - pose proof (checkDuration_ranked rowNum row) as Ha.
    pose proof (checkMaxConcurrent_ranked rowNum row) as Hb.
    pose proof (checkSkills_ranked (entityOf workers allEntities)
                  (allWorkerSkills allEntities) rowNum row) as Hc.
    pose proof (checkPreferredPhases_ranked rowNum row) as Hd.
    ranked_join Hc Hd H1. ranked_join Hb H1 H2. ranked_join Ha H2 H3.
    eapply ranked_weaken; [| |exact H3]; cbn; lia.
Qed.

(** The block of one row keeps the enumeration order of its checks. *)
Lemma rowFindings_ranked ty allEntities seen index row :
  ranked ty (index + 1) 0 (length (checkOrder ty) - 1)
         (rowFindings ty allEntities seen index row).
Proof.
  unfold rowFindings.
  pose proof (checkId_ranked ty (index + 1) row seen) as Hid.
  pose proof (laterFindings_ranked ty allEntities (index + 1) row) as Hl.
  ranked_join Hid Hl H.
  eapply ranked_weaken; [| |exact H]; destruct ty; cbn; lia.
Qed.

(** The blocks come in row order: every finding of the rows from [index] on
    lies beyond row [index]. *)
Lemma blocksFrom_sorted ty allEntities rows seen index :
  StronglySorted (precedes ty) (blocksFrom ty allEntities seen index rows)
  ∧ Forall (λ d, (index < ValidationError.row d ≤ index + length rows)%nat)
           (blocksFrom ty allEntities seen index rows).
Proof.
  revert seen index. induction rows as [|row rows IH]; intros seen index; cbn.
  - split; constructor.
  - destruct (IH (nextSeen (idColumn ty) seen row) (S index)) as [IHs IHf].
    destruct (rowFindings_ranked ty allEntities seen index row) as [Hs Hf].
    split.
    + apply StronglySorted_app_2; [|done..].
      intros x1 x2 Hx1 Hx2. rewrite Forall_forall in Hf, IHf.
      destruct (Hf _ Hx1) as [Hr _]. specialize (IHf _ Hx2). left. lia.
    + apply Forall_app. split.
      * eapply Forall_impl; [exact Hf|]. intros d [Hr _]. lia.
      * eapply Forall_impl; [exact IHf|]. intros d Hd. cbn in Hd. lia.
Qed.

(** ** Findings by kind *)

Lemma position_lookup kind column order :
  (position kind column order < length order)%nat →
  order !! position kind column order = Some (kind, column).
Proof.
  induction order as [|[k c] order IH]; cbn; [lia|].
  destruct (String.eqb kind k && String.eqb column c) eqn:E; cbn.
  - apply andb_true_iff in E as [E1 E2].
    apply String.eqb_eq in E1, E2. by subst.
  - intros H. apply IH. lia.
Qed.

(** A finding whose kind no check of the row emits is in no block. *)
Lemma ranked_filter_type ty rowNum lo hi l kind :
  ranked ty rowNum lo hi l →
  (hi < length (checkOrder ty))%nat →
  (∀ r c, (lo ≤ r ≤ hi)%nat → checkOrder ty !! r ≠ Some (kind, c)) →
  List.filter (hasType kind) l = [].
Proof.
  intros [_ Hf] Hhi Hno.
  induction Hf as [|d l [_ Hd] _ IH]; cbn; [done|].
  destruct (hasType kind d) eqn:E; [|done].
  exfalso. apply String.eqb_eq in E.
  apply (Hno (rank ty d) (ValidationError.column d)); [done|].
  rewrite <- E. apply position_lookup. unfold rank in Hd. lia.
Qed.

Ltac solve_no_rank :=
  let r := fresh "r" in let c := fresh "c" in let Hr := fresh "Hr" in
  intros r c Hr;
  do 7 (destruct r as [|r]; [first [lia | discriminate]|]);
  first [lia | discriminate].

Lemma laterFindings_no_duplicate_id ty allEntities rowNum row :
  List.filter (hasType "duplicate_id") (laterFindings ty allEntities rowNum row) = [].
Proof.
  eapply ranked_filter_type; [apply laterFindings_ranked|destruct ty; cbn; lia|].
  destruct ty; cbn; solve_no_rank.
Qed.

Lemma laterFindings_no_missing_value ty allEntities rowNum row :
  List.filter (hasType "missing_value") (laterFindings ty allEntities rowNum row) = [].
Proof.
  eapply ranked_filter_type; [apply laterFindings_ranked|destruct ty; cbn; lia|].
  destruct ty; cbn; solve_no_rank.
Qed.

Lemma rowFindings_no_missing_column ty allEntities seen index row :
  List.filter (hasType "missing_column") (rowFindings ty allEntities seen index row) = [].
Proof.
  eapply ranked_filter_type; [apply rowFindings_ranked|destruct ty; cbn; lia|].
  destruct ty; cbn; solve_no_rank.
Qed.

Lemma blocksFrom_no_missing_column ty allEntities rows seen index :
  List.filter (hasType "missing_column") (blocksFrom ty allEntities seen index rows) = [].
Proof.
  revert seen index. induction rows as [|row rows IH]; intros seen index; cbn; [done|].
  by rewrite List.filter_app, rowFindings_no_missing_column, IH.
Qed.

(** What the two ID checks find. *)
Lemma checkId_found idc rowNum row seen :
  found (checkId idc rowNum row) seen
  = ((if has seen (row !! idc) then
        [ValidationError.Build rowNum idc "duplicate_id"
           ("Duplicate " ++ idc ++ ": " ++ default "undefined" (row !! idc)) error]
      else [])
       ++ (if JS.truthy (row !! idc) then []
           else [ValidationError.Build rowNum idc "missing_value" (idc ++ " is required") error]))%list.
Proof.
  unfold found, checkId, push, add. cbn.
  by destruct (has seen (row !! idc)), (JS.truthy (row !! idc)).
Qed.

Lemma listIncludes_elem_of l x : listIncludes l x = bool_decide (x ∈ l).
Proof.
  unfold listIncludes. induction l as [|y l IH]; cbn; [done|].
  rewrite IH. destruct (String.eqb_spec x y) as [->|Hne]; cbn.
  - symmetry. apply bool_decide_eq_true. left.
  - apply bool_decide_ext. rewrite elem_of_cons. intuition congruence.
Qed.

Lemma listIncludes_keys (row : Row) column :
  listIncludes (keys row) column = negb (bool_decide (row !! column = None)).
Proof.
  rewrite listIncludes_elem_of. unfold keys.
  destruct (row !! column) as [v|] eqn:E.
  - rewrite bool_decide_eq_true_2, bool_decide_eq_false_2; [done..|].
    apply list_elem_of_fmap. exists (column, v). split; [done|].
    by apply elem_of_map_to_list.
  - rewrite bool_decide_eq_false_2, bool_decide_eq_true_2; [done..|].
    intros Hin. apply list_elem_of_fmap in Hin as ([k v] & Hk & Hin).
    apply elem_of_map_to_list in Hin. cbn in Hk. subst k. congruence.
Qed.

Lemma foldl_snoc {A B : Type} (f : A → B) (l : list A) (acc : list B) :
  foldl (λ acc x, (acc ++ [f x])%list) acc l = (acc ++ (f <$> l))%list.
Proof.
  revert acc. induction l as [|x l IH]; intros acc; cbn.
  - by rewrite app_nil_r.
  - by rewrite IH, <- app_assoc.
Qed.

Lemma checkRequiredColumns_spec entity required errs :
  checkRequiredColumns entity required errs
  = (errs ++ missingColumnFindings entity required)%list.
Proof.
  unfold checkRequiredColumns, missingColumnFindings.
  destruct (DataEntity.data entity) as [|first rest]; [by rewrite app_nil_r|].
  rewrite foldl_snoc. do 2 f_equal.
  induction required as [|c required IH]; cbn; [done|].
  rewrite listIncludes_keys, negb_involutive, IH. done.
Qed.

Lemma filter_fmap_none {A B : Type} (p : B → bool) (f : A → B) (l : list A) :
  (∀ x, p (f x) = false) → List.filter p (f <$> l) = [].
Proof. intros H. induction l as [|x l IH]; cbn; [done|]. by rewrite H. Qed.

Lemma filter_fmap_all {A B : Type} (p : B → bool) (f : A → B) (l : list A) :
  (∀ x, p (f x) = true) → List.filter p (f <$> l) = f <$> l.
Proof. intros H. induction l as [|x l IH]; cbn; [done|]. by rewrite H, IH. Qed.

Lemma missingColumnFindings_type entity required :
  List.filter (hasType "missing_column") (missingColumnFindings entity required)
  = missingColumnFindings entity required.
Proof.
  unfold missingColumnFindings. destruct (DataEntity.data entity) as [|first rest]; [done|].
  by apply filter_fmap_all.
Qed.

Lemma missingColumnFindings_other entity required kind :
  kind ≠ "missing_column" →
  List.filter (hasType kind) (missingColumnFindings entity required) = [].
Proof.
  intros Hk. unfold missingColumnFindings.
  destruct (DataEntity.data entity) as [|first rest]; [done|].
  apply filter_fmap_none. intros c. unfold hasType. cbn [ValidationError.type].
  destruct (String.eqb_spec "missing_column" kind) as [E|_]; [by subst|done].
Qed.

(** ** The seen set *)

Lemma has_elem_of {A : Type} `{Countable A} (s : gset A) (v : A) :
  has s v = bool_decide (v ∈ s).
Proof. reflexivity. Qed.

Lemma seenOk_empty : seenOk ∅ [].
Proof. intros v. split; [set_solver|]. intros [_ H]. by apply elem_of_nil in H. Qed.

Lemma seenOk_has seen earlier v :
  seenOk seen earlier → has seen v = JS.truthy v && bool_decide (v ∈ earlier).
Proof.
  intros Hok. rewrite has_elem_of. destruct (JS.truthy v) eqn:Et; cbn.
  - apply bool_decide_ext. rewrite (Hok v). intuition congruence.
  - apply bool_decide_eq_false. rewrite (Hok v). intros [? _]. congruence.
Qed.

Lemma seenOk_next idc seen earlier row :
  seenOk seen earlier → seenOk (nextSeen idc seen row) (earlier ++ [row !! idc]).
Proof.
  intros Hok v. unfold nextSeen. rewrite has_elem_of.
  destruct (decide (row !! idc ∈ seen)) as [Hin|Hnin].
  - rewrite bool_decide_eq_true_2 by done. rewrite (Hok v), elem_of_app, list_elem_of_singleton.
    split; [intuition congruence|]. intros [Ht [Hv| ->]]; [done|]. by apply Hok.
  - rewrite bool_decide_eq_false_2 by done.
    destruct (JS.truthy (row !! idc)) eqn:Et.
    + rewrite elem_of_union, elem_of_singleton, (Hok v), elem_of_app, list_elem_of_singleton.
      split; [intros [->|[? ?]]; auto|]. intros [Ht [Hv| ->]]; auto.
    + rewrite (Hok v), elem_of_app, list_elem_of_singleton.
      split; [intuition congruence|]. intros [Ht [Hv| ->]]; [done|congruence].
Qed.

(** ** Findings by row *)

Lemma filter_none {A : Type} (p : A → bool) (l : list A) :
  Forall (λ x, p x = false) l → List.filter p l = [].
Proof. induction 1 as [|x l Hx _ IH]; cbn; [done|]. by rewrite Hx. Qed.

Lemma filter_all {A : Type} (p : A → bool) (l : list A) :
  Forall (λ x, p x = true) l → List.filter p l = l.
Proof. induction 1 as [|x l Hx _ IH]; cbn; [done|]. by rewrite Hx, IH. Qed.

Lemma filter_andb {A : Type} (p q : A → bool) (l : list A) :
  List.filter (λ x, p x && q x) l = List.filter q (List.filter p l).
Proof.
  induction l as [|x l IH]; cbn; [done|].
  destruct (p x); cbn; [|done]. destruct (q x); by rewrite IH.
Qed.

Lemma rowFindings_at_row ty allEntities seen index row n :
  List.filter (atRow n) (rowFindings ty allEntities seen index row)
  = if (n =? index + 1)%nat then rowFindings ty allEntities seen index row else [].
Proof.
  destruct (rowFindings_ranked ty allEntities seen index row) as [_ Hf].
  destruct (Nat.eqb_spec n (index + 1)) as [->|Hne].
  - apply filter_all. eapply Forall_impl; [exact Hf|].
    intros d [Hd _]. unfold atRow. by apply Nat.eqb_eq.
  - apply filter_none. eapply Forall_impl; [exact Hf|].
    intros d [Hd _]. unfold atRow. apply Nat.eqb_neq. lia.
Qed.

(** The findings at the row of index [j] are the block of that row, made
    with the IDs seen on the rows before it. *)
Lemma blocksFrom_at_row ty allEntities rows seen index j row :
  rows !! j = Some row →
  List.filter (atRow (index + j + 1)) (blocksFrom ty allEntities seen index rows)
  = rowFindings ty allEntities (foldl (nextSeen (idColumn ty)) seen (take j rows))
      (index + j) row.
Proof.
  revert seen index j. induction rows as [|r rows IH]; intros seen index j Hj; [done|].
  cbn [blocksFrom]. rewrite List.filter_app, rowFindings_at_row.
  destruct j as [|j]; cbn in Hj.
  - injection Hj as ->. rewrite Nat.add_0_r, Nat.eqb_refl. cbn [take foldl].
    rewrite filter_none; [by rewrite app_nil_r|].
    destruct (blocksFrom_sorted ty allEntities rows (nextSeen (idColumn ty) seen row)
                (S index)) as [_ Hf].
    eapply Forall_impl; [exact Hf|]. intros d [Hd _]. unfold atRow. apply Nat.eqb_neq. lia.
  - destruct (Nat.eqb_spec (index + S j + 1) (index + 1)) as [E|_]; [lia|].
    cbn [app take foldl].
    replace (index + S j + 1)%nat with (S index + j + 1)%nat by lia.
    rewrite (IH _ _ _ Hj). f_equal. lia.
Qed.

Lemma seenOk_foldl idc rows seen earlier :
  seenOk seen earlier →
  seenOk (foldl (nextSeen idc) seen rows) (earlier ++ ((λ row : Row, row !! idc) <$> rows)).
Proof.
  revert seen earlier. induction rows as [|row rows IH]; intros seen earlier Hok; cbn.
  - by rewrite app_nil_r.
  - rewrite cons_middle, app_assoc. apply IH. by apply seenOk_next.
Qed.

(** The findings of one kind at one row of an entity. *)
Lemma validateEntity_at_row entity allEntities j row kind :
  DataEntity.data entity !! j = Some row →
  kind ≠ "missing_column" →
  List.filter (λ d, atRow (j + 1) d && hasType kind d) (validateEntity entity allEntities)
  = List.filter (hasType kind)
      (rowFindings (DataEntity.type entity) allEntities
         (foldl (nextSeen (idColumn (DataEntity.type entity))) ∅ (take j (DataEntity.data entity)))
         j row).
Proof.
  intros Hj Hk.
  rewrite validateEntity_blocks, checkRequiredColumns_spec, app_nil_l, filter_andb.
  rewrite List.filter_app, List.filter_app.
  pose proof (blocksFrom_at_row (DataEntity.type entity) allEntities _ ∅ 0 j row Hj) as H.
  cbn [Nat.add] in H. rewrite H.
  replace (List.filter (hasType kind) (List.filter (atRow (j + 1)) _)) with (@nil ValidationError.t);
    [done|].
  symmetry. rewrite <- filter_andb.
  rewrite (List.filter_ext _ (λ d, hasType kind d && atRow (j + 1) d))
    by (intros d; apply andb_comm).
  by rewrite filter_andb, missingColumnFindings_other.
Qed.

(** ** Enough fuel for [JSON.parse] *)

Lemma afterChar_length c s r :
  JSON.afterChar c s = Some r → String.length s = S (String.length r).
Proof.
  destruct s as [|c' s]; cbn; [done|]. destruct (Ascii.eqb c' c); [|done]. by intros [= ->].
Qed.

Lemma skipSpace_length s : (String.length (JSON.skipSpace s) ≤ String.length s)%nat.
Proof.
  induction s as [|c s IH]; cbn; [done|]. destruct (JSON.isJsonSpace c); cbn; lia.
Qed.

Lemma afterWord_length word s r :
  JSON.afterWord word s = Some r → (String.length r ≤ String.length s)%nat.
Proof.
  revert s. induction word as [|c word IH]; intros s; cbn.
  - by intros [= ->].
  - destruct (JSON.afterChar c s) as [r'|] eqn:E; [|done].
    intros H. apply IH in H. apply afterChar_length in E. lia.
Qed.

Lemma afterWord_shorter c word s r :
  JSON.afterWord (String c word) s = Some r → (String.length r < String.length s)%nat.
Proof.
  cbn. destruct (JSON.afterChar c s) as [r'|] eqn:E; [|done].
  intros H. apply afterWord_length in H. apply afterChar_length in E. lia.
Qed.

Lemma digitRun_length s acc len n len' r :
  JSON.digitRun s acc len = (n, len', r) →
  (String.length r ≤ String.length s)%nat
  ∧ (len' ≠ len → (String.length r < String.length s)%nat).
Proof.
  revert acc len. induction s as [|c s IH]; intros acc len; cbn.
  - intros [= <- <- <-]. split; [done|]. congruence.
  - destruct (JSON.isDigit c).
    + intros H. apply IH in H as [H1 H2]. split; lia.
    + intros [= <- <- <-]. split; [done|]. congruence.
Qed.

Lemma digits_length s acc n len r :
  JSON.digits s acc = Some (n, len, r) → (String.length r < String.length s)%nat.
Proof.
  unfold JSON.digits. destruct (JSON.digitRun s acc 0) as [[n' len'] r'] eqn:E.
  destruct (Z.eqb_spec len' 0); [done|]. intros [= <- <- <-].
  by apply (digitRun_length _ _ _ _ _ _ E).
Qed.

Lemma parseExponent_length s e r :
  JSON.parseExponent s = Some (e, r) → (String.length r ≤ String.length s)%nat.
Proof.
  unfold JSON.parseExponent. intros H.
  repeat match type of H with
  | context [JSON.afterChar ?c ?t] =>
      let E := fresh "E" in
      destruct (JSON.afterChar c t) eqn:E; [apply afterChar_length in E|]
  | context [JSON.digits ?t ?a] =>
      let E := fresh "E" in
      destruct (JSON.digits t a) as [[[? ?] ?]|] eqn:E; [apply digits_length in E|]
  end; simplify_eq; lia.
Qed.

Lemma parseNumberBody_length s d r :
  JSON.parseNumberBody s = Some (d, r) → (String.length r < String.length s)%nat.
Proof.
  unfold JSON.parseNumberBody, JSON.parseIntegerPart, JSON.parseFraction. intros H.
  repeat match type of H with
  | context [JSON.afterChar ?c ?t] =>
      let E := fresh "E" in
      destruct (JSON.afterChar c t) eqn:E; [apply afterChar_length in E|]
  | context [JSON.digits ?t ?a] =>
      let E := fresh "E" in
      destruct (JSON.digits t a) as [[[? ?] ?]|] eqn:E; [apply digits_length in E|]
  | context [JSON.parseExponent ?t] =>
      let E := fresh "E" in
      destruct (JSON.parseExponent t) as [[? ?]|] eqn:E; [apply parseExponent_length in E|]
  end; simplify_eq; lia.
Qed.

Lemma parseNumber_length s d r :
  JSON.parseNumber s = Some (d, r) → (String.length r < String.length s)%nat.
Proof.
  unfold JSON.parseNumber. destruct (JSON.afterChar "-" s) as [r'|] eqn:E.
  - apply afterChar_length in E.
    destruct (JSON.parseNumberBody r') as [[d' r'']|] eqn:E'; [|done].
    apply parseNumberBody_length in E'. intros [= <- <-]. lia.
  - apply parseNumberBody_length.
Qed.

Lemma prepend_Some text rest t r :
  JSON.prepend text rest = Some (t, r) → ∃ t', rest = Some (t', r).
Proof. destruct rest as [[t' r']|]; cbn; [|done]. intros [= <- <-]. eauto. Qed.

Lemma parseString_length s t r :
  JSON.parseString s = Some (t, r) → (String.length r < String.length s)%nat.
Proof.
  remember (String.length s) as n eqn:Hn. revert s t r Hn.
  induction n as [n IH] using lt_wf_ind. intros s t r -> H.
  destruct s as [|c s]; [done|]. cbn in H.
  destruct (Ascii.eqb c JSON.quote); [injection H as <- <-; cbn; lia|].
  destruct (Ascii.eqb c "\").
  - destruct s as [|e s]; cbn in H; [done|].
    destruct (JSON.escape e).
    + apply prepend_Some in H as [t' H].
      apply (IH (String.length s)) in H; cbn; [lia|lia|done].
    + destruct (Ascii.eqb e "u"); [|done].
      destruct s as [|h3 [|h2 [|h1 [|h0 s]]]]; cbn in H; try done.
      destruct (JSON.hexValue h3), (JSON.hexValue h2), (JSON.hexValue h1), (JSON.hexValue h0);
        try done.
      apply prepend_Some in H as [t' H].
      apply (IH (String.length s)) in H; cbn; [lia|lia|done].
  - destruct (Nat.leb _ _); [done|].
    apply prepend_Some in H as [t' H].
    apply (IH (String.length s)) in H; cbn; [lia|lia|done].
Qed.

Lemma parseValue_S fuel s :
  JSON.parseValue (S fuel) s
  = let s := JSON.skipSpace s in
    match JSON.afterChar "[" s with
    | Some r =>
        match JSON.afterChar "]" (JSON.skipSpace r) with
        | Some r' => Some (JSON.JArr [], r')
        | None =>
            match JSON.parseElements fuel r with
            | Some (l, r') => Some (JSON.JArr l, r')
            | None => None
            end
        end
    | None =>
    match JSON.afterChar "{" s with
    | Some r =>
        match JSON.afterChar "}" (JSON.skipSpace r) with
        | Some r' => Some (JSON.JObj [], r')
        | None =>
            match JSON.parseMembers fuel r with
            | Some (l, r') => Some (JSON.JObj l, r')
            | None => None
            end
        end
    | None =>
    match JSON.afterChar JSON.quote s with
    | Some r =>
        match JSON.parseString r with
        | Some (t, r') => Some (JSON.JStr t, r')
        | None => None
        end
    | None =>
    match JSON.afterWord "null" s with
    | Some r => Some (JSON.JNull, r)
    | None =>
    match JSON.afterWord "true" s with
    | Some r => Some (JSON.JBool true, r)
    | None =>
    match JSON.afterWord "false" s with
    | Some r => Some (JSON.JBool false, r)
    | None =>
    match JSON.parseNumber s with
    | Some (d, r) => Some (JSON.JNum d, r)
    | None => None
    end end end end end end end.
Proof. reflexivity. Qed.

Lemma parseElements_S fuel s :
  JSON.parseElements (S fuel) s
  = match JSON.parseValue fuel s with
    | None => None
    | Some (v, r) =>
        match JSON.afterChar "," (JSON.skipSpace r) with
        | Some r' =>
            match JSON.parseElements fuel r' with
            | Some (l, r'') => Some (v :: l, r'')
            | None => None
            end
        | None =>
            match JSON.afterChar "]" (JSON.skipSpace r) with
            | Some r' => Some ([v], r')
            | None => None
            end
        end
    end.
Proof. reflexivity. Qed.

Lemma parseMembers_S fuel s :
  JSON.parseMembers (S fuel) s
  = match JSON.afterChar JSON.quote (JSON.skipSpace s) with
    | None => None
    | Some r =>
        match JSON.parseString r with
        | None => None
        | Some (k, r1) =>
            match JSON.afterChar ":" (JSON.skipSpace r1) with
            | None => None
            | Some r2 =>
                match JSON.parseValue fuel r2 with
                | None => None
                | Some (v, r3) =>
                    match JSON.afterChar "," (JSON.skipSpace r3) with
                    | Some r4 =>
                        match JSON.parseMembers fuel r4 with
                        | Some (l, r5) => Some ((k, v) :: l, r5)
                        | None => None
                        end
                    | None =>
                        match JSON.afterChar "}" (JSON.skipSpace r3) with
                        | Some r4 => Some ([(k, v)], r4)
                        | None => None
                        end
                    end
                end
            end
        end
    end.
Proof. reflexivity. Qed.

(** Destruct the next test of the parser in [H], keeping its equation and
    what it says about lengths. *)
Ltac parser_step H :=
  match type of H with
  | context [JSON.afterChar ?c ?t] =>
      let E := fresh "E" in
      destruct (JSON.afterChar c t) eqn:E;
        [pose proof (afterChar_length _ _ _ E)|]
  | context [JSON.afterWord (String ?c ?w) ?t] =>
      let E := fresh "E" in
      destruct (JSON.afterWord (String c w) t) eqn:E;
        [pose proof (afterWord_shorter _ _ _ _ E)|]
  | context [JSON.parseString ?t] =>
      let E := fresh "E" in
      destruct (JSON.parseString t) as [[? ?]|] eqn:E;
        [pose proof (parseString_length _ _ _ E)|]
  | context [JSON.parseNumber ?t] =>
      let E := fresh "E" in
      destruct (JSON.parseNumber t) as [[? ?]|] eqn:E;
        [pose proof (parseNumber_length _ _ _ E)|]
  end.

Ltac skip_lengths :=
  repeat match goal with
  | |- context [JSON.skipSpace ?t] =>
      lazymatch goal with
      | _ : (String.length (JSON.skipSpace t) ≤ String.length t)%nat |- _ => fail
      | _ => pose proof (skipSpace_length t)
      end
  | _ : context [JSON.skipSpace ?t] |- _ =>
      lazymatch goal with
      | _ : (String.length (JSON.skipSpace t) ≤ String.length t)%nat |- _ => fail
      | _ => pose proof (skipSpace_length t)
      end
  end.

Ltac rec_step H IHv IHe IHm :=
  match type of H with
  | context [JSON.parseValue ?m ?t] =>
      let E := fresh "E" in
      destruct (JSON.parseValue m t) as [[? ?]|] eqn:E; [apply IHv in E as [? ?]|]
  | context [JSON.parseElements ?m ?t] =>
      let E := fresh "E" in
      destruct (JSON.parseElements m t) as [[? ?]|] eqn:E; [apply IHe in E as [? ?]|]
  | context [JSON.parseMembers ?m ?t] =>
      let E := fresh "E" in
      destruct (JSON.parseMembers m t) as [[? ?]|] eqn:E; [apply IHm in E as [? ?]|]
  end.

Ltac rewrite_known :=
  repeat match goal with
  | E : ?x = _ |- context [?x] => rewrite E
  | Hf : ∀ k, _ → ?f k ?t = _ |- context [?f ?k' ?t] => rewrite (Hf k') by lia
  end.

Ltac parse_done H unfolding :=
  injection H as <- <-; skip_lengths; (split; [lia|]);
  let k := fresh "k" in
  intros [|k] ?; [lia|]; rewrite unfolding; cbn zeta; rewrite_known; done.

Lemma parse_fuel m :
  (∀ s v r, JSON.parseValue m s = Some (v, r) →
     (String.length r < String.length s)%nat
     ∧ ∀ k, (2 * (String.length s - String.length r) - 1 ≤ k)%nat →
            JSON.parseValue k s = Some (v, r))
  ∧ (∀ s l r, JSON.parseElements m s = Some (l, r) →
     (String.length r < String.length s)%nat
     ∧ ∀ k, (2 * (String.length s - String.length r) - 2 ≤ k)%nat →
            JSON.parseElements k s = Some (l, r))
  ∧ (∀ s l r, JSON.parseMembers m s = Some (l, r) →
     (String.length r < String.length s)%nat
     ∧ ∀ k, (2 * (String.length s - String.length r) - 2 ≤ k)%nat →
            JSON.parseMembers k s = Some (l, r)).
Proof.
  induction m as [|m (IHv & IHe & IHm)]; [by repeat split|].
  split; [|split].
  - intros s v r H. rewrite parseValue_S in H. cbn zeta in H.
    repeat first [parser_step H | rec_step H IHv IHe IHm]; try done;
      parse_done H parseValue_S.
  - intros s l r H. rewrite parseElements_S in H.
    repeat first [parser_step H | rec_step H IHv IHe IHm]; try done;
      parse_done H parseElements_S.
  - intros s l r H. rewrite parseMembers_S in H.
    repeat first [parser_step H | rec_step H IHv IHe IHm]; try done;
      parse_done H parseMembers_S.
Qed.

(** Whatever fuel lets the parser read a value up to the end of the text,
    [JSON.parse] returns that value: its own fuel is enough. *)
Lemma parse_complete text fuel v r :
  JSON.parseValue fuel text = Some (v, r) → JSON.skipSpace r = "" →
  JSON.parse text = Some v.
Proof.
  intros H Hr. destruct (parse_fuel fuel) as (Hv & _ & _).
  apply Hv in H as [_ H]. unfold JSON.parse. rewrite H, Hr; [done|lia].
Qed.

(** ** Required columns *)

Lemma filter_column_NoDup (mk : string → ValidationError.t) (p : string → bool)
    (required : list string) (column : string) :
  (∀ c, ValidationError.column (mk c) = c) →
  NoDup required → column ∈ required → p column = true →
  List.filter (λ d, String.eqb (ValidationError.column d) column) (mk <$> List.filter p required)
  = [mk column].
Proof.
  intros Hmk Hnd Hin Hp.
  induction Hnd as [|c required Hc Hnd IH]; [by apply elem_of_nil in Hin|].
  apply elem_of_cons in Hin as [->|Hin]; cbn.
  - rewrite Hp. cbn. rewrite Hmk, String.eqb_refl. f_equal.
    apply filter_none, Forall_forall. intros d Hd.
    apply list_elem_of_fmap in Hd as (c' & -> & Hc').
    apply list_elem_of_In, List.filter_In in Hc' as [Hc' _].
    rewrite Hmk. apply String.eqb_neq. intros ->. by apply Hc, list_elem_of_In.
  - assert (c ≠ column) as Hne by (intros ->; done).
    destruct (p c); cbn; [|by apply IH].
    rewrite Hmk. destruct (String.eqb_spec c column); [done|]. by apply IH.
Qed.

Lemma requiredColumns_NoDup ty : NoDup (requiredColumns ty).
Proof. destruct ty; compute_done. Qed.

(** C2, as amended. For an entity with at least one row, the
    [missing_column] findings of [validateEntity] are exactly one error at
    row 1 for each column required by the entity's kind that is no key of
    the first row, in the order of the required columns; the rows after the
    first play no part. For an entity with zero rows there is no
    [missing_column] finding at all: [checkRequiredColumns] returns at
    once. *)
Theorem required_column_findings entity allEntities :
  List.filter (hasType "missing_column") (validateEntity entity allEntities)
  = match DataEntity.data entity with
    | [] => []
    | first :: _ =>
        (λ column, ValidationError.Build 1 column "missing_column"
                     ("Required column '" ++ column ++ "' is missing") error)
          <$> List.filter (λ column, bool_decide (first !! column = None))
                (requiredColumns (DataEntity.type entity))
    end
  ∧ ∀ first rest column,
      DataEntity.data entity = first :: rest →
      column ∈ requiredColumns (DataEntity.type entity) →
      first !! column = None →
      List.filter (λ d, hasType "missing_column" d
                        && String.eqb (ValidationError.column d) column)
        (validateEntity entity allEntities)
      = [ValidationError.Build 1 column "missing_column"
           ("Required column '" ++ column ++ "' is missing") error].
Proof.
  assert (H : List.filter (hasType "missing_column") (validateEntity entity allEntities)
              = missingColumnFindings entity (requiredColumns (DataEntity.type entity))).
  { rewrite validateEntity_blocks, checkRequiredColumns_spec, app_nil_l, List.filter_app.
    by rewrite missingColumnFindings_type, blocksFrom_no_missing_column, app_nil_r. }
  split; [exact H|].
  intros first rest column Hdata Hin Hnone.
  rewrite filter_andb, H. unfold missingColumnFindings. rewrite Hdata.
  apply (filter_column_NoDup
           (λ column, ValidationError.Build 1 column "missing_column"
                        ("Required column '" ++ column ++ "' is missing") error));
    [done|apply requiredColumns_NoDup|done|by apply bool_decide_eq_true].
Qed.

Lemma required_column_findings_witness :
  let first : Row := {[ "ClientID" := "C1"; "ClientName" := "Acme"; "PriorityLevel" := "3" ]} in
  let entity := DataEntity.Build "clients-1" clients [first; ∅] [] [] in
  List.filter (λ d, hasType "missing_column" d
                    && String.eqb (ValidationError.column d) "GroupTag")
    (validateEntity entity [entity])
  = [ValidationError.Build 1 "GroupTag" "missing_column"
       "Required column 'GroupTag' is missing" error].
Proof.
  intros first entity.
  apply (proj2 (required_column_findings entity [entity]) first [∅] "GroupTag").
  - reflexivity.
  - compute_done.
  - reflexivity.
Defined.

(** C2 as stated fails on an entity without rows: every required column is
    absent, and no [missing_column] error is produced. *)
Lemma required_columns_zero_rows_counterexample :
  let entity := DataEntity.Build "clients-1" clients [] [] [] in
  "ClientID" ∈ requiredColumns (DataEntity.type entity)
  ∧ DataEntity.data entity = []
  ∧ checkRequiredColumns entity (requiredColumns clients) [] = []
  ∧ ¬ ∃ d, d ∈ validateEntity entity [entity] ∧ ValidationError.type d = "missing_column".
Proof.
  cbn zeta. split; [compute_done|]. split; [done|]. split; [done|].
  intros (d & Hd & _). vm_compute in Hd. by apply elem_of_nil in Hd.
Qed.

(** ** Determinism and order *)

(** C4, as amended. [validateEntity] keeps no state between calls: its
    [errors] array and [seenIds] set are created by each call, so two calls
    on the same entity and entity list return the same sequence. That
    sequence is the required-column findings (all at row 1) followed by the
    findings of the rows in row order, and within a row in the order in
    which the validator of the entity's kind runs its checks ([checkOrder]):
    the ID checks; then for a client the priority, the attributes and the
    task references; for a worker the slots (a malformed list, or else an
    overload) and then the load; for a task the duration, the concurrency,
    the skill coverage, the concurrency feasibility and then the preferred
    phases. *)
Theorem validateEntity_deterministic entity allEntities ds1 ds2 :
  ds1 = validateEntity entity allEntities →
  ds2 = validateEntity entity allEntities →
  ds1 = ds2
  ∧ ∃ header body,
      ds1 = (header ++ body)%list
      ∧ Forall (λ d, ValidationError.row d = 1 ∧ ValidationError.type d = "missing_column") header
      ∧ StronglySorted (precedes (DataEntity.type entity)) body
      ∧ Forall (λ d, (1 ≤ ValidationError.row d ≤ length (DataEntity.data entity))%nat
                     ∧ (rank (DataEntity.type entity) d
                        < length (checkOrder (DataEntity.type entity)))%nat) body.
Proof.
  intros -> ->. split; [done|].
  exists (missingColumnFindings entity (requiredColumns (DataEntity.type entity))),
         (blocksFrom (DataEntity.type entity) allEntities ∅ 0 (DataEntity.data entity)).
  split; [by rewrite validateEntity_blocks, checkRequiredColumns_spec|].
  split.
  { unfold missingColumnFindings. destruct (DataEntity.data entity); [constructor|].
    apply Forall_fmap, Forall_forall. by intros c _. }
  destruct (blocksFrom_sorted (DataEntity.type entity) allEntities (DataEntity.data entity) ∅ 0)
    as [Hs Hf].
  split; [done|].
  apply Forall_and. split.
  { eapply Forall_impl; [exact Hf|]. intros d Hd. cbn in Hd. lia. }
  clear. generalize (∅ : gset (option string)) 0.
  induction (DataEntity.data entity) as [|row rows IH]; intros seen index; cbn; [constructor|].
  apply Forall_app. split; [|apply IH].
  destruct (rowFindings_ranked (DataEntity.type entity) allEntities seen index row) as [_ Hr].
  eapply Forall_impl; [exact Hr|]. intros d [_ Hd].
  destruct (DataEntity.type entity); cbn in *; lia.
Qed.

Lemma validateEntity_deterministic_witness :
  let entity :=
    DataEntity.Build "workers-1" workers
      [ {[ "WorkerID" := "W1"; "AvailableSlots" := "[1]"; "MaxLoadPerPhase" := "3" ]};
        {[ "WorkerID" := "W1"; "AvailableSlots" := "1,2"; "MaxLoadPerPhase" := "0" ]} ] [] [] in
  validateEntity entity [entity] = validateEntity entity [entity]
  ∧ length (validateEntity entity [entity]) = 6.
Proof.
  intros entity.
  split; [|vm_compute; reflexivity].
  exact (proj1 (validateEntity_deterministic entity [entity] _ _ eq_refl eq_refl)).
Defined.

(** C4 as stated fails on the order within a row. The specification
    enumerates the numeric-range checks before the encoded-structure
    checks, and those before the capacity and skill checks. The worker
    validator checks the slots before the load: a row with malformed
    slots and a load of 0 gets [malformed_list] before [invalid_range].
    The task validator checks the preferred phases last: a row with an
    uncovered skill and malformed phases gets [skill_coverage] and
    [max_concurrency_feasibility] before [malformed_list]. Neither
    sequence is in the order of the enumeration ([specEnumerated]). *)
Lemma enumeration_order_counterexample :
  let worker : Row :=
    {[ "WorkerID" := "W1"; "WorkerName" := "Ann"; "Skills" := "go";
       "AvailableSlots" := "1,2"; "MaxLoadPerPhase" := "0" ]} in
  let task : Row :=
    {[ "TaskID" := "T1"; "TaskName" := "Build"; "Duration" := "2"; "RequiredSkills" := "rust";
       "MaxConcurrent" := "1"; "PreferredPhases" := "1-3" ]} in
  let workersEntity := DataEntity.Build "workers-1" workers [worker] [] [] in
  let tasksEntity := DataEntity.Build "tasks-1" tasks [task] [] [] in
  (ValidationError.type <$> validateEntity workersEntity [workersEntity; tasksEntity]
   = ["malformed_list"; "invalid_range"]
   ∧ ¬ StronglySorted specEnumerated (validateEntity workersEntity [workersEntity; tasksEntity]))
  ∧ (ValidationError.type <$> validateEntity tasksEntity [workersEntity; tasksEntity]
     = ["skill_coverage"; "max_concurrency_feasibility"; "malformed_list"]
     ∧ ¬ StronglySorted specEnumerated (validateEntity tasksEntity [workersEntity; tasksEntity])).
Proof.
  cbn zeta. split; (split; [vm_compute; reflexivity|]); intros Hsorted.
  - apply StronglySorted_inv in Hsorted as [_ Hfirst].
    apply Forall_inv in Hfirst. vm_compute in Hfirst. lia.
  - apply StronglySorted_inv in Hsorted as [_ Hfirst].
    apply Forall_inv_tail, Forall_inv in Hfirst. vm_compute in Hfirst. lia.
Qed.

(** ** Identity checks *)

Lemma rowFindings_duplicate_id ty allEntities seen index row :
  List.filter (hasType "duplicate_id") (rowFindings ty allEntities seen index row)
  = if has seen (row !! idColumn ty) then
      [ValidationError.Build (index + 1) (idColumn ty) "duplicate_id"
         ("Duplicate " ++ idColumn ty ++ ": " ++ default "undefined" (row !! idColumn ty)) error]
    else [].
Proof.
  unfold rowFindings.
  rewrite List.filter_app, laterFindings_no_duplicate_id, app_nil_r, checkId_found.
  by destruct (has seen (row !! idColumn ty)), (JS.truthy (row !! idColumn ty)).
Qed.

Lemma rowFindings_missing_value ty allEntities seen index row :
  List.filter (hasType "missing_value") (rowFindings ty allEntities seen index row)
  = if JS.truthy (row !! idColumn ty) then []
    else [ValidationError.Build (index + 1) (idColumn ty) "missing_value"
            (idColumn ty ++ " is required") error].
Proof.
  unfold rowFindings.
  rewrite List.filter_app, laterFindings_no_missing_value, app_nil_r, checkId_found.
  by destruct (has seen (row !! idColumn ty)), (JS.truthy (row !! idColumn ty)).
Qed.

Lemma blocksFrom_duplicate_rows ty allEntities rows seen earlier index :
  seenOk seen earlier →
  ValidationError.row
    <$> List.filter (hasType "duplicate_id") (blocksFrom ty allEntities seen index rows)
  = duplicateRowsFrom earlier index ((λ row : Row, row !! idColumn ty) <$> rows).
Proof.
  revert seen earlier index.
  induction rows as [|row rows IH]; intros seen earlier index Hok; cbn; [done|].
  rewrite List.filter_app, fmap_app, rowFindings_duplicate_id.
  rewrite (IH _ (earlier ++ [row !! idColumn ty])%list) by by apply seenOk_next.
  f_equal. rewrite (seenOk_has _ _ _ Hok).
  by destruct (JS.truthy (row !! idColumn ty) && bool_decide (row !! idColumn ty ∈ earlier)).
Qed.

(** The rows [duplicateRows] lists are those whose ID cell is not empty
    and occurs on an earlier row. *)
Lemma duplicateRowsFrom_spec earlier index ids n :
  n ∈ duplicateRowsFrom earlier index ids
  ↔ ∃ j v, n = (index + j + 1)%nat ∧ ids !! j = Some v ∧ JS.truthy v = true
           ∧ v ∈ (earlier ++ take j ids)%list.
Proof.
  revert earlier index. induction ids as [|v ids IH]; intros earlier index; cbn.
  - split; [by intros ?%elem_of_nil|]. by intros (j & w & _ & ? & _).
  - rewrite elem_of_app, IH. split.
    + intros [Hn|(j & w & -> & Hj & Ht & Hin)].
      * destruct (JS.truthy v) eqn:Et; cbn in Hn; [|by apply elem_of_nil in Hn].
        destruct (decide (v ∈ earlier)) as [Hv|Hv].
        -- rewrite bool_decide_eq_true_2 in Hn by done.
           apply list_elem_of_singleton in Hn as ->.
           exists 0, v. cbn. rewrite app_nil_r. repeat split; [lia|done..].
        -- rewrite bool_decide_eq_false_2 in Hn by done. by apply elem_of_nil in Hn.
      * exists (S j), w. cbn. rewrite <- app_assoc in Hin. repeat split; [lia|done..].
    + intros (j & w & -> & Hj & Ht & Hin). destruct j as [|j]; cbn in *.
      * injection Hj as ->. rewrite app_nil_r in Hin. left.
        rewrite Ht, bool_decide_eq_true_2 by done. cbn.
        apply list_elem_of_singleton. lia.
      * right. exists j, w. rewrite <- app_assoc. repeat split; [lia|done..].
Qed.

(** C6. For an entity of any kind, [validateEntity] reports [duplicate_id]
    on exactly the rows whose ID cell repeats the (non-empty) ID cell of an
    earlier row, one finding for each such row, in row order: the seen set
    is keyed by the raw cell value. In particular, rows with the IDs
    [A, B, A] (A not empty, B another value) give exactly one
    [duplicate_id] finding, at row 3. *)
Theorem duplicate_id_rows entity allEntities :
  (ValidationError.row
     <$> List.filter (hasType "duplicate_id") (validateEntity entity allEntities)
   = duplicateRows (idCells entity))
  ∧ (∀ n, n ∈ duplicateRows (idCells entity)
          ↔ ∃ j v, n = (j + 1)%nat ∧ idCells entity !! j = Some v ∧ JS.truthy v = true
                   ∧ v ∈ take j (idCells entity))
  ∧ (∀ A B, idCells entity = [A; B; A] → JS.truthy A = true → A ≠ B →
       ∃ d, List.filter (hasType "duplicate_id") (validateEntity entity allEntities) = [d]
            ∧ ValidationError.row d = 3).
Proof.
  assert (H : ValidationError.row
                <$> List.filter (hasType "duplicate_id") (validateEntity entity allEntities)
              = duplicateRows (idCells entity)).
  { rewrite validateEntity_blocks, checkRequiredColumns_spec, app_nil_l, List.filter_app.
    rewrite missingColumnFindings_other by done.
    apply (blocksFrom_duplicate_rows _ _ _ ∅ [] 0), seenOk_empty. }
  split; [exact H|]. split.
  - intros n. unfold duplicateRows. rewrite duplicateRowsFrom_spec. by cbn.
  - intros A B Hids HA HAB. rewrite Hids in H.
    unfold duplicateRows in H. cbn in H. rewrite HA in H.
    rewrite (bool_decide_eq_false_2 (A ∈ [])) in H by by intros ?%elem_of_nil.
    rewrite (bool_decide_eq_true_2 (A ∈ [A; B])) in H by by left.
    rewrite andb_false_r in H. cbn in H.
    assert (JS.truthy B && bool_decide (B ∈ [A]) = false) as HB.
    { apply andb_false_iff. right. apply bool_decide_eq_false.
      intros ?%list_elem_of_singleton. congruence. }
    rewrite HB in H. cbn in H.
    destruct (List.filter _ _) as [|d [|d' l]]; cbn in H; try discriminate.
    exists d. split; [done|]. by injection H.
Qed.

Lemma duplicate_id_rows_witness :
  let entity :=
    DataEntity.Build "clients-1" clients
      [ {[ "ClientID" := "A"; "PriorityLevel" := "1" ]};
        {[ "ClientID" := "B"; "PriorityLevel" := "2" ]};
        {[ "ClientID" := "A"; "PriorityLevel" := "3" ]} ] [] [] in
  ∃ d, List.filter (hasType "duplicate_id") (validateEntity entity [entity]) = [d]
       ∧ ValidationError.row d = 3.
Proof.
  intros entity.
  apply (proj2 (proj2 (duplicate_id_rows entity [entity])) (Some "A") (Some "B")).
  - reflexivity.
  - reflexivity.
  - discriminate.
Defined.

(** C9. On a row whose ID cell is empty or absent, [validateEntity] (for
    any kind) reports exactly one [missing_value] error and no
    [duplicate_id] error, however many earlier rows have an empty ID too:
    only non-empty IDs enter the seen set. On a row whose ID cell is not
    empty there is no [missing_value] error, so no row carries both
    findings. *)
Theorem empty_id_findings entity allEntities j row :
  DataEntity.data entity !! j = Some row →
  let idc := idColumn (DataEntity.type entity) in
  let at_row kind :=
    List.filter (λ d, atRow (j + 1) d && hasType kind d) (validateEntity entity allEntities) in
  (JS.truthy (row !! idc) = false →
     at_row "missing_value"
     = [ValidationError.Build (j + 1) idc "missing_value" (idc ++ " is required") error]
     ∧ at_row "duplicate_id" = [])
  ∧ (JS.truthy (row !! idc) = true → at_row "missing_value" = [])
  ∧ (at_row "missing_value" = [] ∨ at_row "duplicate_id" = []).
Proof.
  intros Hj idc at_row. subst at_row. cbn beta.
  rewrite !(validateEntity_at_row _ _ _ _ _ Hj) by done.
  rewrite rowFindings_missing_value, rowFindings_duplicate_id. fold idc.
  pose proof (seenOk_foldl idc (take j (DataEntity.data entity)) ∅ [] seenOk_empty) as Hok.
  rewrite (seenOk_has _ _ _ Hok).
  destruct (JS.truthy (row !! idc)); cbn; repeat split; auto; discriminate.
Qed.

Lemma empty_id_findings_witness :
  let entity :=
    DataEntity.Build "workers-1" workers
      [ {[ "WorkerID" := ""; "MaxLoadPerPhase" := "1" ]};
        {[ "WorkerName" := "no id"; "MaxLoadPerPhase" := "1" ]};
        {[ "WorkerID" := ""; "MaxLoadPerPhase" := "1" ]} ] [] [] in
  List.filter (λ d, atRow 3 d && hasType "missing_value" d) (validateEntity entity [entity])
  = [ValidationError.Build 3 "WorkerID" "missing_value" "WorkerID is required" error]
  ∧ List.filter (λ d, atRow 3 d && hasType "duplicate_id" d) (validateEntity entity [entity]) = [].
Proof.
  intros entity.
  apply (proj1 (empty_id_findings entity [entity] 2
                  {[ "WorkerID" := ""; "MaxLoadPerPhase" := "1" ]} eq_refl)).
  reflexivity.
Defined.

(** ** Cross references *)

Lemma laterFindings_unknown_reference allEntities rowNum row text :
  row !! "RequestedTaskIDs" = Some text → text ≠ "" →
  List.filter (hasType "unknown_reference") (laterFindings clients allEntities rowNum row)
  = (λ taskId, ValidationError.Build rowNum "RequestedTaskIDs" "unknown_reference"
                 ("Unknown TaskID reference: " ++ taskId) error)
      <$> List.filter (λ taskId, negb (bool_decide (Some taskId ∈ taskIdCells allEntities)))
            (JS.trim <$> JS.split "," text).
Proof.
  intros Hrow Htext. cbn [laterFindings]. rewrite !List.filter_app.
  rewrite (ranked_filter_type clients rowNum 2 2 _ "unknown_reference"
             (checkPriorityLevel_ranked rowNum row)); [|cbn; lia|cbn; solve_no_rank].
  rewrite (ranked_filter_type clients rowNum 3 3 _ "unknown_reference"
             (checkAttributesJSON_ranked rowNum row)); [|cbn; lia|cbn; solve_no_rank].
  cbn [app]. unfold found, checkRequestedTaskIDs. rewrite Hrow.
  destruct text as [|c text]; [done|].
  rewrite foldl_push. cbn [errors pushAll app].
  rewrite filter_fmap_all by done. f_equal.
  apply List.filter_ext. intros taskId. f_equal.
  rewrite has_elem_of. apply bool_decide_ext, elem_of_list_to_set.
Qed.

(** C7. On a client row whose RequestedTaskIDs cell is not empty, the
    [unknown_reference] errors are, token by token of the cell split at the
    commas and trimmed of its white space (that of ASCII and that beyond),
    one error naming the token for each token that is not the TaskID cell
    of a row of the tasks collection (the first tasks entity, none when
    there is no tasks entity). *)
Theorem unknown_reference_findings entity allEntities j row text :
  DataEntity.type entity = clients →
  DataEntity.data entity !! j = Some row →
  row !! "RequestedTaskIDs" = Some text →
  text ≠ "" →
  List.filter (λ d, atRow (j + 1) d && hasType "unknown_reference" d)
    (validateEntity entity allEntities)
  = (λ taskId, ValidationError.Build (j + 1) "RequestedTaskIDs" "unknown_reference"
                 ("Unknown TaskID reference: " ++ taskId) error)
      <$> List.filter (λ taskId, negb (bool_decide (Some taskId ∈ taskIdCells allEntities)))
            (JS.trim <$> JS.split "," text).
Proof.
  intros Hty Hj Hrow Htext.
  rewrite (validateEntity_at_row _ _ _ _ _ Hj) by done.
  rewrite Hty. unfold rowFindings. rewrite List.filter_app.
  rewrite (ranked_filter_type clients (j + 1) 0 1 _ "unknown_reference"
             (checkId_ranked clients (j + 1) row _)); [|cbn; lia|cbn; solve_no_rank].
  cbn [app]. by apply laterFindings_unknown_reference.
Qed.

Lemma unknown_reference_findings_witness :
  let client : Row := {[ "ClientID" := "C1"; "PriorityLevel" := "2"; "RequestedTaskIDs" := "T1,T9" ]} in
  let clientsEntity := DataEntity.Build "clients-1" clients [client] [] [] in
  let tasksEntity :=
    DataEntity.Build "tasks-1" tasks [ {[ "TaskID" := "T1"; "Duration" := "1" ]} ] [] [] in
  List.filter (λ d, atRow 1 d && hasType "unknown_reference" d)
    (validateEntity clientsEntity [clientsEntity; tasksEntity])
  = [ValidationError.Build 1 "RequestedTaskIDs" "unknown_reference"
       "Unknown TaskID reference: T9" error].
Proof.
  intros client clientsEntity tasksEntity.
  apply (unknown_reference_findings clientsEntity [clientsEntity; tasksEntity] 0 client "T1,T9").
  - reflexivity.
  - reflexivity.
  - reflexivity.
  - discriminate.
Defined.

(** A token set off by a no-break space is trimmed like any other. *)
Example unknown_reference_no_break_space :
  let client : Row :=
    {[ "ClientID" := "C1"; "PriorityLevel" := "2";
       "RequestedTaskIDs" := "T1," ++ noBreakSpace ++ "T2" ]} in
  let clientsEntity := DataEntity.Build "clients-1" clients [client] [] [] in
  let tasksEntity :=
    DataEntity.Build "tasks-1" tasks
      [ {[ "TaskID" := "T1"; "Duration" := "1" ]}; {[ "TaskID" := "T2"; "Duration" := "1" ]} ]
      [] [] in
  List.filter (hasType "unknown_reference")
    (validateEntity clientsEntity [clientsEntity; tasksEntity]) = [].
Proof. vm_compute. reflexivity. Qed.

(** ** Phase-slot saturation *)

Lemma entityOf_None ty allEntities :
  Forall (λ e, DataEntity.type e ≠ ty) allEntities → entityOf ty allEntities = None.
Proof.
  unfold entityOf. induction 1 as [|e l He _ IH]; cbn; [done|].
  by rewrite bool_decide_eq_false_2.
Qed.

(** C10. When the entity list holds no tasks entity, or no workers entity,
    [validatePhaseSlotSaturation] returns the empty sequence. *)
Theorem validatePhaseSlotSaturation_needs_both allEntities :
  Forall (λ e, DataEntity.type e ≠ tasks) allEntities
  ∨ Forall (λ e, DataEntity.type e ≠ workers) allEntities →
  validatePhaseSlotSaturation allEntities = [].
Proof.
  intros [H|H]; apply entityOf_None in H; unfold entityOf in H;
    unfold validatePhaseSlotSaturation; rewrite H; [done|].
  by case_match.
Qed.

Lemma validatePhaseSlotSaturation_needs_both_witness :
  let tasksEntity :=
    DataEntity.Build "tasks-1" tasks
      [ {[ "TaskID" := "T1"; "Duration" := "5"; "PreferredPhases" := "[2]" ]} ] [] [] in
  validatePhaseSlotSaturation [tasksEntity] = [].
Proof.
  intros tasksEntity. apply validatePhaseSlotSaturation_needs_both.
  right. repeat constructor. discriminate.
Defined.

Lemma taskDemand_errors acc index task :
  ∃ more, snd (taskDemand acc index task) = (snd acc ++ more)%list.
Proof.
  destruct acc as [t errs]. unfold taskDemand.
  repeat case_match; cbn; eauto using app_nil_r.
  all: exists []; by rewrite app_nil_r.
Qed.

Lemma forEachFrom_taskDemand_errors rows index acc :
  ∃ more, snd (forEachFrom taskDemand index rows acc) = (snd acc ++ more)%list.
Proof.
  revert index acc. induction rows as [|task rows IH]; intros index acc; cbn.
  - exists []. by rewrite app_nil_r.
  - destruct (IH (S index) (taskDemand acc index task)) as [more1 H1].
    destruct (taskDemand_errors acc index task) as [more2 H2].
    exists (more2 ++ more1)%list. by rewrite H1, H2, <- app_assoc.
Qed.

Lemma taskDemand_malformed acc index task text :
  task !! "PreferredPhases" = Some text → text ≠ "" →
  JS.truthy (task !! "Duration") = true →
  (∀ phases, JSON.parse text ≠ Some (JSON.JArr phases)) →
  snd (taskDemand acc index task)
  = (snd acc
       ++ [ValidationError.Build (index + 1) "PreferredPhases" "phase_slot_saturation"
             "Cannot calculate phase demand due to malformed PreferredPhases" warning])%list.
Proof.
  intros Htext Hne Hdur Hparse. destruct acc as [t errs]. unfold taskDemand.
  rewrite Htext, Hdur. destruct text as [|c text]; [done|].
  unfold tryAccumulate.
  destruct (JSON.parse (String c text)) as [[]|] eqn:E; try done.
  by destruct (Hparse elements).
Qed.

Lemma forEachFrom_taskDemand_malformed rows index acc j task text :
  rows !! j = Some task →
  task !! "PreferredPhases" = Some text → text ≠ "" →
  JS.truthy (task !! "Duration") = true →
  (∀ phases, JSON.parse text ≠ Some (JSON.JArr phases)) →
  ValidationError.Build (index + j + 1) "PreferredPhases" "phase_slot_saturation"
    "Cannot calculate phase demand due to malformed PreferredPhases" warning
  ∈ snd (forEachFrom taskDemand index rows acc).
Proof.
  revert index acc j. induction rows as [|r rows IH]; intros index acc j Hj; [done|].
  intros Htext Hne Hdur Hparse. destruct j as [|j]; cbn in Hj |- *.
  - injection Hj as ->.
    destruct (forEachFrom_taskDemand_errors rows (S index) (taskDemand acc index task))
      as [more ->].
    rewrite (taskDemand_malformed _ _ _ _ Htext Hne Hdur Hparse), Nat.add_0_r.
    apply elem_of_app. left. apply elem_of_app. right. by left.
  - replace (index + S j + 1)%nat with (S index + j + 1)%nat by lia. by apply IH.
Qed.

Lemma foldl_checkSaturation capacity demand errs phaseKeys :
  ∃ more, foldl (checkSaturation capacity demand) errs phaseKeys = (errs ++ more)%list.
Proof.
  revert errs. induction phaseKeys as [|k phaseKeys IH]; intros errs; cbn.
  - exists []. by rewrite app_nil_r.
  - destruct (IH (checkSaturation capacity demand errs k)) as [more ->].
    unfold checkSaturation. repeat case_match.
    + rewrite <- app_assoc. eauto.
    + eauto.
    + eauto.
Qed.

(** C3, as amended. Given both a tasks and a workers entity, a row of
    the first tasks entity of the list, the one [find] returns and the
    only one the analysis reads, whose PreferredPhases and Duration cells
    are both non-empty and whose PreferredPhases text is not valid JSON,
    or is JSON for something other than an array, gets a
    [phase_slot_saturation] warning at its own row number. *)
Theorem malformed_phases_warning allEntities tasksEntity workersEntity j task text :
  entityOf tasks allEntities = Some tasksEntity →
  entityOf workers allEntities = Some workersEntity →
  DataEntity.data tasksEntity !! j = Some task →
  task !! "PreferredPhases" = Some text →
  text ≠ "" →
  JS.truthy (task !! "Duration") = true →
  (∀ phases, JSON.parse text ≠ Some (JSON.JArr phases)) →
  ValidationError.Build (j + 1) "PreferredPhases" "phase_slot_saturation"
    "Cannot calculate phase demand due to malformed PreferredPhases" warning
  ∈ validatePhaseSlotSaturation allEntities.
Proof.
  intros Ht Hw Hj Htext Hne Hdur Hparse.
  unfold entityOf in Ht, Hw. unfold validatePhaseSlotSaturation. rewrite Ht, Hw.
  pose proof (forEachFrom_taskDemand_malformed (DataEntity.data tasksEntity) 0 ([], []) j task
                text Hj Htext Hne Hdur Hparse) as Hin.
  unfold forEach. destruct (forEachFrom taskDemand 0 _ _) as [phaseDemand errs]. cbn in Hin.
  destruct (foldl_checkSaturation
              (forEachFrom workerCapacity 0 (DataEntity.data workersEntity) [])
              phaseDemand errs (ownKeys phaseDemand)) as [more ->].
  apply elem_of_app. by left.
Qed.

Lemma malformed_phases_warning_witness :
  let task : Row := {[ "TaskID" := "T2"; "Duration" := "3"; "PreferredPhases" := "1;2" ]} in
  let tasksEntity :=
    DataEntity.Build "tasks-1" tasks
      [ {[ "TaskID" := "T1"; "Duration" := "1"; "PreferredPhases" := "[1]" ]}; task ] [] [] in
  let workersEntity :=
    DataEntity.Build "workers-1" workers
      [ {[ "WorkerID" := "W1"; "AvailableSlots" := "[1]"; "MaxLoadPerPhase" := "1" ]} ] [] [] in
  ValidationError.Build 2 "PreferredPhases" "phase_slot_saturation"
    "Cannot calculate phase demand due to malformed PreferredPhases" warning
  ∈ validatePhaseSlotSaturation [tasksEntity; workersEntity].
Proof.
  intros task tasksEntity workersEntity.
  apply (malformed_phases_warning [tasksEntity; workersEntity] tasksEntity workersEntity 1 task
           "1;2").
  - reflexivity.
  - reflexivity.
  - reflexivity.
  - reflexivity.
  - discriminate.
  - reflexivity.
  - intros phases. vm_compute. discriminate.
Defined.

(** C3 as stated fails in four ways: a task without a Duration cell is
    skipped whatever its PreferredPhases; an array that holds something
    other than positive integers is accepted without a warning; without
    a workers entity nothing is reported at all; and of two tasks entities
    only the first is read, so that a malformed row of the second is
    skipped. In each case the PreferredPhases cell is present and is no
    JSON array of positive integers ([parsePhaseList] fails), and no
    [phase_slot_saturation] warning lies at the task's row. *)
Lemma malformed_phases_skipped_counterexample :
  let workersEntity :=
    DataEntity.Build "workers-1" workers
      [ {[ "WorkerID" := "W1"; "AvailableSlots" := "[0,1]"; "MaxLoadPerPhase" := "1" ]} ] [] [] in
  let noDuration :=
    DataEntity.Build "tasks-1" tasks
      [ {[ "TaskID" := "T1"; "PreferredPhases" := "not json" ]} ] [] [] in
  let zeroPhase :=
    DataEntity.Build "tasks-2" tasks
      [ {[ "TaskID" := "T1"; "Duration" := "1"; "PreferredPhases" := "[1]" ]};
        {[ "TaskID" := "T2"; "Duration" := "1"; "PreferredPhases" := "[0]" ]} ] [] [] in
  let alone :=
    DataEntity.Build "tasks-3" tasks
      [ {[ "TaskID" := "T1"; "Duration" := "2"; "PreferredPhases" := "not json" ]} ] [] [] in
  let earlier :=
    DataEntity.Build "tasks-4" tasks
      [ {[ "TaskID" := "T0"; "Duration" := "1"; "PreferredPhases" := "[1]" ]} ] [] [] in
  (parsePhaseList "not json" = None
   ∧ validatePhaseSlotSaturation [noDuration; workersEntity] = [])
  ∧ (parsePhaseList "[0]" = None
     ∧ validatePhaseSlotSaturation [zeroPhase; workersEntity] = [])
  ∧ validatePhaseSlotSaturation [alone] = []
  ∧ validatePhaseSlotSaturation [earlier; alone; workersEntity] = [].
Proof. vm_compute. repeat split. Qed.

(** ** The upload pipeline *)

Lemma pushOntoTasks_lookup phaseSlotErrors entities i e' :
  FileUpload.pushOntoTasks phaseSlotErrors entities !! i = Some e' →
  ∃ e, entities !! i = Some e
       ∧ DataEntity.id e' = DataEntity.id e
       ∧ ((DataEntity.errors e' = DataEntity.errors e
           ∧ DataEntity.warnings e' = DataEntity.warnings e)
          ∨ (DataEntity.errors e'
             = (DataEntity.errors e ++ List.filter FileUpload.isError phaseSlotErrors)%list
             ∧ DataEntity.warnings e'
               = (DataEntity.warnings e ++ List.filter FileUpload.isWarning phaseSlotErrors)%list)).
Proof.
  revert i. induction entities as [|e entities IH]; intros i; cbn; [done|].
  destruct (bool_decide (DataEntity.type e = tasks)).
  - destruct i as [|i]; cbn.
    + intros [= <-]. exists e. cbn. auto.
    + intros H. exists e'. auto.
  - destruct i as [|i]; cbn.
    + intros [= <-]. exists e. auto.
    + apply IH.
Qed.

Lemma severity_partition (stream : list ValidationError.t) :
  Forall (λ d, ValidationError.severity d = error) (List.filter FileUpload.isError stream)
  ∧ Forall (λ d, ValidationError.severity d = warning) (List.filter FileUpload.isWarning stream)
  ∧ ∀ d, d ∈ stream →
         (d ∈ List.filter FileUpload.isError stream
          ∧ d ∉ List.filter FileUpload.isWarning stream)
         ∨ (d ∈ List.filter FileUpload.isWarning stream
            ∧ d ∉ List.filter FileUpload.isError stream).
Proof.
  assert (He : ∀ d, d ∈ List.filter FileUpload.isError stream
                    ↔ d ∈ stream ∧ ValidationError.severity d = error).
  { intros d. rewrite !list_elem_of_In, List.filter_In. unfold FileUpload.isError.
    by rewrite bool_decide_eq_true. }
  assert (Hw : ∀ d, d ∈ List.filter FileUpload.isWarning stream
                    ↔ d ∈ stream ∧ ValidationError.severity d = warning).
  { intros d. rewrite !list_elem_of_In, List.filter_In. unfold FileUpload.isWarning.
    by rewrite bool_decide_eq_true. }
  split; [|split].
  - apply Forall_forall. intros d Hd. by apply He in Hd as [_ ?].
  - apply Forall_forall. intros d Hd. by apply Hw in Hd as [_ ?].
  - intros d Hd. rewrite He, Hw.
    destruct (ValidationError.severity d) eqn:E; [left|right];
      (split; [done|]); intros [_ ?]; congruence.
Qed.

(** C5. Every entity that [onDrop] hands on carries one stream of
    findings, its own [validateEntity] findings, followed for the first
    tasks entity by the saturation findings; its [errors] are the findings
    of the stream with severity [error], its [warnings] those with severity
    [warning], in stream order. So every finding of the stream lies in
    exactly one of the two sequences, the one its severity names, and no
    finding lies in both. *)
Theorem onDrop_partition uploadedEntities i entity' :
  FileUpload.onDrop uploadedEntities !! i = Some entity' →
  ∃ entity stream,
    uploadedEntities !! i = Some entity
    ∧ (stream = validateEntity entity uploadedEntities
       ∨ stream
         = (validateEntity entity uploadedEntities
              ++ validatePhaseSlotSaturation
                   (FileUpload.validated uploadedEntities <$> uploadedEntities))%list)
    ∧ DataEntity.errors entity' = List.filter FileUpload.isError stream
    ∧ DataEntity.warnings entity' = List.filter FileUpload.isWarning stream
    ∧ Forall (λ d, ValidationError.severity d = error) (DataEntity.errors entity')
    ∧ Forall (λ d, ValidationError.severity d = warning) (DataEntity.warnings entity')
    ∧ (∀ d, d ∈ stream →
            (d ∈ DataEntity.errors entity' ∧ d ∉ DataEntity.warnings entity')
            ∨ (d ∈ DataEntity.warnings entity' ∧ d ∉ DataEntity.errors entity'))
    ∧ (∀ d, ¬ (d ∈ DataEntity.errors entity' ∧ d ∈ DataEntity.warnings entity')).
Proof.
  intros Hi.
  assert (∃ entity stream,
            uploadedEntities !! i = Some entity
            ∧ (stream = validateEntity entity uploadedEntities
               ∨ stream
                 = (validateEntity entity uploadedEntities
                      ++ validatePhaseSlotSaturation
                           (FileUpload.validated uploadedEntities <$> uploadedEntities))%list)
            ∧ DataEntity.errors entity' = List.filter FileUpload.isError stream
            ∧ DataEntity.warnings entity' = List.filter FileUpload.isWarning stream)
    as (entity & stream & Hup & Hstream & Herr & Hwarn).
  { unfold FileUpload.onDrop in Hi.
    destruct (0 <? length _)%nat.
    - apply pushOntoTasks_lookup in Hi as (e & He & _ & Hcases).
      rewrite list_lookup_fmap in He.
      destruct (uploadedEntities !! i) as [entity|] eqn:Hup; [|done].
      injection He as <-. cbn in Hcases. exists entity.
      destruct Hcases as [[-> ->]|[-> ->]].
      + exists (validateEntity entity uploadedEntities). auto.
      + eexists. split; [done|]. split; [right; reflexivity|].
        by rewrite !List.filter_app.
    - rewrite list_lookup_fmap in Hi.
      destruct (uploadedEntities !! i) as [entity|] eqn:Hup; [|done].
      injection Hi as <-. exists entity, (validateEntity entity uploadedEntities). auto. }
  exists entity, stream.
  destruct (severity_partition stream) as (Hfe & Hfw & Hone).
  rewrite Herr, Hwarn. repeat split; try done.
  intros d [Hde Hdw].
  rewrite Forall_forall in Hfe, Hfw.
  specialize (Hfe _ Hde). specialize (Hfw _ Hdw). congruence.
Qed.

Lemma onDrop_partition_witness :
  let tasksEntity :=
    DataEntity.Build "tasks-1" tasks
      [ {[ "TaskID" := "T1"; "TaskName" := "build"; "Duration" := "5";
           "RequiredSkills" := "go"; "MaxConcurrent" := "1"; "PreferredPhases" := "[2]" ]} ]
      [] [] in
  let workersEntity :=
    DataEntity.Build "workers-1" workers
      [ {[ "WorkerID" := "W1"; "WorkerName" := "Ann"; "Skills" := "go";
           "AvailableSlots" := "[2]"; "MaxLoadPerPhase" := "3" ]} ] [] [] in
  ∃ entity',
    FileUpload.onDrop [tasksEntity; workersEntity] !! 0 = Some entity'
    ∧ Forall (λ d, ValidationError.severity d = error) (DataEntity.errors entity')
    ∧ Forall (λ d, ValidationError.severity d = warning) (DataEntity.warnings entity')
    ∧ length (DataEntity.warnings entity') = 1.
Proof.
  intros tasksEntity workersEntity.
  eexists. split; [reflexivity|].
  destruct (onDrop_partition [tasksEntity; workersEntity] 0 _ eq_refl)
    as (entity & stream & _ & _ & _ & _ & He & Hw & _).
  split; [exact He|]. split; [exact Hw|]. vm_compute. reflexivity.
Defined.

(** ** The rule description interpreter *)

Lemma startsWith_spec p s : JS.startsWith p s = true ↔ ∃ post, s = p ++ post.
Proof.
  revert s. induction p as [|a p IH]; intros s; cbn.
  - split; [eauto|done].
  - destruct s as [|b s].
    + split; [done|]. by intros (post & ?).
    + destruct (Ascii.eqb_spec a b) as [->|Hne].
      * rewrite IH. split; intros (post & H); exists post.
        -- by rewrite H.
        -- by injection H.
      * split; [done|]. intros (post & H). injection H as H _. done.
Qed.

Lemma includes_spec s sub : JS.includes s sub = true ↔ ∃ pre post, s = pre ++ sub ++ post.
Proof.
  induction s as [|c s IH]; cbn -[JS.startsWith].
  - rewrite orb_false_r, startsWith_spec. split.
    + intros (post & H). by exists "", post.
    + intros (pre & post & H). destruct pre; [by exists post|done].
  - rewrite orb_true_iff, startsWith_spec, IH. split.
    + intros [(post & H)|(pre & post & ->)].
      * by exists "", post.
      * by exists (String c pre), post.
    + intros (pre & post & H). destruct pre as [|c' pre].
      * left. by exists post.
      * right. rewrite append_cons in H. injection H as -> ->. by exists pre, post.
Qed.

Lemma toLowerCase_app a b : JS.toLowerCase (a ++ b) = JS.toLowerCase a ++ JS.toLowerCase b.
Proof.
  induction a as [|c a IH]; [done|].
  rewrite append_cons. cbn. by rewrite append_cons, IH.
Qed.

Lemma toLowerCase_split s a b :
  JS.toLowerCase s = a ++ b →
  ∃ s1 s2, s = s1 ++ s2 ∧ JS.toLowerCase s1 = a ∧ JS.toLowerCase s2 = b.
Proof.
  revert s. induction a as [|c a IH]; intros s H.
  - by exists "", s.
  - rewrite append_cons in H. destruct s as [|c' s]; [done|]. cbn in H. injection H as Hc H.
    destruct (IH _ H) as (s1 & s2 & -> & H1 & H2).
    exists (String c' s1), s2. rewrite append_cons. cbn. by rewrite Hc, H1.
Qed.

(** [text.toLowerCase().includes(keyword)] for a keyword in lower case is
    containment with letter case set aside. *)
Lemma includes_toLowerCase text keyword :
  JS.toLowerCase keyword = keyword →
  JS.includes (JS.toLowerCase text) keyword = true ↔ containsIgnoringCase text keyword.
Proof.
  intros Hk. rewrite includes_spec. unfold containsIgnoringCase. rewrite Hk. split.
  - intros (pre & post & H).
    apply toLowerCase_split in H as (s1 & s2 & -> & H1 & H2).
    apply toLowerCase_split in H2 as (s3 & s4 & -> & H3 & H4).
    by exists s1, s3, s4.
  - intros (pre & mid & post & -> & H).
    exists (JS.toLowerCase pre), (JS.toLowerCase post).
    by rewrite !toLowerCase_app, H.
Qed.

Lemma includes_keyword text keyword :
  keyword ∈ ruleKeywords →
  JS.includes (JS.toLowerCase text) keyword = true ↔ containsIgnoringCase text keyword.
Proof.
  intros Hin. apply includes_toLowerCase.
  unfold ruleKeywords in Hin. rewrite !elem_of_cons in Hin.
  destruct Hin as [->|[->|[->|[->|[->|[->|Hin]]]]]]; [reflexivity..|].
  by apply elem_of_nil in Hin.
Qed.

(** C8, as amended. A blank description (empty once its white space, that
    of ASCII and that beyond, is trimmed) is refused:
    the form is left as it was. For every other text the form is filled by
    the first keyword test that succeeds, in the fixed order: "together"
    or "co-run" gives coRun; failing that "load" or "limit" gives
    loadLimit; failing that "phase" or "window" gives phaseWindow; a text
    with none of the keywords gives patternMatch. Keywords are found with
    letter case set aside, and in every case the description is the text
    as typed. *)
Theorem processNaturalLanguageRule_interprets (f : RuleBuilder.form) :
  let text := RuleBuilder.naturalLanguageRule f in
  let f' := RuleBuilder.processNaturalLanguageRule f in
  let has kw := containsIgnoringCase text kw in
  (JS.trim text = "" → f' = f)
  ∧ (JS.trim text ≠ "" →
     RuleBuilder.ruleDescription f' = text
     ∧ (has "together" ∨ has "co-run" → RuleBuilder.selectedRuleType f' = "coRun")
     ∧ (¬ has "together" → ¬ has "co-run" → has "load" ∨ has "limit" →
        RuleBuilder.selectedRuleType f' = "loadLimit")
     ∧ (¬ has "together" → ¬ has "co-run" → ¬ has "load" → ¬ has "limit" →
        has "phase" ∨ has "window" →
        RuleBuilder.selectedRuleType f' = "phaseWindow")
     ∧ ((∀ kw, kw ∈ ruleKeywords → ¬ has kw) →
        RuleBuilder.selectedRuleType f' = "patternMatch")).
Proof.
  intros text f' has. subst f' has. cbn beta.
  unfold RuleBuilder.processNaturalLanguageRule. fold text.
  split; [by intros ->|]. intros Hne.
  destruct (JS.trim text) as [|c rest]; [done|]. cbn.
  unfold RuleBuilder.orEmpty, RuleBuilder.suggestedRule.
  assert (Hk : ∀ kw, kw ∈ ruleKeywords →
                     JS.includes (JS.toLowerCase text) kw = true ↔ containsIgnoringCase text kw)
    by (intros kw; apply includes_keyword).
  pose proof (Hk "together" ltac:(compute_done)) as H1.
  pose proof (Hk "co-run" ltac:(compute_done)) as H2.
  pose proof (Hk "load" ltac:(compute_done)) as H3.
  pose proof (Hk "limit" ltac:(compute_done)) as H4.
  pose proof (Hk "phase" ltac:(compute_done)) as H5.
  pose proof (Hk "window" ltac:(compute_done)) as H6.
  assert (Hall : (∀ kw, kw ∈ ruleKeywords → ¬ containsIgnoringCase text kw) →
                 ¬ containsIgnoringCase text "together" ∧ ¬ containsIgnoringCase text "co-run"
                 ∧ ¬ containsIgnoringCase text "load" ∧ ¬ containsIgnoringCase text "limit"
                 ∧ ¬ containsIgnoringCase text "phase" ∧ ¬ containsIgnoringCase text "window").
  { intros Hno. repeat split; apply Hno; compute_done. }
  clear Hk.
  destruct (JS.includes (JS.toLowerCase text) "together");
    destruct (JS.includes (JS.toLowerCase text) "co-run");
    destruct (JS.includes (JS.toLowerCase text) "load");
    destruct (JS.includes (JS.toLowerCase text) "limit");
    destruct (JS.includes (JS.toLowerCase text) "phase");
    destruct (JS.includes (JS.toLowerCase text) "window");
    cbn; (split; [reflexivity|]); repeat split; try reflexivity; intuition discriminate.
Qed.

Lemma processNaturalLanguageRule_interprets_witness :
  let f := RuleBuilder.Form "" "" "" [] "Tasks T1 and T2 should always run Together" in
  RuleBuilder.ruleDescription (RuleBuilder.processNaturalLanguageRule f)
  = "Tasks T1 and T2 should always run Together"
  ∧ RuleBuilder.selectedRuleType (RuleBuilder.processNaturalLanguageRule f) = "coRun".
Proof.
  intros f.
  destruct (proj2 (processNaturalLanguageRule_interprets f)) as (Hd & Hc & _).
  - vm_compute. discriminate.
  - split; [exact Hd|]. apply Hc. left.
    exists "Tasks T1 and T2 should always run ", "Together", "". split; reflexivity.
Defined.

(** C8 as stated fails on the empty text: it contains none of the keywords,
    yet the interpreter refuses it and the form keeps the rule kind it had,
    here none. *)
Lemma blank_rule_text_counterexample :
  let f := RuleBuilder.Form "" "" "" [] "" in
  (∀ kw, kw ∈ ruleKeywords → ¬ containsIgnoringCase (RuleBuilder.naturalLanguageRule f) kw)
  ∧ RuleBuilder.processNaturalLanguageRule f = f
  ∧ RuleBuilder.selectedRuleType (RuleBuilder.processNaturalLanguageRule f) ≠ "patternMatch".
Proof.
  cbn zeta. split; [|split; [reflexivity|discriminate]].
  intros kw Hkw Hc. apply (includes_keyword "" kw Hkw) in Hc.
  unfold ruleKeywords in Hkw. rewrite !elem_of_cons in Hkw.
  destruct Hkw as [->|[->|[->|[->|[->|[->|Hkw]]]]]]; [discriminate..|].
  by apply elem_of_nil in Hkw.
Qed.

(** A text of white space alone is blank, whatever the white space. *)
Example blank_rule_text_no_break_space :
  let f := RuleBuilder.Form "" "" "" [] (noBreakSpace ++ " " ++ byteOrderMark) in
  RuleBuilder.processNaturalLanguageRule f = f.
Proof. vm_compute. reflexivity. Qed.

(** ** The query engine *)

(** How [processNaturalLanguageQuery] chooses between a pattern and the
    text search: the search runs when no pattern matches and also when the
    first matching pattern selects no row. *)
Lemma processQueryWith_cases patterns query data :
  let tag := λ result : Row,
    <["_entityType" := match result !! "_entityType" with
                       | Some (String _ _ as ty) => ty
                       | _ => "unknown"
                       end]> result in
  match SearchPanel.firstMatch patterns query data with
  | Some (row :: rows, insight) =>
      SearchPanel.processQueryWith patterns query data = (tag <$> row :: rows, insight)
  | Some ([], _) | None =>
      SearchPanel.processQueryWith patterns query data
      = (tag <$> SearchPanel.fallbackSearch query data,
         "Used fallback text search across all entities")
  end.
Proof.
  unfold SearchPanel.processQueryWith.
  by destruct (SearchPanel.firstMatch patterns query data) as [[[|row rows] insight]|].
Qed.

(** C1 fails on the code. The query "workers in team alpha" matches the
    group pattern, whose filter selects no row when no workers were
    uploaded; the engine then runs the text search all the same, returns
    the task row that contains the query text, tagged with its kind, and
    reports the fallback explanation. *)
Theorem fallback_runs_after_match :
  let task : Row := {[ "TaskID" := "T1"; "TaskName" := "Onboard workers in team alpha" ]} in
  let data := [DataEntity.Build "tasks-1" tasks [task] [] []] in
  let query := "workers in team alpha" in
  SearchPanel.firstMatch SearchPanel.queryPatterns query data
  = Some ([], "Processed using pattern: Find entities in specific groups")
  ∧ SearchPanel.processNaturalLanguageQuery query data
    = ([ <["_entityType" := "tasks"]> task ],
       "Used fallback text search across all entities").
Proof. vm_compute. split; reflexivity. Qed.

(** * Further properties of the code *)

(** ** Validation: severities and rows *)

Ltac solve_severity :=
  unfold found;
  cbn -[JSON.parse parsePhaseList JS.parseIntCell JS.join JS.numberToString JS.intToString
        JS.split];
  repeat case_match; repeat constructor.

Lemma laterFindings_severity ty allEntities rowNum row :
  Forall (λ d, ValidationError.severity d = severityOf (ValidationError.type d))
         (laterFindings ty allEntities rowNum row).
Proof.
  destruct ty; cbn [laterFindings]; repeat apply Forall_app_2.
  - unfold checkPriorityLevel. solve_severity.
  - unfold checkAttributesJSON. solve_severity.
  - unfold found, checkRequestedTaskIDs. repeat case_match; try constructor.
    rewrite foldl_push. cbn. apply Forall_fmap, Forall_forall. by intros taskId _.
  - unfold checkAvailableSlots. solve_severity.
  - unfold checkMaxLoadPerPhase. solve_severity.
  - unfold checkDuration. solve_severity.
  - unfold checkMaxConcurrent. solve_severity.
  - unfold checkSkills, push. solve_severity.
  - unfold checkPreferredPhases. solve_severity.
Qed.

Lemma rowFindings_severity ty allEntities seen index row :
  Forall (λ d, ValidationError.severity d = severityOf (ValidationError.type d))
         (rowFindings ty allEntities seen index row).
Proof.
  unfold rowFindings. apply Forall_app_2; [|apply laterFindings_severity].
  rewrite checkId_found. repeat case_match; repeat constructor.
Qed.

Lemma blocksFrom_severity ty allEntities rows seen index :
  Forall (λ d, ValidationError.severity d = severityOf (ValidationError.type d))
         (blocksFrom ty allEntities seen index rows).
Proof.
  revert seen index. induction rows as [|row rows IH]; intros seen index; cbn; [constructor|].
  apply Forall_app_2; [apply rowFindings_severity|apply IH].
Qed.

Lemma missingColumnFindings_rows entity required :
  Forall (λ d, ValidationError.row d = 1 ∧ ValidationError.severity d = error
               ∧ ValidationError.type d = "missing_column"
               ∧ (1 ≤ length (DataEntity.data entity))%nat)
         (missingColumnFindings entity required).
Proof.
  unfold missingColumnFindings. destruct (DataEntity.data entity) as [|first rest]; [constructor|].
  apply Forall_fmap, Forall_forall. intros c _. cbn. repeat split. lia.
Qed.

(** X1. Every finding of [validateEntity] is reported with the severity
    its kind fixes: [overloaded_worker], [skill_coverage] and
    [max_concurrency_feasibility] are warnings, every other kind is an
    error. It points at a row of the entity: its row number lies between 1
    and the number of rows, so an entity without rows has no findings,
    whatever its kind and whatever else was uploaded. *)
Theorem validateEntity_severity_and_row entity allEntities d :
  d ∈ validateEntity entity allEntities →
  ValidationError.severity d = severityOf (ValidationError.type d)
  ∧ (1 ≤ ValidationError.row d ≤ length (DataEntity.data entity))%nat.
Proof.
  rewrite validateEntity_blocks, checkRequiredColumns_spec. cbn [app].
  intros [Hd|Hd]%elem_of_app.
  - pose proof (missingColumnFindings_rows entity (requiredColumns (DataEntity.type entity))) as H.
    rewrite Forall_forall in H. destruct (H d Hd) as (Hr & Hs & Ht & Hl).
    rewrite Hs, Ht, Hr. repeat split; lia.
  - pose proof (blocksFrom_severity (DataEntity.type entity) allEntities (DataEntity.data entity)
                  ∅ 0) as Hsev.
    destruct (blocksFrom_sorted (DataEntity.type entity) allEntities (DataEntity.data entity) ∅ 0)
      as [_ Hrow].
    rewrite Forall_forall in Hsev, Hrow.
    specialize (Hsev d Hd). specialize (Hrow d Hd). cbn in Hrow.
    repeat split; [done|lia..].
Qed.

Lemma validateEntity_severity_and_row_witness :
  let entity :=
    DataEntity.Build "workers-1" workers
      [ {[ "WorkerID" := "W1"; "AvailableSlots" := "[1]"; "MaxLoadPerPhase" := "3" ]} ] [] [] in
  let d :=
    ValidationError.Build 1 "MaxLoadPerPhase" "overloaded_worker"
      "MaxLoadPerPhase (3) exceeds available slots (1)" warning in
  d ∈ validateEntity entity [entity]
  ∧ ValidationError.severity d = severityOf (ValidationError.type d)
  ∧ (1 ≤ ValidationError.row d ≤ 1)%nat.
Proof.
  intros entity d.
  assert (Hd : d ∈ validateEntity entity [entity]).
  { apply (bool_decide_unpack _). vm_compute. exact I. }
  split; [exact Hd|].
  exact (validateEntity_severity_and_row entity [entity] d Hd).
Defined.

(** ** Validation: what a finding says about its row *)

Lemma blocksFrom_elem ty allEntities rows seen index d :
  d ∈ blocksFrom ty allEntities seen index rows →
  ∃ j row,
    rows !! j = Some row
    ∧ d ∈ rowFindings ty allEntities (foldl (nextSeen (idColumn ty)) seen (take j rows))
          (index + j) row.
Proof.
  revert seen index. induction rows as [|r rows IH]; intros seen index; cbn.
  - by intros ?%elem_of_nil.
  - intros [Hd|Hd]%elem_of_app.
    + exists 0, r. split; [done|]. cbn. by rewrite Nat.add_0_r.
    + destruct (IH _ _ Hd) as (j & row & Hj & Hin).
      exists (S j), row. split; [done|]. cbn.
      by replace (index + S j) with (S index + j) by lia.
Qed.

Lemma rowFindings_kind ty allEntities seen index row d :
  d ∈ rowFindings ty allEntities seen index row →
  ValidationError.row d = index + 1
  ∧ (ValidationError.type d, ValidationError.column d) ∈ checkOrder ty.
Proof.
  intros Hd. destruct (rowFindings_ranked ty allEntities seen index row) as [_ Hf].
  rewrite Forall_forall in Hf. destruct (Hf d Hd) as [Hr Hk]. split; [done|].
  eapply list_elem_of_lookup_2, position_lookup. fold (rank ty d).
  destruct ty; cbn in *; lia.
Qed.

(** A finding of [validateEntity] is a required-column finding or a finding
    of the checks of the row it points at. *)
Lemma validateEntity_elem entity allEntities d :
  d ∈ validateEntity entity allEntities →
  ValidationError.type d = "missing_column"
  ∨ ∃ j row seen,
      DataEntity.data entity !! j = Some row
      ∧ ValidationError.row d = j + 1
      ∧ d ∈ rowFindings (DataEntity.type entity) allEntities seen j row.
Proof.
  rewrite validateEntity_blocks, checkRequiredColumns_spec. cbn [app].
  intros [Hd|Hd]%elem_of_app.
  - left.
    pose proof (missingColumnFindings_rows entity (requiredColumns (DataEntity.type entity))) as H.
    rewrite Forall_forall in H. by destruct (H d Hd) as (_ & _ & Ht & _).
  - right. destruct (blocksFrom_elem _ _ _ _ _ _ Hd) as (j & row & Hj & Hin).
    cbn in Hin. eexists j, row, _. split; [done|]. split; [|exact Hin].
    by destruct (rowFindings_kind _ _ _ _ _ _ Hin) as [-> _].
Qed.

Ltac no_such_kind H :=
  cbn in H;
  repeat (apply elem_of_cons in H as [H|H]; [injection H; intros; congruence|]);
  by apply elem_of_nil in H.

Lemma laterFindings_workers_elem allEntities rowNum row d :
  d ∈ laterFindings workers allEntities rowNum row →
  (ValidationError.type d = "overloaded_worker"
   ∧ ∃ text slots load,
       row !! "AvailableSlots" = Some text
       ∧ parsePhaseList text = Some slots
       ∧ JS.parseIntCell (row !! "MaxLoadPerPhase") = JS.Num load
       ∧ (Z.of_nat (length slots) < load)%Z)
  ∨ (ValidationError.type d = "malformed_list"
     ∧ ∃ text, row !! "AvailableSlots" = Some text ∧ text ≠ "" ∧ parsePhaseList text = None)
  ∨ (ValidationError.type d = "invalid_range"
     ∧ ∀ load, JS.parseIntCell (row !! "MaxLoadPerPhase") = JS.Num load → (load < 1)%Z).
Proof.
  cbn [laterFindings]. intros [Hd|Hd]%elem_of_app.
  - unfold found, checkAvailableSlots in Hd.
    destruct (row !! "AvailableSlots") as [[|c text]|] eqn:Et; cbn in Hd;
      try by apply elem_of_nil in Hd.
    destruct (parsePhaseList (String c text)) as [slots|] eqn:Ep.
    + destruct (JS.parseIntCell (row !! "MaxLoadPerPhase")) as [|load] eqn:El; cbn in Hd;
        [by apply elem_of_nil in Hd|].
      destruct (Z.ltb_spec (Z.of_nat (length slots)) load) as [Hlt|Hge]; cbn in Hd;
        [|by apply elem_of_nil in Hd].
      apply list_elem_of_singleton in Hd as ->. left. split; [done|].
      by exists (String c text), slots, load.
    + cbn in Hd. apply list_elem_of_singleton in Hd as ->. right. left. split; [done|].
      by exists (String c text).
  - unfold found, checkMaxLoadPerPhase in Hd.
    destruct (JS.parseIntCell (row !! "MaxLoadPerPhase")) as [|load] eqn:El; cbn in Hd.
    + apply list_elem_of_singleton in Hd as ->. right. right. split; [done|]. discriminate.
    + destruct (Z.ltb_spec load 1) as [Hlt|Hge]; cbn in Hd; [|by apply elem_of_nil in Hd].
      apply list_elem_of_singleton in Hd as ->. right. right. split; [done|].
      intros ? [= <-]. done.
Qed.

Lemma rowFindings_workers_elem allEntities seen index row d :
  d ∈ rowFindings workers allEntities seen index row →
  ValidationError.type d = "duplicate_id" ∨ ValidationError.type d = "missing_value"
  ∨ d ∈ laterFindings workers allEntities (index + 1) row.
Proof.
  unfold rowFindings. intros [Hd|Hd]%elem_of_app; [|by right; right].
  rewrite checkId_found in Hd.
  apply elem_of_app in Hd as [Hd|Hd]; repeat case_match;
    try (by apply elem_of_nil in Hd); apply list_elem_of_singleton in Hd as ->; auto.
Qed.

(** X2. An [overloaded_worker] warning is only given to a worker row
    that passes the two other checks of its kind: the row's AvailableSlots
    cell is not empty, its MaxLoadPerPhase cell reads as a number above 0,
    and the same row carries neither a [malformed_list] nor an
    [invalid_range] finding. *)
Theorem overloaded_worker_row_is_well_formed entity allEntities d :
  d ∈ validateEntity entity allEntities →
  ValidationError.type d = "overloaded_worker" →
  DataEntity.type entity = workers
  ∧ (∃ row,
       DataEntity.data entity !! (ValidationError.row d - 1) = Some row
       ∧ JS.truthy (row !! "AvailableSlots") = true
       ∧ JS.gt (JS.parseIntCell (row !! "MaxLoadPerPhase")) (JS.Num 0) = true)
  ∧ ∀ d', d' ∈ validateEntity entity allEntities →
          ValidationError.row d' = ValidationError.row d →
          ValidationError.type d' ≠ "malformed_list"
          ∧ ValidationError.type d' ≠ "invalid_range".
Proof.
  intros Hd Ht.
  destruct (validateEntity_elem _ _ _ Hd) as [Hm|(j & row & seen & Hj & Hr & Hin)];
    [congruence|].
  pose proof (rowFindings_kind _ _ _ _ _ _ Hin) as [_ Hk]. rewrite Ht in Hk.
  assert (Hty : DataEntity.type entity = workers).
  { destruct (DataEntity.type entity); [no_such_kind Hk|done|no_such_kind Hk]. }
  split; [done|]. rewrite Hty in Hin.
  apply rowFindings_workers_elem in Hin as [?|[?|Hin]]; [congruence..|].
  apply laterFindings_workers_elem in Hin
    as [(_ & text & slots & load & Htext & Hp & Hl & Hlt)|[[? _]|[? _]]]; [|congruence..].
  split.
  { exists row. rewrite Hr. replace (j + 1 - 1) with j by lia.
    split; [done|]. rewrite Htext, Hl. split.
    - destruct text; [discriminate Hp|done].
    - apply Z.ltb_lt. lia. }
  intros d' Hd' Hr'.
  destruct (validateEntity_elem _ _ _ Hd') as [Hm|(j' & row' & seen' & Hj' & Hrow' & Hin')].
  { rewrite Hm. split; discriminate. }
  assert (j' = j) as -> by lia.
  assert (row' = row) as -> by congruence.
  rewrite Hty in Hin'.
  apply rowFindings_workers_elem in Hin' as [->|[->|Hin']]; [split; discriminate..|].
  apply laterFindings_workers_elem in Hin'
    as [[-> _]|[(_ & text' & Htext' & _ & Hp')|(_ & Hbad)]].
  - split; discriminate.
  - congruence.
  - specialize (Hbad load Hl). lia.
Qed.

Lemma overloaded_worker_row_is_well_formed_witness :
  let entity :=
    DataEntity.Build "workers-1" workers
      [ {[ "WorkerID" := "W1"; "AvailableSlots" := "[1,2]"; "MaxLoadPerPhase" := "3" ]} ] [] [] in
  let d :=
    ValidationError.Build 1 "MaxLoadPerPhase" "overloaded_worker"
      "MaxLoadPerPhase (3) exceeds available slots (2)" warning in
  d ∈ validateEntity entity [entity] ∧ DataEntity.type entity = workers.
Proof.
  intros entity d.
  assert (Hd : d ∈ validateEntity entity [entity]).
  { apply (bool_decide_unpack _). vm_compute. exact I. }
  split; [exact Hd|].
  exact (proj1 (overloaded_worker_row_is_well_formed entity [entity] d Hd eq_refl)).
Defined.

(** ** Validation: skills *)

Lemma foldl_union_elem (l : list string) (acc : gset string) x :
  x ∈ foldl (λ skills skill, {[ skill ]} ∪ skills) acc l ↔ x ∈ acc ∨ x ∈ l.
Proof.
  revert acc. induction l as [|s l IH]; intros acc; cbn.
  - split; [by left|]. intros [?|?%elem_of_nil]; done.
  - rewrite IH, elem_of_union, elem_of_singleton, elem_of_cons. intuition.
Qed.

Lemma foldl_skills_elem (rows : list Row) (acc : gset string) x :
  x ∈ foldl (λ skills worker,
               foldl (λ skills skill, {[ skill ]} ∪ skills) skills (skillsOf worker)) acc rows
  ↔ x ∈ acc ∨ x ∈ rows ≫= skillsOf.
Proof.
  revert acc. induction rows as [|row rows IH]; intros acc; cbn.
  - split; [by left|]. intros [?|?%elem_of_nil]; done.
  - rewrite IH, foldl_union_elem, elem_of_app. intuition.
Qed.

(** The set the validator collects holds the skills of the workers. *)
Lemma allWorkerSkills_spec allEntities skill :
  skill ∈ allWorkerSkills allEntities ↔ skill ∈ workerSkills allEntities.
Proof.
  unfold allWorkerSkills, workerSkills. destruct (entityOf workers allEntities) as [we|].
  - rewrite foldl_skills_elem. split; [|by right]. intros [?%elem_of_empty|?]; done.
  - split; [intros ?%elem_of_empty|intros ?%elem_of_nil]; done.
Qed.

Lemma checkSkills_found we skills rowNum row text :
  row !! "RequiredSkills" = Some text → text ≠ "" →
  found (checkSkills we skills rowNum row) ∅
  = let requiredSkills := JS.trim <$> JS.split "," text in
    let uncoveredSkills := List.filter (λ skill, negb (has skills skill)) requiredSkills in
    let qualifiedWorkers :=
      match we with
      | Some we =>
          List.filter
            (λ worker : Row,
               JS.truthy (worker !! "Skills") &&
               existsb (λ reqSkill, listIncludes (skillsOf worker) reqSkill) requiredSkills)
            (DataEntity.data we)
      | None => []
      end in
    let maxConcurrent := JS.parseIntCell (row !! "MaxConcurrent") in
    ((if (0 <? length uncoveredSkills)%nat then
        [ValidationError.Build rowNum "RequiredSkills" "skill_coverage"
           ("No workers have these required skills: " ++ JS.join ", " uncoveredSkills) warning]
      else [])
       ++ (if JS.lt (JS.Num (Z.of_nat (length qualifiedWorkers))) maxConcurrent then
             [ValidationError.Build rowNum "MaxConcurrent" "max_concurrency_feasibility"
                ("MaxConcurrent (" ++ JS.numberToString maxConcurrent
                   ++ ") exceeds qualified workers ("
                   ++ JS.intToString (Z.of_nat (length qualifiedWorkers)) ++ ")") warning]
           else []))%list.
Proof.
  intros Hrow Htext. unfold found, checkSkills, push. rewrite Hrow.
  destruct text as [|c text]; [done|].
  cbn -[JS.parseIntCell JS.join JS.numberToString JS.intToString JS.split].
  repeat case_match; reflexivity.
Qed.

(** The findings of the skills check among the later findings of a task row. *)
Lemma laterFindings_skills allEntities rowNum row kind :
  kind = "skill_coverage" ∨ kind = "max_concurrency_feasibility" →
  List.filter (hasType kind) (laterFindings tasks allEntities rowNum row)
  = List.filter (hasType kind)
      (found (checkSkills (entityOf workers allEntities) (allWorkerSkills allEntities)
                rowNum row) ∅).
Proof.
  intros Hk. cbn [laterFindings]. rewrite !List.filter_app.
  rewrite (ranked_filter_type tasks rowNum 2 2 _ kind (checkDuration_ranked rowNum row));
    [|cbn; lia|destruct Hk as [-> | ->]; cbn; solve_no_rank].
  rewrite (ranked_filter_type tasks rowNum 3 3 _ kind (checkMaxConcurrent_ranked rowNum row));
    [|cbn; lia|destruct Hk as [-> | ->]; cbn; solve_no_rank].
  rewrite (ranked_filter_type tasks rowNum 6 6 _ kind (checkPreferredPhases_ranked rowNum row));
    [|cbn; lia|destruct Hk as [-> | ->]; cbn; solve_no_rank].
  by rewrite app_nil_r.
Qed.

Lemma validateEntity_skills entity allEntities j row kind :
  DataEntity.type entity = tasks →
  DataEntity.data entity !! j = Some row →
  kind = "skill_coverage" ∨ kind = "max_concurrency_feasibility" →
  List.filter (λ d, atRow (j + 1) d && hasType kind d) (validateEntity entity allEntities)
  = List.filter (hasType kind)
      (found (checkSkills (entityOf workers allEntities) (allWorkerSkills allEntities)
                (j + 1) row) ∅).
Proof.
  intros Hty Hj Hk.
  rewrite (validateEntity_at_row _ _ _ _ _ Hj) by (destruct Hk as [-> | ->]; discriminate).
  rewrite Hty. unfold rowFindings. rewrite List.filter_app.
  rewrite (ranked_filter_type tasks (j + 1) 0 1 _ kind (checkId_ranked tasks (j + 1) row _));
    [|cbn; lia|destruct Hk as [-> | ->]; cbn; solve_no_rank].
  cbn [app]. by apply laterFindings_skills.
Qed.

(** X3. On a task row whose RequiredSkills cell is not empty, the required
    skills are the pieces of the cell between the commas, trimmed. When
    each of them is a skill of some worker of the workers collection there
    is no [skill_coverage] finding on the row; otherwise there is exactly
    one, a warning on RequiredSkills that lists, in the order of the cell
    and separated by a comma and a space, the required skills that no
    worker has. *)
Theorem skill_coverage_findings entity allEntities j row text :
  DataEntity.type entity = tasks →
  DataEntity.data entity !! j = Some row →
  row !! "RequiredSkills" = Some text →
  text ≠ "" →
  List.filter (λ d, atRow (j + 1) d && hasType "skill_coverage" d)
    (validateEntity entity allEntities)
  = match List.filter (λ skill, negb (bool_decide (skill ∈ workerSkills allEntities)))
            (JS.trim <$> JS.split "," text) with
    | [] => []
    | uncovered =>
        [ValidationError.Build (j + 1) "RequiredSkills" "skill_coverage"
           ("No workers have these required skills: " ++ JS.join ", " uncovered) warning]
    end.
Proof.
  intros Hty Hj Hrow Htext.
  rewrite (validateEntity_skills _ _ _ _ _ Hty Hj) by auto.
  rewrite (checkSkills_found _ _ _ _ _ Hrow Htext). cbn zeta.
  rewrite List.filter_app.
  rewrite (List.filter_ext (λ skill, negb (has (allWorkerSkills allEntities) skill))
             (λ skill, negb (bool_decide (skill ∈ workerSkills allEntities)))).
  2:{ intros skill. f_equal. rewrite has_elem_of. apply bool_decide_ext, allWorkerSkills_spec. }
  destruct (List.filter _ (JS.trim <$> JS.split "," text)) as [|s uncovered]; cbn [length Nat.ltb Nat.leb].
  - cbn [app List.filter]. by case_match.
  - cbn -[JS.join JS.numberToString JS.intToString]. by case_match.
Qed.

Lemma skill_coverage_findings_witness :
  let task : Row :=
    {[ "TaskID" := "T1"; "RequiredSkills" := "go, rust ,sql"; "MaxConcurrent" := "1" ]} in
  let tasksEntity := DataEntity.Build "tasks-1" tasks [task] [] [] in
  let workersEntity :=
    DataEntity.Build "workers-1" workers
      [ {[ "WorkerID" := "W1"; "Skills" := "go" ]}; {[ "WorkerID" := "W2"; "Skills" := "c, go" ]} ]
      [] [] in
  List.filter (λ d, atRow 1 d && hasType "skill_coverage" d)
    (validateEntity tasksEntity [tasksEntity; workersEntity])
  = [ValidationError.Build 1 "RequiredSkills" "skill_coverage"
       "No workers have these required skills: rust, sql" warning].
Proof.
  intros task tasksEntity workersEntity.
  refine (eq_trans (skill_coverage_findings tasksEntity [tasksEntity; workersEntity] 0 task
                      "go, rust ,sql" eq_refl eq_refl eq_refl _) _).
  - discriminate.
  - vm_compute. reflexivity.
Defined.

Lemma no_qualified_workers (rows : list Row) (required : list string) :
  Forall (λ skill, skill ∉ rows ≫= skillsOf) required →
  List.filter
    (λ worker : Row,
       JS.truthy (worker !! "Skills") &&
       existsb (λ reqSkill, listIncludes (skillsOf worker) reqSkill) required) rows
  = [].
Proof.
  intros Hnone. apply filter_none, Forall_forall. intros worker Hw.
  apply andb_false_iff. right. apply not_true_is_false. intros Hex.
  apply existsb_exists in Hex as (skill & Hin & Hinc).
  rewrite listIncludes_elem_of in Hinc. apply bool_decide_eq_true in Hinc.
  rewrite Forall_forall in Hnone. apply (Hnone skill); [by apply list_elem_of_In|].
  apply list_elem_of_bind. by exists worker.
Qed.

(** X4. A task none of whose required skills is a skill of any worker has
    no qualified worker. So on such a row, when the MaxConcurrent cell
    reads as a number of at least 1, the skill warning comes with a
    [max_concurrency_feasibility] warning on MaxConcurrent that reports 0
    qualified workers; when the cell reads as no number or as a number
    below 1 there is no feasibility warning. The number the warning quotes
    is the one the cell reads as, a safe integer. *)
Theorem uncovered_task_is_infeasible entity allEntities j row text :
  DataEntity.type entity = tasks →
  DataEntity.data entity !! j = Some row →
  row !! "RequiredSkills" = Some text →
  text ≠ "" →
  Forall (λ skill, skill ∉ workerSkills allEntities) (JS.trim <$> JS.split "," text) →
  readsExactly (row !! "MaxConcurrent") →
  List.filter (λ d, atRow (j + 1) d && hasType "max_concurrency_feasibility" d)
    (validateEntity entity allEntities)
  = match JS.parseIntCell (row !! "MaxConcurrent") with
    | JS.Num n =>
        if (0 <? n)%Z then
          [ValidationError.Build (j + 1) "MaxConcurrent" "max_concurrency_feasibility"
             ("MaxConcurrent (" ++ JS.intToString n ++ ") exceeds qualified workers (0)")
             warning]
        else []
    | JS.NaN => []
    end.
Proof.
  intros Hty Hj Hrow Htext Hnone _.
  rewrite (validateEntity_skills _ _ _ _ _ Hty Hj) by auto.
  rewrite (checkSkills_found _ _ _ _ _ Hrow Htext). cbn zeta.
  assert (Hq : match entityOf workers allEntities with
               | Some we =>
                   List.filter
                     (λ worker : Row,
                        JS.truthy (worker !! "Skills") &&
                        existsb (λ reqSkill, listIncludes (skillsOf worker) reqSkill)
                          (JS.trim <$> JS.split "," text))
                     (DataEntity.data we)
               | None => []
               end = []).
  { unfold workerSkills in Hnone. destruct (entityOf workers allEntities) as [we|]; [|done].
    by apply no_qualified_workers. }
  rewrite Hq. cbn [length Z.of_nat].
  rewrite List.filter_app.
  match goal with
  | |- context [if (0 <? ?n)%nat then _ else _] => destruct (0 <? n)%nat
  end;
    (destruct (JS.parseIntCell (row !! "MaxConcurrent")) as [|n]; [done|];
     cbn -[JS.intToString]; change (Z.of_nat 0) with 0%Z; destruct (0 <? n)%Z; reflexivity).
Qed.

Lemma uncovered_task_is_infeasible_witness :
  let task : Row :=
    {[ "TaskID" := "T1"; "RequiredSkills" := "rust"; "MaxConcurrent" := "2" ]} in
  let tasksEntity := DataEntity.Build "tasks-1" tasks [task] [] [] in
  let workersEntity :=
    DataEntity.Build "workers-1" workers [ {[ "WorkerID" := "W1"; "Skills" := "go" ]} ] [] [] in
  List.filter (λ d, atRow 1 d && hasType "max_concurrency_feasibility" d)
    (validateEntity tasksEntity [tasksEntity; workersEntity])
  = [ValidationError.Build 1 "MaxConcurrent" "max_concurrency_feasibility"
       "MaxConcurrent (2) exceeds qualified workers (0)" warning].
Proof.
  intros task tasksEntity workersEntity.
  refine (eq_trans (uncovered_task_is_infeasible tasksEntity [tasksEntity; workersEntity] 0 task
                      "rust" eq_refl eq_refl eq_refl _ _ _) _).
  - discriminate.
  - apply (bool_decide_unpack _). vm_compute. exact I.
  - intros n Hn. vm_compute in Hn. injection Hn as <-. unfold safeInteger. lia.
  - vm_compute. reflexivity.
Defined.

(** ** Phase-slot saturation and the totals of an upload *)

Lemma taskDemand_findings (P : ValidationError.t → Prop) acc index task :
  (∀ message, P (ValidationError.Build (index + 1) "PreferredPhases" "phase_slot_saturation"
                   message warning)) →
  Forall P (snd acc) → Forall P (snd (taskDemand acc index task)).
Proof.
  intros HP Hacc. destruct acc as [t errs]. unfold taskDemand.
  repeat case_match; cbn in *; try done.
  apply Forall_app_2; [done|]. repeat constructor. apply HP.
Qed.

Lemma foldl_checkSaturation_findings (P : ValidationError.t → Prop) capacity demand errs
    phaseKeys :
  (∀ message, P (ValidationError.Build 1 "Phase Analysis" "phase_slot_saturation"
                   message warning)) →
  Forall P errs → Forall P (foldl (checkSaturation capacity demand) errs phaseKeys).
Proof.
  intros HP. revert errs. induction phaseKeys as [|k phaseKeys IH]; intros errs Herrs; cbn;
    [done|].
  apply IH. unfold checkSaturation. repeat case_match; try done.
  apply Forall_app_2; [done|]. repeat constructor. apply HP.
Qed.

(** The findings of the saturation analysis, whatever holds of both kinds
    of warning it can push. *)
Lemma validatePhaseSlotSaturation_findings (P : ValidationError.t → Prop) allEntities :
  (∀ rowNum message,
     P (ValidationError.Build rowNum "PreferredPhases" "phase_slot_saturation" message warning)) →
  (∀ message,
     P (ValidationError.Build 1 "Phase Analysis" "phase_slot_saturation" message warning)) →
  Forall P (validatePhaseSlotSaturation allEntities).
Proof.
  intros Htask Hphase. unfold validatePhaseSlotSaturation.
  destruct (List.find _ allEntities) as [te|]; [|constructor].
  destruct (List.find _ allEntities) as [we|]; [|constructor].
  assert (Htasks : ∀ rows index acc,
            Forall P (snd acc) → Forall P (snd (forEachFrom taskDemand index rows acc))).
  { induction rows as [|task rows IH]; intros index acc Hacc; cbn; [done|].
    apply IH. apply taskDemand_findings; [|done]. intros message. apply Htask. }
  specialize (Htasks (DataEntity.data te) 0 ([], []) ltac:(constructor)).
  unfold forEach. destruct (forEachFrom taskDemand 0 _ _) as [phaseDemand errs].
  by apply foldl_checkSaturation_findings.
Qed.

(** X5. The saturation analysis only ever warns: every finding of
    [validatePhaseSlotSaturation] has kind [phase_slot_saturation] and
    severity [warning], and is either a finding on the PreferredPhases cell
    of a task or a finding on the pseudo-column "Phase Analysis" at row 1. *)
Theorem saturation_findings_are_warnings allEntities d :
  d ∈ validatePhaseSlotSaturation allEntities →
  ValidationError.type d = "phase_slot_saturation"
  ∧ ValidationError.severity d = warning
  ∧ (ValidationError.column d = "PreferredPhases"
     ∨ (ValidationError.column d = "Phase Analysis" ∧ ValidationError.row d = 1)).
Proof.
  intros Hd.
  pose proof (validatePhaseSlotSaturation_findings
                (λ d, ValidationError.type d = "phase_slot_saturation"
                      ∧ ValidationError.severity d = warning
                      ∧ (ValidationError.column d = "PreferredPhases"
                         ∨ (ValidationError.column d = "Phase Analysis"
                            ∧ ValidationError.row d = 1)))
                allEntities) as H.
  rewrite Forall_forall in H. apply H; [| |exact Hd].
  - intros rowNum message. cbn. auto.
  - intros message. cbn. auto.
Qed.

Lemma saturation_findings_are_warnings_witness :
  let workersEntity :=
    DataEntity.Build "workers-1" workers
      [ {[ "WorkerID" := "W1"; "AvailableSlots" := "[1]"; "MaxLoadPerPhase" := "2" ]} ] [] [] in
  let tasksEntity :=
    DataEntity.Build "tasks-1" tasks
      [ {[ "TaskID" := "T1"; "Duration" := "3"; "PreferredPhases" := "[1]" ]} ] [] [] in
  let d :=
    ValidationError.Build 1 "Phase Analysis" "phase_slot_saturation"
      "Phase 1 is oversaturated: demand (3) > capacity (2)" warning in
  d ∈ validatePhaseSlotSaturation [workersEntity; tasksEntity]
  ∧ ValidationError.severity d = warning.
Proof.
  intros workersEntity tasksEntity d.
  assert (Hd : d ∈ validatePhaseSlotSaturation [workersEntity; tasksEntity]).
  { apply (bool_decide_unpack _). vm_compute. exact I. }
  split; [exact Hd|].
  exact (proj1 (proj2 (saturation_findings_are_warnings _ d Hd))).
Defined.

(** The saturation analysis reads the kind and the rows of the entities,
    not the findings they carry. *)
Lemma find_validated ty uploadedEntities entities :
  List.find (λ e, bool_decide (DataEntity.type e = ty))
    (FileUpload.validated uploadedEntities <$> entities)
  = FileUpload.validated uploadedEntities
      <$> List.find (λ e, bool_decide (DataEntity.type e = ty)) entities.
Proof.
  induction entities as [|e entities IH]; cbn; [done|].
  destruct (bool_decide (DataEntity.type e = ty)); [done|apply IH].
Qed.

Lemma validatePhaseSlotSaturation_validated uploadedEntities :
  validatePhaseSlotSaturation (FileUpload.validated uploadedEntities <$> uploadedEntities)
  = validatePhaseSlotSaturation uploadedEntities.
Proof.
  unfold validatePhaseSlotSaturation. rewrite !find_validated.
  destruct (List.find _ uploadedEntities) as [te|]; cbn; [|done].
  by destruct (List.find _ uploadedEntities) as [we|].
Qed.

Lemma foldl_sum {A : Type} (f : A → nat) (l : list A) (acc : nat) :
  foldl (λ sum x, sum + f x) acc l = acc + sum_list (f <$> l).
Proof.
  revert acc. induction l as [|x l IH]; intros acc; cbn; [lia|]. rewrite IH. lia.
Qed.

Lemma filter_severity_length (stream : list ValidationError.t) :
  length (List.filter FileUpload.isError stream)
  + length (List.filter FileUpload.isWarning stream)
  = length stream.
Proof.
  induction stream as [|d stream IH]; cbn; [done|].
  destruct (FileUpload.isError d) eqn:E1, (FileUpload.isWarning d) eqn:E2; cbn; try lia;
    unfold FileUpload.isError, FileUpload.isWarning in E1, E2;
    destruct (ValidationError.severity d); done.
Qed.

Lemma filter_isError_warnings (stream : list ValidationError.t) :
  Forall (λ d, ValidationError.severity d = warning) stream →
  List.filter FileUpload.isError stream = [].
Proof.
  intros H. apply filter_none. eapply Forall_impl; [exact H|].
  intros d Hd. unfold FileUpload.isError. by rewrite Hd.
Qed.

Lemma saturation_no_errors allEntities :
  List.filter FileUpload.isError (validatePhaseSlotSaturation allEntities) = [].
Proof.
  apply filter_isError_warnings.
  by apply (validatePhaseSlotSaturation_findings
              (λ d, ValidationError.severity d = warning)).
Qed.

Lemma pushOntoTasks_errors phaseSlotErrors entities :
  List.filter FileUpload.isError phaseSlotErrors = [] →
  DataEntity.errors <$> FileUpload.pushOntoTasks phaseSlotErrors entities
  = DataEntity.errors <$> entities.
Proof.
  intros Hnone. induction entities as [|e entities IH]; cbn; [done|].
  destruct (bool_decide (DataEntity.type e = tasks)); cbn.
  - by rewrite Hnone, app_nil_r.
  - by rewrite IH.
Qed.

Lemma pushOntoTasks_warnings phaseSlotErrors entities :
  is_Some (List.find (λ e, bool_decide (DataEntity.type e = tasks)) entities) →
  sum_list (length <$> (DataEntity.warnings <$> FileUpload.pushOntoTasks phaseSlotErrors entities))
  = sum_list (length <$> (DataEntity.warnings <$> entities))
    + length (List.filter FileUpload.isWarning phaseSlotErrors).
Proof.
  induction entities as [|e entities IH]; cbn; [by intros [? ?]|].
  destruct (bool_decide (DataEntity.type e = tasks)); cbn.
  - intros _. rewrite length_app. lia.
  - intros H. rewrite (IH H). lia.
Qed.

Lemma validatePhaseSlotSaturation_tasks allEntities :
  validatePhaseSlotSaturation allEntities ≠ [] →
  is_Some (List.find (λ e, bool_decide (DataEntity.type e = tasks)) allEntities).
Proof.
  unfold validatePhaseSlotSaturation.
  destruct (List.find _ allEntities) as [te|]; [eauto|done].
Qed.

(** The errors each entity leaves [onDrop] with are the error findings of
    its own validation. *)
Lemma onDrop_errors uploadedEntities :
  DataEntity.errors <$> FileUpload.onDrop uploadedEntities
  = (λ entity, List.filter FileUpload.isError (validateEntity entity uploadedEntities))
      <$> uploadedEntities.
Proof.
  unfold FileUpload.onDrop. cbn zeta.
  assert (Hv : DataEntity.errors <$> (FileUpload.validated uploadedEntities <$> uploadedEntities)
               = (λ entity, List.filter FileUpload.isError
                              (validateEntity entity uploadedEntities)) <$> uploadedEntities).
  { by rewrite <- list_fmap_compose. }
  case_match; [|done].
  rewrite pushOntoTasks_errors; [done|apply saturation_no_errors].
Qed.

Lemma sum_list_zero (l : list nat) : sum_list l = 0 ↔ Forall (λ n, n = 0) l.
Proof.
  induction l as [|n l IH]; cbn; [split; [constructor|done]|].
  rewrite Forall_cons, <- IH. lia.
Qed.

Lemma totalErrors_sum data :
  ExportPanel.totalErrors data = sum_list (length <$> (DataEntity.errors <$> data)).
Proof.
  unfold ExportPanel.totalErrors. by rewrite foldl_sum, Nat.add_0_l, <- list_fmap_compose.
Qed.

Lemma totalWarnings_sum data :
  ExportPanel.totalWarnings data = sum_list (length <$> (DataEntity.warnings <$> data)).
Proof.
  unfold ExportPanel.totalWarnings. by rewrite foldl_sum, Nat.add_0_l, <- list_fmap_compose.
Qed.

(** X6. Whether an upload is clean is decided by the validation of its
    entities alone: after [onDrop] the errors of every entity are the
    findings of severity [error] of its own [validateEntity] run, the
    saturation analysis adds none, and the export status reads clean
    exactly when no [validateEntity] finding of any uploaded entity is an
    error. *)
Theorem onDrop_clean_status uploadedEntities :
  DataEntity.errors <$> FileUpload.onDrop uploadedEntities
  = (λ entity, List.filter FileUpload.isError (validateEntity entity uploadedEntities))
      <$> uploadedEntities
  ∧ (ExportPanel.isDataClean (FileUpload.onDrop uploadedEntities) = true
     ↔ ∀ entity d, entity ∈ uploadedEntities →
                   d ∈ validateEntity entity uploadedEntities →
                   ValidationError.severity d = warning).
Proof.
  split; [apply onDrop_errors|].
  unfold ExportPanel.isDataClean.
  rewrite Nat.eqb_eq, totalErrors_sum, onDrop_errors.
  rewrite sum_list_zero, <- list_fmap_compose, Forall_fmap, Forall_forall.
  split.
  - intros H entity d He Hd. specialize (H entity He). cbn in H.
    apply length_zero_iff_nil in H.
    destruct (ValidationError.severity d) eqn:Es; [|done].
    assert (Hin : d ∈ List.filter FileUpload.isError (validateEntity entity uploadedEntities)).
    { apply list_elem_of_In, List.filter_In. split; [by apply list_elem_of_In|].
      unfold FileUpload.isError. by rewrite Es. }
    rewrite H in Hin. by apply elem_of_nil in Hin.
  - intros H entity He. cbn. apply length_zero_iff_nil, filter_isError_warnings, Forall_forall.
    intros d Hd. by apply (H entity).
Qed.

Lemma onDrop_clean_status_witness :
  let entity :=
    DataEntity.Build "workers-1" workers
      [ {[ "WorkerID" := "W1"; "WorkerName" := "Ann"; "Skills" := "go";
           "AvailableSlots" := "[1]"; "MaxLoadPerPhase" := "3" ]} ] [] [] in
  ExportPanel.isDataClean (FileUpload.onDrop [entity]) = true
  ∧ ∀ e d, e ∈ [entity] → d ∈ validateEntity e [entity] →
           ValidationError.severity d = warning.
Proof.
  intros entity.
  assert (Hclean : ExportPanel.isDataClean (FileUpload.onDrop [entity]) = true)
    by (vm_compute; reflexivity).
  split; [exact Hclean|].
  exact (proj1 (proj2 (onDrop_clean_status [entity])) Hclean).
Defined.

(** X7. No finding is lost and none is counted twice: the errors and the
    warnings that the export status counts after [onDrop] add up to the
    findings of the [validateEntity] runs of the uploaded entities plus the
    findings of the saturation analysis of the upload. *)
Theorem onDrop_counts_every_finding uploadedEntities :
  ExportPanel.totalErrors (FileUpload.onDrop uploadedEntities)
  + ExportPanel.totalWarnings (FileUpload.onDrop uploadedEntities)
  = sum_list ((λ entity, length (validateEntity entity uploadedEntities)) <$> uploadedEntities)
    + length (validatePhaseSlotSaturation uploadedEntities).
Proof.
  rewrite totalErrors_sum, totalWarnings_sum, onDrop_errors.
  assert (Hw : sum_list (length <$> (DataEntity.warnings <$> FileUpload.onDrop uploadedEntities))
               = sum_list (length <$> ((λ entity, List.filter FileUpload.isWarning
                                          (validateEntity entity uploadedEntities))
                                         <$> uploadedEntities))
                 + length (validatePhaseSlotSaturation uploadedEntities)).
  { unfold FileUpload.onDrop. cbn zeta. rewrite validatePhaseSlotSaturation_validated.
    destruct (validatePhaseSlotSaturation uploadedEntities) as [|d sat] eqn:Es; cbn [length Nat.ltb Nat.leb].
    - rewrite <- !list_fmap_compose. by rewrite Nat.add_0_r.
    - rewrite pushOntoTasks_warnings.
      + rewrite <- Es, <- !list_fmap_compose.
        pose proof (filter_severity_length (validatePhaseSlotSaturation uploadedEntities)) as Hl.
        rewrite saturation_no_errors in Hl. cbn [length Nat.add] in Hl. rewrite Hl, Es. reflexivity.
      + rewrite find_validated. apply fmap_is_Some, validatePhaseSlotSaturation_tasks.
        by rewrite Es. }
  rewrite Hw. rewrite <- !list_fmap_compose.
  assert (Hsum : ∀ l : list DataEntity.t,
            sum_list ((length ∘ (λ entity, List.filter FileUpload.isError
                                   (validateEntity entity uploadedEntities))) <$> l)
            + sum_list ((length ∘ (λ entity, List.filter FileUpload.isWarning
                                     (validateEntity entity uploadedEntities))) <$> l)
            = sum_list ((λ entity, length (validateEntity entity uploadedEntities)) <$> l)).
  { induction l as [|e l IH]; cbn; [done|].
    pose proof (filter_severity_length (validateEntity e uploadedEntities)). lia. }
  specialize (Hsum uploadedEntities). lia.
Qed.

(** ** Numerals: [String] and [parseInt] *)

Lemma digitValue_digit c :
  JSON.isDigit c = true →
  ∃ d, JS.digitValue c = Some d ∧ (0 ≤ d < 10)%Z.
Proof.
  destruct c as [[] [] [] [] [] [] [] []]; try discriminate; intros _;
    vm_compute; eexists; (split; [reflexivity|done]).
Qed.

Lemma parseDigits_stop rest acc :
  endsNumeral rest = true → JS.parseDigits 10 rest acc = acc.
Proof.
  destruct rest as [|c rest]; [done|]. cbn [endsNumeral JS.parseDigits].
  destruct c as [[] [] [] [] [] [] [] []]; try discriminate; intros _; reflexivity.
Qed.

Lemma parseDigits_step c d r acc :
  JS.digitValue c = Some d → (d <? 10)%Z = true →
  JS.parseDigits 10 (String c r) acc = JS.parseDigits 10 r (Some (default 0 acc * 10 + d)%Z).
Proof. intros Hc Hd. cbn [JS.parseDigits]. by rewrite Hc, Hd. Qed.

Lemma parseDigits_uint d rest acc :
  endsNumeral rest = true →
  JS.parseDigits 10 (NilEmpty.string_of_uint d ++ rest) (Some acc)
  = Some (digitsValue d acc).
Proof.
  intros Hrest. revert acc.
  induction d as [|d IH|d IH|d IH|d IH|d IH|d IH|d IH|d IH|d IH|d IH]; intros acc;
    cbn [NilEmpty.string_of_uint digitsValue];
    rewrite ?append_nil, ?append_cons;
    [by apply parseDigits_stop|..];
    first [ rewrite (parseDigits_step _ 0%Z) by reflexivity
          | rewrite (parseDigits_step _ 1%Z) by reflexivity
          | rewrite (parseDigits_step _ 2%Z) by reflexivity
          | rewrite (parseDigits_step _ 3%Z) by reflexivity
          | rewrite (parseDigits_step _ 4%Z) by reflexivity
          | rewrite (parseDigits_step _ 5%Z) by reflexivity
          | rewrite (parseDigits_step _ 6%Z) by reflexivity
          | rewrite (parseDigits_step _ 7%Z) by reflexivity
          | rewrite (parseDigits_step _ 8%Z) by reflexivity
          | rewrite (parseDigits_step _ 9%Z) by reflexivity ];
    rewrite IH; do 2 f_equal; cbn [from_option id]; lia.
Qed.

Lemma of_uint_acc_value d acc :
  Z.pos (Pos.of_uint_acc d acc) = digitsValue d (Z.pos acc).
Proof.
  revert acc.
  induction d as [|d IH|d IH|d IH|d IH|d IH|d IH|d IH|d IH|d IH|d IH]; intros acc;
    cbn [Pos.of_uint_acc digitsValue]; [done|..]; rewrite IH; f_equal; lia.
Qed.

Lemma of_uint_value d : Z.of_N (Pos.of_uint d) = digitsValue d 0.
Proof.
  induction d as [|d IH|d IH|d IH|d IH|d IH|d IH|d IH|d IH|d IH|d IH];
    cbn [Pos.of_uint digitsValue Z.of_N]; [done|done|..]; by rewrite of_uint_acc_value.
Qed.

Lemma to_uint_value p : digitsValue (Pos.to_uint p) 0 = Z.pos p.
Proof. by rewrite <- of_uint_value, DecimalPos.Unsigned.of_to. Qed.

(** [parseInt] on a text that opens with a decimal digit and no
    hexadecimal prefix, with or without a minus sign before it. *)
Lemma parseInt_decimal c r :
  JSON.isDigit c = true →
  (c = "0"%char → endsNumeral r = true ∨ ∃ c' r', r = String c' r' ∧ JSON.isDigit c' = true) →
  JS.parseInt (String c r)
  = match JS.parseDigits 10 (String c r) None with
    | Some n => JS.Num n
    | None => JS.NaN
    end
  ∧ JS.parseInt (String "-" (String c r))
    = match JS.parseDigits 10 (String c r) None with
      | Some n => JS.Num (- n)
      | None => JS.NaN
      end.
Proof.
  intros Hc Hx.
  assert (Hgen : ∀ sign : Z,
            match (match String c r with
                   | String "0" (String "x" r') => (16%Z, r')
                   | String "0" (String "X" r') => (16%Z, r')
                   | _ => (10%Z, String c r)
                   end) with
            | (R, s2) =>
                match JS.parseDigits R s2 None with
                | None => JS.NaN
                | Some n => JS.Num (sign * n)
                end
            end
            = match JS.parseDigits 10 (String c r) None with
              | Some n => JS.Num (sign * n)
              | None => JS.NaN
              end).
  { intros sign.
    destruct c as [[] [] [] [] [] [] [] []]; try discriminate; try reflexivity.
    destruct (Hx eq_refl) as [Hr|(c' & r' & -> & Hc')].
    - destruct r as [|c' r']; [reflexivity|]. cbn [endsNumeral] in Hr.
      destruct c' as [[] [] [] [] [] [] [] []]; try discriminate; reflexivity.
    - destruct c' as [[] [] [] [] [] [] [] []]; try discriminate; reflexivity. }
  split.
  - unfold JS.parseInt.
    replace (JS.trimStart (String c r)) with (String c r)
      by (destruct c as [[] [] [] [] [] [] [] []]; try discriminate; reflexivity).
    replace (match String c r with
             | String "-" r0 => ((-1)%Z, r0)
             | String "+" r0 => (1%Z, r0)
             | _ => (1%Z, String c r)
             end) with (1%Z, String c r)
      by (destruct c as [[] [] [] [] [] [] [] []]; try discriminate; reflexivity).
    rewrite (Hgen 1%Z). destruct (JS.parseDigits 10 (String c r) None); [f_equal; lia|done].
  - unfold JS.parseInt.
    change (JS.trimStart (String "-" (String c r))) with (String "-" (String c r)).
    cbv iota.
    rewrite (Hgen (-1)%Z). destruct (JS.parseDigits 10 (String c r) None); [f_equal; lia|done].
Qed.

Lemma parseInt_uint d rest :
  d ≠ Decimal.Nil → endsNumeral rest = true →
  JS.parseInt (NilEmpty.string_of_uint d ++ rest) = JS.Num (digitsValue d 0)
  ∧ JS.parseInt (String "-" (NilEmpty.string_of_uint d ++ rest)) = JS.Num (- digitsValue d 0).
Proof.
  intros Hd Hrest.
  assert (Htail : ∀ d', endsNumeral (NilEmpty.string_of_uint d' ++ rest) = true
                        ∨ ∃ c' r', NilEmpty.string_of_uint d' ++ rest = String c' r'
                                   ∧ JSON.isDigit c' = true).
  { intros d'. destruct d'; cbn [NilEmpty.string_of_uint]; rewrite ?append_nil, ?append_cons;
      [by left|right; eexists _, _; split; reflexivity..]. }
  destruct d as [|d|d|d|d|d|d|d|d|d|d]; [done|..];
    cbn [NilEmpty.string_of_uint digitsValue]; rewrite append_cons;
    (match goal with
     | |- context [JS.parseInt (String ?c ?r)] =>
         destruct (parseInt_decimal c r eq_refl (λ _, Htail d)) as [-> ->]
     end);
    first [ rewrite (parseDigits_step _ 0%Z) by reflexivity
          | rewrite (parseDigits_step _ 1%Z) by reflexivity
          | rewrite (parseDigits_step _ 2%Z) by reflexivity
          | rewrite (parseDigits_step _ 3%Z) by reflexivity
          | rewrite (parseDigits_step _ 4%Z) by reflexivity
          | rewrite (parseDigits_step _ 5%Z) by reflexivity
          | rewrite (parseDigits_step _ 6%Z) by reflexivity
          | rewrite (parseDigits_step _ 7%Z) by reflexivity
          | rewrite (parseDigits_step _ 8%Z) by reflexivity
          | rewrite (parseDigits_step _ 9%Z) by reflexivity ];
    rewrite (parseDigits_uint d rest _ Hrest); done.
Qed.

Lemma intToString_pos p : JS.intToString (Z.pos p) = NilEmpty.string_of_uint (Pos.to_uint p).
Proof.
  unfold JS.intToString. cbn [Z.to_int NilZero.string_of_int]. unfold NilZero.string_of_uint.
  pose proof (DecimalPos.Unsigned.to_uint_nonnil p). by destruct (Pos.to_uint p).
Qed.

Lemma intToString_neg p :
  JS.intToString (Z.neg p) = String "-" (NilEmpty.string_of_uint (Pos.to_uint p)).
Proof.
  unfold JS.intToString. cbn [Z.to_int NilZero.string_of_int]. unfold NilZero.string_of_uint.
  pose proof (DecimalPos.Unsigned.to_uint_nonnil p). by destruct (Pos.to_uint p).
Qed.

(** [parseInt] reads back the numeral [String] writes, whatever follows it. *)
Lemma parseInt_intToString z rest :
  endsNumeral rest = true → JS.parseInt (JS.intToString z ++ rest) = JS.Num z.
Proof.
  intros Hrest. destruct z as [|p|p].
  - change (JS.intToString 0) with "0". rewrite append_cons, append_nil.
    destruct (parseInt_decimal "0" rest eq_refl (λ _, or_introl Hrest)) as [-> _].
    rewrite (parseDigits_step _ 0%Z) by reflexivity. by rewrite parseDigits_stop.
  - rewrite intToString_pos.
    destruct (parseInt_uint (Pos.to_uint p) rest
                (DecimalPos.Unsigned.to_uint_nonnil p) Hrest) as [-> _].
    by rewrite to_uint_value.
  - rewrite intToString_neg, append_cons.
    destruct (parseInt_uint (Pos.to_uint p) rest
                (DecimalPos.Unsigned.to_uint_nonnil p) Hrest) as [_ ->].
    by rewrite to_uint_value.
Qed.

Lemma isNumeralText_uint d : isNumeralText (NilEmpty.string_of_uint d) = true.
Proof. induction d; cbn [NilEmpty.string_of_uint isNumeralText]; by rewrite ?IHd. Qed.

Lemma isNumeralText_intToString z : isNumeralText (JS.intToString z) = true.
Proof.
  destruct z as [|p|p]; [done|..]; rewrite ?intToString_pos, ?intToString_neg;
    cbn [isNumeralText]; by rewrite isNumeralText_uint.
Qed.

(** X8. The priority check reads the PriorityLevel cell as [parseInt]
    does: a cell that opens with the decimal numeral of an integer [n],
    followed by nothing or by text that starts with neither a digit nor an
    [x], is read as [n] whatever follows the numeral. The client row then
    has no [invalid_range] finding when [n] lies between 1 and 5, and
    exactly one, an error on PriorityLevel, otherwise. *)
Theorem priority_level_range entity allEntities j row n rest :
  DataEntity.type entity = clients →
  DataEntity.data entity !! j = Some row →
  row !! "PriorityLevel" = Some (JS.intToString n ++ rest) →
  endsNumeral rest = true →
  List.filter (λ d, atRow (j + 1) d && hasType "invalid_range" d)
    (validateEntity entity allEntities)
  = if (1 <=? n)%Z && (n <=? 5)%Z then []
    else [ValidationError.Build (j + 1) "PriorityLevel" "invalid_range"
            "PriorityLevel must be between 1 and 5" error].
Proof.
  intros Hty Hj Hrow Hrest.
  rewrite (validateEntity_at_row _ _ _ _ _ Hj) by done.
  rewrite Hty. unfold rowFindings. rewrite List.filter_app.
  rewrite (ranked_filter_type clients (j + 1) 0 1 _ "invalid_range"
             (checkId_ranked clients (j + 1) row _)); [|cbn; lia|cbn; solve_no_rank].
  cbn [app laterFindings]. rewrite !List.filter_app.
  rewrite (ranked_filter_type clients (j + 1) 3 3 _ "invalid_range"
             (checkAttributesJSON_ranked (j + 1) row)); [|cbn; lia|cbn; solve_no_rank].
  rewrite (ranked_filter_type clients (j + 1) 4 4 _ "invalid_range"
             (checkRequestedTaskIDs_ranked _ (j + 1) row)); [|cbn; lia|cbn; solve_no_rank].
  rewrite !app_nil_r.
  unfold found, checkPriorityLevel. rewrite Hrow. cbn [JS.parseIntCell].
  rewrite (parseInt_intToString n rest Hrest).
  cbn [JS.isNaN JS.lt JS.gt orb].
  destruct (Z.ltb_spec n 1), (Z.ltb_spec 5 n), (Z.leb_spec 1 n), (Z.leb_spec n 5);
    try lia; reflexivity.
Qed.

Lemma priority_level_range_witness :
  let row : Row := {[ "ClientID" := "C1"; "PriorityLevel" := "7 (urgent)" ]} in
  let entity := DataEntity.Build "clients-1" clients [row] [] [] in
  List.filter (λ d, atRow 1 d && hasType "invalid_range" d) (validateEntity entity [entity])
  = [ValidationError.Build 1 "PriorityLevel" "invalid_range"
       "PriorityLevel must be between 1 and 5" error].
Proof.
  intros row entity.
  exact (priority_level_range entity [entity] 0 row 7 " (urgent)"
           eq_refl eq_refl eq_refl eq_refl).
Defined.

(** ** RuleBuilder: the form *)

Lemma numeral_char c :
  JSON.isDigit c || Ascii.eqb c "-" = true →
  JS.isWhiteSpace c = false ∧ Ascii.eqb c "," = false.
Proof. destruct c as [[] [] [] [] [] [] [] []]; try discriminate; done. Qed.

Lemma numeral_not_white c r :
  JSON.isDigit c || Ascii.eqb c "-" = true →
  JS.trimStart (String c r) = String c r ∧ JS.isWhiteSpaceChar (String c r) = false.
Proof.
  destruct c as [[] [] [] [] [] [] [] []]; try discriminate; intros _;
    (split; [reflexivity|]); destruct r as [|c1 [|c2 [|c3 r]]]; reflexivity.
Qed.

Lemma trim_numeral s : isNumeralText s = true → JS.trim s = s.
Proof.
  intros Hs. unfold JS.trim.
  replace (JS.trimStart s) with s.
  2:{ destruct s as [|c r]; [done|]. cbn [isNumeralText] in Hs.
      apply andb_true_iff in Hs as [Hc _]. by destruct (numeral_not_white c r Hc) as [-> _]. }
  induction s as [|c r IH]; [done|]. cbn [isNumeralText] in Hs. cbn [JS.trimEnd].
  apply andb_true_iff in Hs as [Hc Hr]. rewrite (IH Hr).
  by destruct (numeral_not_white c r Hc) as [_ ->].
Qed.

Lemma split_numeral_app s t :
  isNumeralText s = true → JS.split "," (s ++ String "," t) = s :: JS.split "," t.
Proof.
  intros Hs. induction s as [|c r IH]; [by rewrite append_nil|].
  cbn in Hs. apply andb_true_iff in Hs as [Hc Hr].
  rewrite append_cons. cbn [JS.split]. destruct (numeral_char c Hc) as [_ ->].
  by rewrite (IH Hr).
Qed.

Lemma split_numeral s : isNumeralText s = true → JS.split "," s = [s].
Proof.
  intros Hs. induction s as [|c r IH]; [done|].
  cbn in Hs. apply andb_true_iff in Hs as [Hc Hr].
  cbn [JS.split]. destruct (numeral_char c Hc) as [_ ->]. by rewrite (IH Hr).
Qed.

Lemma append_assoc (a b c : string) : (a ++ b) ++ c = a ++ (b ++ c).
Proof. induction a as [|x a IH]; [by rewrite !append_nil|]. by rewrite !append_cons, IH. Qed.

Lemma split_join_numerals p l t :
  Forall (λ s, isNumeralText s = true) (p :: l) →
  JS.split "," (JS.join "," (p :: l) ++ String "," t) = ((p :: l) ++ JS.split "," t)%list.
Proof.
  revert p. induction l as [|q l IH]; intros p Hl.
  - cbn [JS.join]. apply split_numeral_app. by apply Forall_inv in Hl.
  - apply Forall_cons in Hl as [Hp Hl].
    change (JS.join "," (p :: q :: l)) with (p ++ String "," (JS.join "," (q :: l))).
    rewrite append_assoc, append_cons.
    rewrite (split_numeral_app _ _ Hp). cbn [app]. f_equal.
    by apply IH.
Qed.

Lemma split_join_numerals_end p l :
  Forall (λ s, isNumeralText s = true) (p :: l) →
  JS.split "," (JS.join "," (p :: l)) = p :: l.
Proof.
  revert p. induction l as [|q l IH]; intros p Hl.
  - cbn [JS.join]. apply split_numeral. by apply Forall_inv in Hl.
  - apply Forall_cons in Hl as [Hp Hl].
    change (JS.join "," (p :: q :: l)) with (p ++ String "," (JS.join "," (q :: l))).
    rewrite (split_numeral_app _ _ Hp). f_equal. by apply IH.
Qed.

Lemma append_empty (s : string) : s ++ "" = s.
Proof. induction s as [|c r IH]; [done|]. by rewrite append_cons, IH. Qed.

Lemma allowedPhases_numerals (zs : list Z) :
  List.filter (λ p, negb (JS.isNaN p))
    ((λ p, JS.parseInt (JS.trim p)) <$> (JS.intToString <$> zs))
  = JS.Num <$> zs.
Proof.
  induction zs as [|z zs IH]; [done|]. cbn [fmap list_fmap].
  rewrite (trim_numeral _ (isNumeralText_intToString z)).
  pose proof (parseInt_intToString z "" eq_refl) as Hz.
  rewrite append_empty in Hz.
  rewrite Hz. cbn [List.filter JS.isNaN negb]. f_equal. exact IH.
Qed.

(** X9. The allowed-phases input of a phase window shows what it stores
    and stores what it shows: the text it shows for a stored list of
    integers (in the range where JavaScript numbers are exact) is read
    back, by its own change handler, as that list. A comma typed at the end
    of the shown text is read back as the same list, so the input shows the
    same text again. *)
Theorem allowed_phases_round_trip (zs : list Z) :
  Forall (λ z, (- 2 ^ 53 < z < 2 ^ 53)%Z) zs →
  RuleBuilder.allowedPhasesOnChange (RuleBuilder.allowedPhasesValue (Some (JS.Num <$> zs)))
  = JS.Num <$> zs
  ∧ RuleBuilder.allowedPhasesOnChange
      (RuleBuilder.allowedPhasesValue (Some (JS.Num <$> zs)) ++ ",")
    = JS.Num <$> zs.
Proof.
  intros _.
  unfold RuleBuilder.allowedPhasesOnChange, RuleBuilder.allowedPhasesValue.
  rewrite <- list_fmap_compose.
  change (JS.numberToString ∘ JS.Num) with JS.intToString.
  destruct zs as [|z zs]; [done|].
  assert (Hnum : Forall (λ s, isNumeralText s = true)
                   (JS.intToString z :: (JS.intToString <$> zs))).
  { rewrite <- fmap_cons. apply Forall_fmap, Forall_forall.
    intros x _. apply isNumeralText_intToString. }
  rewrite !fmap_cons.
  split.
  - rewrite (split_join_numerals_end _ _ Hnum). rewrite <- !fmap_cons.
    apply allowedPhases_numerals.
  - rewrite (split_join_numerals _ _ "" Hnum). rewrite fmap_app, List.filter_app.
    rewrite <- !fmap_cons. rewrite allowedPhases_numerals. by rewrite app_nil_r.
Qed.

Lemma allowed_phases_round_trip_witness :
  RuleBuilder.allowedPhasesOnChange "1,2,10," = [JS.Num 1; JS.Num 2; JS.Num 10].
Proof.
  exact (proj2 (allowed_phases_round_trip [1; 2; 10]%Z ltac:(repeat constructor; lia))).
Defined.

(** X10. An interpreted rule can always be added: after
    [processNaturalLanguageRule] has accepted a description that is not
    blank (not empty once its white space is trimmed), [handleAddRule] is
    never refused. It appends one rule to the rules of the page, with the
    description as typed, the type and the name the interpreter suggested
    and an id made of the clock reading, a safe integer, and resets the
    form. *)
Theorem interpreted_rule_is_added now f rules :
  JS.trim (RuleBuilder.naturalLanguageRule f) ≠ "" →
  safeInteger now →
  RuleBuilder.handleAddRule now (RuleBuilder.processNaturalLanguageRule f) rules
  = (RuleBuilder.Form "" "" "" [] "",
     (rules
        ++ [let suggested := RuleBuilder.suggestedRule (RuleBuilder.naturalLanguageRule f) in
            Rule.Build ("rule-" ++ JS.intToString now)
              (ruleTypeName (BusinessRule.type suggested))
              (BusinessRule.name suggested)
              (RuleBuilder.naturalLanguageRule f)
              (BusinessRule.parameters suggested)])%list).
Proof.
  intros Htext _. unfold RuleBuilder.processNaturalLanguageRule.
  destruct (JS.trim (RuleBuilder.naturalLanguageRule f)) as [|c r]; [done|].
  unfold RuleBuilder.handleAddRule, RuleBuilder.suggestedRule, RuleBuilder.orEmpty.
  repeat (match goal with
          | |- context [if JS.includes ?a ?b || ?c then _ else _] =>
              destruct (JS.includes a b || c); [reflexivity|]
          end).
  reflexivity.
Qed.

Lemma interpreted_rule_is_added_witness :
  let f := RuleBuilder.Form "" "" "" [] "Tasks T1 and T2 must run together" in
  snd (RuleBuilder.handleAddRule 1700000000000 (RuleBuilder.processNaturalLanguageRule f) [])
  = [Rule.Build "rule-1700000000000" "coRun" "Co-run Rule"
       "Tasks T1 and T2 must run together" [("tasks", JSON.JArr [])]].
Proof.
  intros f.
  rewrite (interpreted_rule_is_added 1700000000000 f [] ltac:(vm_compute; discriminate)
             ltac:(unfold safeInteger; lia)).
  vm_compute. reflexivity.
Defined.

(** X11. Adding a rule and then removing it by its id restores the rules
    of the page, provided no rule already had that id. The ids are made of
    the clock reading alone, so a rule added at the same reading as an
    earlier one shares its id, and removing either removes both. *)
Theorem add_then_remove_rule now f rules f' rules' :
  RuleBuilder.handleAddRule now f rules = (f', rules') →
  rules' ≠ rules →
  RuleBuilder.handleRemoveRule ("rule-" ++ JS.intToString now) rules'
  = RuleBuilder.handleRemoveRule ("rule-" ++ JS.intToString now) rules
  ∧ (Forall (λ rule, Rule.id rule ≠ "rule-" ++ JS.intToString now) rules →
     RuleBuilder.handleRemoveRule ("rule-" ++ JS.intToString now) rules' = rules).
Proof.
  unfold RuleBuilder.handleAddRule. case_match; intros [= <- <-] Hne; [done|].
  assert (Hrm : RuleBuilder.handleRemoveRule ("rule-" ++ JS.intToString now)
                  (rules ++ [Rule.Build ("rule-" ++ JS.intToString now)
                               (RuleBuilder.selectedRuleType f) (RuleBuilder.ruleName f)
                               (RuleBuilder.ruleDescription f) (RuleBuilder.ruleParameters f)])
                = RuleBuilder.handleRemoveRule ("rule-" ++ JS.intToString now) rules).
  { unfold RuleBuilder.handleRemoveRule. rewrite List.filter_app. cbn [List.filter Rule.id].
    by rewrite String.eqb_refl, app_nil_r. }
  split; [exact Hrm|]. intros Hfresh. rewrite Hrm.
  apply filter_all. eapply Forall_impl; [exact Hfresh|].
  intros rule Hid. apply negb_true_iff. by apply String.eqb_neq.
Qed.

Lemma add_then_remove_rule_witness :
  let f := RuleBuilder.Form "loadLimit" "Cap" "at most 3" [] "" in
  let old := Rule.Build "rule-5" "coRun" "Pair" "" [] in
  RuleBuilder.handleRemoveRule "rule-7" (snd (RuleBuilder.handleAddRule 7 f [old])) = [old].
Proof.
  intros f old.
  refine (proj2 (add_then_remove_rule 7 f [old] _ _ eq_refl _) _).
  - vm_compute. discriminate.
  - repeat constructor. vm_compute. discriminate.
Defined.

(** ** The query engine: what a search returns *)

Lemma find_elem {A : Type} (p : A → bool) (l : list A) x :
  List.find p l = Some x → x ∈ l ∧ p x = true.
Proof. intros H. apply List.find_some in H as [H1 H2]. split; [by apply list_elem_of_In|done]. Qed.

Lemma findEntityByType_elem entityType entities e :
  SearchPanel.findEntityByType entityType entities = Some e → e ∈ entities.
Proof.
  unfold SearchPanel.findEntityByType. destruct (List.find _ _) as [[w ty]|]; [|done].
  by intros [? _]%find_elem.
Qed.

Lemma filter_uploadedRow (p : Row → bool) entities e r :
  e ∈ entities → r ∈ List.filter p (DataEntity.data e) → uploadedRow entities r.
Proof.
  intros He Hr. exists e. split; [done|].
  apply list_elem_of_In, List.filter_In in Hr as [Hr _]. by apply list_elem_of_In.
Qed.

Ltac solve_selects :=
  match goal with
  | |- context [SearchPanel.findEntityByType ?w ?entities] =>
      let E := fresh "E" in
      destruct (SearchPanel.findEntityByType w entities) as [e|] eqn:E;
      [apply findEntityByType_elem in E|by intros ?%elem_of_nil]
  end;
  repeat case_match; try (by intros ?%elem_of_nil);
  by apply filter_uploadedRow.

Lemma processCondition_selects entityType condition entities r :
  r ∈ SearchPanel.processCondition entityType condition entities → uploadedRow entities r.
Proof. unfold SearchPanel.processCondition. solve_selects. Qed.

Lemma processComparison_selects entityType field operator value entities r :
  r ∈ SearchPanel.processComparison entityType field operator value entities →
  uploadedRow entities r.
Proof. unfold SearchPanel.processComparison. solve_selects. Qed.

Lemma processGroupFilter_selects entityType groupName entities r :
  r ∈ SearchPanel.processGroupFilter entityType groupName entities → uploadedRow entities r.
Proof. unfold SearchPanel.processGroupFilter. solve_selects. Qed.

Lemma processPhaseFilter_selects entityType phases entities r :
  r ∈ SearchPanel.processPhaseFilter entityType phases entities → uploadedRow entities r.
Proof. unfold SearchPanel.processPhaseFilter. solve_selects. Qed.

Lemma processSkillFilter_selects entityType skillsText entities r :
  r ∈ SearchPanel.processSkillFilter entityType skillsText entities → uploadedRow entities r.
Proof. unfold SearchPanel.processSkillFilter. solve_selects. Qed.

Lemma queryPatterns_select :
  Forall (λ p, ∀ m data r, r ∈ SearchPanel.processor p m data → uploadedRow data r)
         SearchPanel.queryPatterns.
Proof.
  unfold SearchPanel.queryPatterns.
  repeat constructor; intros m data r; cbn [SearchPanel.processor];
    eauto using processCondition_selects, processComparison_selects,
      processGroupFilter_selects, processPhaseFilter_selects, processSkillFilter_selects.
Qed.

Lemma firstMatch_selects patterns query data results insight :
  Forall (λ p, ∀ m data r, r ∈ SearchPanel.processor p m data → uploadedRow data r) patterns →
  SearchPanel.firstMatch patterns query data = Some (results, insight) →
  Forall (uploadedRow data) results.
Proof.
  induction 1 as [|p patterns Hp _ IH]; cbn; [done|].
  destruct (RegExp.exec true _ _ query) as [m|]; [|exact IH].
  intros [= <- _]. apply Forall_forall. intros r. apply Hp.
Qed.

Lemma lowerChar_idemp c : JS.lowerChar (JS.lowerChar c) = JS.lowerChar c.
Proof. by destruct c as [[] [] [] [] [] [] [] []]. Qed.

Lemma toLowerCase_idemp s : JS.toLowerCase (JS.toLowerCase s) = JS.toLowerCase s.
Proof. induction s as [|c r IH]; [done|]. cbn. by rewrite lowerChar_idemp, IH. Qed.

Lemma includes_ignoring_case value query :
  JS.includes (JS.toLowerCase value) (JS.toLowerCase query) = true
  ↔ containsIgnoringCase value query.
Proof.
  rewrite (includes_toLowerCase value (JS.toLowerCase query) (toLowerCase_idemp query)).
  unfold containsIgnoringCase. by setoid_rewrite toLowerCase_idemp.
Qed.

(** A row the text search returns is a row of an uploaded entity, tagged
    with the kind of its entity. *)
Lemma fallbackSearch_row query data r :
  r ∈ SearchPanel.fallbackSearch query data →
  ∃ entity row,
    entity ∈ data
    ∧ row ∈ DataEntity.data entity
    ∧ r = <["_entityType" := typeName (DataEntity.type entity)]> row.
Proof.
  unfold SearchPanel.fallbackSearch. rewrite list_elem_of_In, List.in_flat_map.
  intros (entity & He & Hr). apply list_elem_of_In in He, Hr.
  apply list_elem_of_fmap in Hr as (row & -> & Hrow).
  apply list_elem_of_In, List.filter_In in Hrow as [Hrow _].
  exists entity, row. split; [done|]. split; [by apply list_elem_of_In|done].
Qed.

(** X12. The text search returns the rows that hold the query somewhere.
    For a query and cells within ASCII, a row is returned exactly when it
    is a row of an uploaded entity one of whose cells contains the query,
    letter case set aside; it is returned with the kind of its entity
    under [_entityType]. *)
Theorem fallbackSearch_finds_text query data r :
  isAscii query = true →
  (∀ entity row column value,
     entity ∈ data → row ∈ DataEntity.data entity → row !! column = Some value →
     isAscii value = true) →
  r ∈ SearchPanel.fallbackSearch query data
  ↔ ∃ entity row,
      entity ∈ data
      ∧ row ∈ DataEntity.data entity
      ∧ (∃ column value, row !! column = Some value ∧ containsIgnoringCase value query)
      ∧ r = <["_entityType" := typeName (DataEntity.type entity)]> row.
Proof.
  intros _ _.
  unfold SearchPanel.fallbackSearch. rewrite list_elem_of_In, List.in_flat_map.
  split.
  - intros (entity & He & Hr). apply list_elem_of_In in He, Hr.
    apply list_elem_of_fmap in Hr as (row & -> & Hrow).
    apply list_elem_of_In, List.filter_In in Hrow as [Hrow Hmatch].
    apply existsb_exists in Hmatch as (value & Hv & Hinc).
    apply list_elem_of_In, list_elem_of_fmap in Hv as ([column value'] & -> & Hcv).
    apply elem_of_map_to_list in Hcv. cbn in Hinc.
    exists entity, row. split; [done|]. split; [by apply list_elem_of_In|]. split; [|done].
    exists column, value'. split; [done|]. by apply includes_ignoring_case.
  - intros (entity & row & He & Hrow & (column & value & Hcv & Hinc) & ->).
    exists entity. split; [by apply list_elem_of_In|].
    apply list_elem_of_In, list_elem_of_fmap. exists row. split; [done|].
    apply list_elem_of_In, List.filter_In. split; [by apply list_elem_of_In|].
    apply existsb_exists. exists value. split.
    + apply list_elem_of_In, list_elem_of_fmap. exists (column, value). split; [done|].
      by apply elem_of_map_to_list.
    + by apply includes_ignoring_case.
Qed.

Lemma fallbackSearch_finds_text_witness :
  let task : Row := {[ "TaskID" := "T1"; "TaskName" := "Paint the Fence" ]} in
  let entity := DataEntity.Build "tasks-1" tasks [task] [] [] in
  <["_entityType" := "tasks"]> task ∈ SearchPanel.fallbackSearch "fence" [entity].
Proof.
  intros task entity. apply fallbackSearch_finds_text.
  { reflexivity. }
  { intros e row column value ->%list_elem_of_singleton ->%list_elem_of_singleton Hcell.
    apply (map_Forall_lookup_1 (λ _ v, isAscii v = true) task column value); [|exact Hcell].
    apply (bool_decide_unpack _). vm_compute. exact I. }
  exists entity, task. split; [left|]. split; [left|]. split; [|reflexivity].
  exists "TaskName", "Paint the Fence". split; [reflexivity|].
  exists "Paint the ", "Fence", "". split; reflexivity.
Defined.

(** X13. A search never makes up a row: every result of
    [processNaturalLanguageQuery] is a row of an uploaded entity with a
    tag put under [_entityType]. The tag is the kind of the entity when
    the text search found the row; a row selected by a pattern keeps its
    own [_entityType] cell when it has one that is not empty, and is
    tagged "unknown" otherwise. *)
Theorem query_results_are_uploaded_rows query data r :
  r ∈ fst (SearchPanel.processNaturalLanguageQuery query data) →
  ∃ entity row,
    entity ∈ data
    ∧ row ∈ DataEntity.data entity
    ∧ (r = <["_entityType" := typeName (DataEntity.type entity)]> row
       ∨ r = <["_entityType" := match row !! "_entityType" with
                                | Some (String _ _ as ty) => ty
                                | _ => "unknown"
                                end]> row).
Proof.
  unfold SearchPanel.processNaturalLanguageQuery.
  pose proof (processQueryWith_cases SearchPanel.queryPatterns query data) as Hcases.
  cbn zeta in Hcases.
  assert (Hfall : ∀ r0, r0 ∈ SearchPanel.fallbackSearch query data →
            ∃ entity row, entity ∈ data ∧ row ∈ DataEntity.data entity
              ∧ <["_entityType" := match r0 !! "_entityType" with
                                   | Some (String _ _ as ty) => ty
                                   | _ => "unknown"
                                   end]> r0
                = <["_entityType" := typeName (DataEntity.type entity)]> row).
  { intros r0 (entity & row & He & Hrow & ->)%fallbackSearch_row.
    exists entity, row. split; [done|]. split; [done|].
    rewrite lookup_insert_eq, insert_insert_eq. by destruct (DataEntity.type entity). }
  destruct (SearchPanel.firstMatch SearchPanel.queryPatterns query data)
    as [[[|row0 rows] insight]|] eqn:Em; rewrite Hcases; cbn [fst].
  - intros (r0 & -> & Hr0)%list_elem_of_fmap.
    destruct (Hfall r0 Hr0) as (entity & row & He & Hrow & ->). eauto 6.
  - intros (r0 & -> & Hr0)%list_elem_of_fmap.
    pose proof (firstMatch_selects _ _ _ _ _ queryPatterns_select Em) as Hsel.
    rewrite Forall_forall in Hsel. destruct (Hsel r0 Hr0) as (entity & He & Hrow).
    exists entity, r0. auto.
  - intros (r0 & -> & Hr0)%list_elem_of_fmap.
    destruct (Hfall r0 Hr0) as (entity & row & He & Hrow & ->). eauto 6.
Qed.

Lemma query_results_are_uploaded_rows_witness :
  let worker : Row := {[ "WorkerID" := "W1"; "WorkerGroup" := "alpha" ]} in
  let data := [DataEntity.Build "workers-1" workers [worker] [] []] in
  let r : Row := <["_entityType" := "unknown"]> worker in
  r ∈ fst (SearchPanel.processNaturalLanguageQuery "workers in team alpha" data)
  ∧ ∃ entity row, entity ∈ data ∧ row ∈ DataEntity.data entity.
Proof.
  intros worker data r.
  assert (Hr : r ∈ fst (SearchPanel.processNaturalLanguageQuery "workers in team alpha" data)).
  { vm_compute. left. }
  split; [exact Hr|].
  destruct (query_results_are_uploaded_rows _ _ _ Hr) as (entity & row & He & Hrow & _).
  by exists entity, row.
Defined.

(** ** FileUpload: column mapping *)

Lemma isPossibleName_spec names header :
  FileUpload.isPossibleName names header = true
  ↔ FileUpload.stripOthers (JS.toLowerCase header) ∈ FileUpload.stripOthers <$> names.
Proof.
  unfold FileUpload.isPossibleName. rewrite existsb_exists, list_elem_of_fmap.
  split.
  - intros (possible & Hin & Heq). apply String.eqb_eq in Heq.
    exists possible. split; [done|]. by apply list_elem_of_In.
  - intros (possible & Heq & Hin). exists possible.
    split; [by apply list_elem_of_In|]. by apply String.eqb_eq.
Qed.

(** Every entry of [headerMap] sends an original header to a standard
    header one of whose possible names it is. *)
Lemma headerMap_fold_claims (mapping entries : list (string * list string)) headers
    (acc : gmap string string) k S :
  (∀ entry, entry ∈ entries → entry ∈ mapping) →
  (∀ k S, acc !! k = Some S →
          ∃ names, (S, names) ∈ mapping ∧ FileUpload.isPossibleName names k = true) →
  foldl (λ headerMap entry,
           match List.find (FileUpload.isPossibleName (snd entry)) headers with
           | Some (String _ _ as matchedHeader) => <[matchedHeader := fst entry]> headerMap
           | _ => headerMap
           end) acc entries !! k = Some S →
  ∃ names, (S, names) ∈ mapping ∧ FileUpload.isPossibleName names k = true.
Proof.
  revert acc. induction entries as [|[S' names'] entries IH]; intros acc Hsub Hacc; cbn.
  - apply Hacc.
  - apply IH.
    + intros entry He. apply Hsub. by right.
    + intros k0 S0. destruct (List.find _ headers) as [[|c m]|] eqn:Ef; try apply Hacc.
      cbn [fst snd]. intros Hk0.
      destruct (decide (String c m = k0)) as [<-|Hne].
      * rewrite lookup_insert_eq in Hk0. injection Hk0 as <-.
        exists names'. split; [apply Hsub; by left|].
        by apply find_elem in Ef as [_ ?].
      * rewrite lookup_insert_ne in Hk0 by done. by apply Hacc.
Qed.

Lemma headerMapOf_claims mapping headers k S :
  FileUpload.headerMapOf mapping headers !! k = Some S →
  ∃ names, (S, names) ∈ mapping ∧ FileUpload.isPossibleName names k = true.
Proof.
  unfold FileUpload.headerMapOf. apply headerMap_fold_claims; [done|].
  intros k0 S0 H. by rewrite lookup_empty in H.
Qed.

(** No standard header is a possible name of another standard header of
    its kind. *)
Lemma standard_header_own_name ty h S names :
  h ∈ standardHeaders ty → (S, names) ∈ FileUpload.columnMappings ty →
  FileUpload.isPossibleName names h = true → S = h.
Proof.
  intros Hh HS Hp.
  assert (Hall : forallb (λ h, forallb (λ entry : string * list string,
                                          implb (FileUpload.isPossibleName (snd entry) h)
                                                (String.eqb (fst entry) h))
                                       (FileUpload.columnMappings ty))
                         (standardHeaders ty) = true).
  { by destruct ty; vm_compute. }
  rewrite forallb_forall in Hall. specialize (Hall h ltac:(by apply list_elem_of_In)).
  rewrite forallb_forall in Hall. specialize (Hall (S, names) ltac:(by apply list_elem_of_In)).
  cbn [fst snd] in Hall. rewrite Hp in Hall. by apply String.eqb_eq.
Qed.

Lemma standard_header_kept ty headers h :
  h ∈ standardHeaders ty →
  default h (FileUpload.headerMapOf (FileUpload.columnMappings ty) headers !! h) = h.
Proof.
  intros Hh. destruct (FileUpload.headerMapOf _ headers !! h) as [S|] eqn:E; [|done].
  apply headerMapOf_claims in E as (names & HS & Hp). cbn.
  by apply (standard_header_own_name ty h S names).
Qed.

Lemma renameRow_fold_keeps (headerMap : gmap string string) (row : FileUpload.RawRow)
    (acc : Row) t :
  is_Some (acc !! t) →
  is_Some (foldl (λ newRow cell,
                    <[default (fst cell) (headerMap !! fst cell) := snd cell]> newRow)
                 acc row !! t).
Proof.
  revert acc. induction row as [|[k v] row IH]; intros acc Hacc; cbn; [done|].
  apply IH. cbn. destruct (decide (default k (headerMap !! k) = t)) as [->|Hne].
  - rewrite lookup_insert_eq. eauto.
  - by rewrite lookup_insert_ne.
Qed.

(** Every cell of the raw row lands in the new row, under the standard
    header its header is mapped to, or under its own header. *)
Lemma renameRow_keys headerMap (row : FileUpload.RawRow) k :
  k ∈ fst <$> row →
  is_Some (FileUpload.renameRow headerMap row !! default k (headerMap !! k)).
Proof.
  unfold FileUpload.renameRow. generalize (∅ : Row).
  induction row as [|[k' v] row IH]; intros acc; cbn; [by intros ?%elem_of_nil|].
  intros [->|Hk]%elem_of_cons; [|by apply IH].
  apply renameRow_fold_keeps. cbn. rewrite lookup_insert_eq. eauto.
Qed.

Lemma standardHeaders_required ty column :
  column ∈ requiredColumns ty → column ∈ standardHeaders ty.
Proof.
  destruct ty; cbn; rewrite !elem_of_cons, !elem_of_nil;
    intros H; repeat (destruct H as [->|H]; [auto 10|]); done.
Qed.

Lemma validateEntity_missing_column entity allEntities d :
  d ∈ validateEntity entity allEntities →
  ValidationError.type d = "missing_column" →
  ∃ first rest,
    DataEntity.data entity = first :: rest
    ∧ ValidationError.column d ∈ requiredColumns (DataEntity.type entity)
    ∧ first !! ValidationError.column d = None.
Proof.
  rewrite validateEntity_blocks, checkRequiredColumns_spec. cbn [app].
  intros [Hd|Hd]%elem_of_app Ht.
  - unfold missingColumnFindings in Hd.
    destruct (DataEntity.data entity) as [|first rest]; [by apply elem_of_nil in Hd|].
    apply list_elem_of_fmap in Hd as (column & -> & Hc).
    apply list_elem_of_In, List.filter_In in Hc as [Hc Hnone].
    apply bool_decide_eq_true in Hnone.
    exists first, rest. split; [done|]. split; [by apply list_elem_of_In|done].
  - exfalso.
    pose proof (blocksFrom_no_missing_column (DataEntity.type entity) allEntities
                  (DataEntity.data entity) ∅ 0) as Hnone.
    assert (Hin : d ∈ List.filter (hasType "missing_column")
                        (blocksFrom (DataEntity.type entity) allEntities ∅ 0
                           (DataEntity.data entity))).
    { apply list_elem_of_In, List.filter_In. split; [by apply list_elem_of_In|].
      unfold hasType. rewrite Ht. reflexivity. }
    rewrite Hnone in Hin. by apply elem_of_nil in Hin.
Qed.

(** X14. The column mapping never hides a column: when the first row of a
    decoded file has a column under some header, validation of the mapped
    rows reports no [missing_column] finding for that header. In
    particular a required column that the file carries under its standard
    name is never reported missing, whatever other headers the file has
    and whatever they are mapped to. *)
Theorem present_column_not_reported_missing ty first rest id allEntities column d :
  column ∈ fst <$> first →
  d ∈ validateEntity
        (DataEntity.Build id ty (FileUpload.intelligentColumnMapping (first :: rest) ty) [] [])
        allEntities →
  ValidationError.type d = "missing_column" →
  ValidationError.column d ≠ column.
Proof.
  intros Hcol Hd Ht Heq.
  apply validateEntity_missing_column in Hd as (first' & rest' & Hdata & Hreq & Hnone); [|done].
  cbn [DataEntity.data DataEntity.type FileUpload.intelligentColumnMapping fmap list_fmap]
    in Hdata, Hreq.
  injection Hdata as <- _. rewrite Heq in Hreq, Hnone.
  pose proof (renameRow_keys
                (FileUpload.headerMapOf (FileUpload.columnMappings ty) (fst <$> first))
                first column Hcol) as Hsome.
  rewrite (standard_header_kept ty _ column (standardHeaders_required _ _ Hreq)) in Hsome.
  rewrite Hnone in Hsome. by destruct Hsome.
Qed.

Lemma present_column_not_reported_missing_witness :
  let first := [("id", "7"); ("ClientID", "C1"); ("Name", "Acme")] in
  let entity :=
    DataEntity.Build "clients-1" clients (FileUpload.intelligentColumnMapping [first] clients)
      [] [] in
  let d :=
    ValidationError.Build 1 "PriorityLevel" "missing_column"
      "Required column 'PriorityLevel' is missing" error in
  d ∈ validateEntity entity [entity] ∧ ValidationError.column d ≠ "ClientID".
Proof.
  intros first entity d.
  assert (Hd : d ∈ validateEntity entity [entity]).
  { apply (bool_decide_unpack _). vm_compute. exact I. }
  split; [exact Hd|].
  apply (present_column_not_reported_missing clients first [] "clients-1" [entity] "ClientID" d).
  - apply (bool_decide_unpack _). vm_compute. exact I.
  - exact Hd.
  - reflexivity.
Defined.








(** ** FileUpload: files without rows *)

(** X16. A file that decodes to no row at all is treated by its
    extension: as a CSV file whose name tells its kind it is uploaded as an
    entity without rows, which validation passes without a finding; as a
    spreadsheet it is refused. *)
Theorem file_without_rows name :
  (FileUpload.fileExtension name = Some "csv" →
   ∀ ty, FileUpload.detectEntityType name [] = Some ty →
     FileUpload.parseFile name (Some []) = Some (ty, [])
     ∧ ∀ id allEntities, validateEntity (DataEntity.Build id ty [] [] []) allEntities = [])
  ∧ (FileUpload.fileExtension name = Some "xlsx" ∨ FileUpload.fileExtension name = Some "xls" →
     FileUpload.parseFile name (Some []) = None).
Proof.
  split.
  - intros Hext ty Hty. unfold FileUpload.parseFile. rewrite Hext, Hty. split; [done|].
    intros id allEntities. rewrite validateEntity_blocks, checkRequiredColumns_spec. done.
  - intros [Hext|Hext]; unfold FileUpload.parseFile; rewrite Hext; cbn;
      by destruct (FileUpload.detectEntityType name []).
Qed.

Lemma file_without_rows_witness :
  FileUpload.parseFile "Clients.CSV" (Some []) = Some (clients, [])
  ∧ FileUpload.parseFile "clients.xlsx" (Some []) = None.
Proof.
  split.
  - exact (proj1 (proj1 (file_without_rows "Clients.CSV") eq_refl clients eq_refl)).
  - exact (proj2 (file_without_rows "clients.xlsx") (or_introl eq_refl)).
Defined.

(** ** Phase lists: what [JSON.parse] makes of a list of integers *)

Lemma to_uint_leading p :
  match Pos.to_uint p with
  | Decimal.Nil | Decimal.D0 _ => False
  | _ => True
  end.
Proof.
  pose proof (DecimalPos.Unsigned.to_of (Pos.to_uint p)) as Hto.
  rewrite DecimalPos.Unsigned.of_to in Hto. cbn [N.to_uint] in Hto.
  pose proof (DecimalPos.Unsigned.to_uint_nonzero p) as Hnz.
  destruct (Pos.to_uint p) as [|d|d|d|d|d|d|d|d|d|d] eqn:E; try done.
  unfold Decimal.unorm in Hto. rewrite DecimalFacts.nzhead_D0 in Hto.
  destruct (Decimal.nzhead d) eqn:En; try discriminate.
  - injection Hto as ->. by apply Hnz.
  - exact (DecimalFacts.nzhead_nonzero _ _ En).
Qed.

Lemma digitRun_stop rest acc len :
  endsJsonNumber rest = true → JSON.digitRun rest acc len = (acc, len, rest).
Proof.
  destruct rest as [|c rest]; [done|]. cbn [endsJsonNumber JSON.digitRun].
  by destruct (JSON.isDigit c).
Qed.

Lemma digitRun_step c k r acc len :
  JSON.isDigit c = true → (Z.of_nat (nat_of_ascii c) - 48)%Z = k →
  JSON.digitRun (String c r) acc len = JSON.digitRun r (10 * acc + k)%Z (len + 1)%Z.
Proof. intros Hc <-. cbn [JSON.digitRun]. rewrite Hc. f_equal. lia. Qed.

Lemma digitRun_uint d rest acc len :
  endsJsonNumber rest = true →
  JSON.digitRun (NilEmpty.string_of_uint d ++ rest) acc len
  = (digitsValue d acc, (len + Z.of_nat (Decimal.nb_digits d))%Z, rest).
Proof.
  intros Hrest. revert acc len.
  induction d as [|d IH|d IH|d IH|d IH|d IH|d IH|d IH|d IH|d IH|d IH]; intros acc len;
    cbn [NilEmpty.string_of_uint digitsValue Decimal.nb_digits];
    rewrite ?append_nil, ?append_cons;
    [rewrite (digitRun_stop _ _ _ Hrest); by rewrite Z.add_0_r|..];
    first [ rewrite (digitRun_step _ 0%Z) by reflexivity
          | rewrite (digitRun_step _ 1%Z) by reflexivity
          | rewrite (digitRun_step _ 2%Z) by reflexivity
          | rewrite (digitRun_step _ 3%Z) by reflexivity
          | rewrite (digitRun_step _ 4%Z) by reflexivity
          | rewrite (digitRun_step _ 5%Z) by reflexivity
          | rewrite (digitRun_step _ 6%Z) by reflexivity
          | rewrite (digitRun_step _ 7%Z) by reflexivity
          | rewrite (digitRun_step _ 8%Z) by reflexivity
          | rewrite (digitRun_step _ 9%Z) by reflexivity ];
    rewrite IH, ?Z.add_0_r;
    replace (len + Z.of_nat (S (Decimal.nb_digits d)))%Z
      with (len + 1 + Z.of_nat (Decimal.nb_digits d))%Z by lia;
    reflexivity.
Qed.

Lemma endsJsonNumber_afterChar rest :
  endsJsonNumber rest = true →
  JSON.afterChar "." rest = None ∧ JSON.afterChar "e" rest = None
  ∧ JSON.afterChar "E" rest = None.
Proof.
  destruct rest as [|c rest]; [done|]. cbn [endsJsonNumber JSON.afterChar].
  destruct (Ascii.eqb c "."), (Ascii.eqb c "e"), (Ascii.eqb c "E"), (JSON.isDigit c); done.
Qed.

Lemma parseNumberBody_tail n rest :
  endsJsonNumber rest = true →
  match JSON.parseFraction n rest with
  | None => None
  | Some (m, flen, r1) =>
      match JSON.parseExponent r1 with
      | None => None
      | Some (e, r2) => Some (JSON.Decimal m (e - flen), r2)
      end
  end = Some (JSON.Decimal n 0, rest).
Proof.
  intros Hrest. destruct (endsJsonNumber_afterChar rest Hrest) as (Hdot & He & HE).
  unfold JSON.parseFraction, JSON.parseExponent. by rewrite Hdot, He, HE.
Qed.

Lemma parseNumberBody_uint d rest :
  match d with Decimal.Nil | Decimal.D0 _ => False | _ => True end →
  endsJsonNumber rest = true →
  JSON.afterChar "-" (NilEmpty.string_of_uint d ++ rest) = None
  ∧ JSON.parseNumberBody (NilEmpty.string_of_uint d ++ rest)
    = Some (JSON.Decimal (digitsValue d 0) 0, rest).
Proof.
  intros Hd Hrest.
  assert (Hzero : JSON.afterChar "0" (NilEmpty.string_of_uint d ++ rest) = None
                  ∧ JSON.afterChar "-" (NilEmpty.string_of_uint d ++ rest) = None).
  { destruct d; try done; cbn [NilEmpty.string_of_uint]; by rewrite append_cons. }
  destruct Hzero as [Hzero Hminus]. split; [done|].
  unfold JSON.parseNumberBody, JSON.parseIntegerPart, JSON.digits.
  rewrite Hzero, (digitRun_uint d rest 0 0 Hrest).
  replace (0 + Z.of_nat (Decimal.nb_digits d) =? 0)%Z with false
    by (destruct d; try done; cbn [Decimal.nb_digits]; symmetry; apply Z.eqb_neq; lia).
  by apply parseNumberBody_tail.
Qed.

(** [JSON.parse] reads the numeral of an integer as that integer. *)
Lemma parseNumber_intToString z rest :
  endsJsonNumber rest = true →
  JSON.parseNumber (JS.intToString z ++ rest) = Some (JSON.Decimal z 0, rest).
Proof.
  intros Hrest. unfold JSON.parseNumber. destruct z as [|p|p].
  - change (JS.intToString 0) with "0". rewrite append_cons, append_nil.
    cbn [JSON.afterChar]. change (Ascii.eqb "0" "-") with false. cbv iota.
    unfold JSON.parseNumberBody, JSON.parseIntegerPart. cbn [JSON.afterChar].
    change (Ascii.eqb "0" "0") with true. cbv iota. by apply parseNumberBody_tail.
  - rewrite intToString_pos.
    destruct (parseNumberBody_uint (Pos.to_uint p) rest (to_uint_leading p) Hrest) as [-> ->].
    by rewrite to_uint_value.
  - rewrite intToString_neg, append_cons. cbn [JSON.afterChar].
    change (Ascii.eqb "-" "-") with true. cbv iota.
    destruct (parseNumberBody_uint (Pos.to_uint p) rest (to_uint_leading p) Hrest) as [_ ->].
    cbn [JSON.mant JSON.expo]. by rewrite to_uint_value.
Qed.

Lemma numeral_first z rest :
  ∃ c r, JS.intToString z ++ rest = String c r ∧ (JSON.isDigit c || Ascii.eqb c "-") = true.
Proof.
  pose proof (isNumeralText_intToString z) as Hz.
  destruct (JS.intToString z) as [|c r] eqn:E.
  - destruct z; [done|rewrite intToString_pos in E|rewrite intToString_neg in E]; [|done].
    pose proof (to_uint_leading p). by destruct (Pos.to_uint p).
  - exists c, (r ++ rest). rewrite append_cons. split; [done|].
    cbn in Hz. by apply andb_true_iff in Hz as [? _].
Qed.

Lemma skipSpace_gap gap s : JSON.skipSpace gap = "" → JSON.skipSpace (gap ++ s) = JSON.skipSpace s.
Proof.
  induction gap as [|c gap IH]; [by rewrite append_nil|].
  rewrite append_cons. cbn [JSON.skipSpace]. destruct (JSON.isJsonSpace c); [exact IH|done].
Qed.

(** A value that is the numeral of an integer. *)
Lemma parseValue_intToString fuel gap z rest :
  JSON.skipSpace gap = "" → endsJsonNumber rest = true →
  JSON.parseValue (S fuel) (gap ++ JS.intToString z ++ rest)
  = Some (JSON.JNum (JSON.Decimal z 0), rest).
Proof.
  intros Hgap Hrest. rewrite parseValue_S. cbn zeta. rewrite (skipSpace_gap _ _ Hgap).
  destruct (numeral_first z rest) as (c & r & Heq & Hc).
  assert (Hskip : JSON.skipSpace (JS.intToString z ++ rest) = JS.intToString z ++ rest).
  { rewrite Heq. cbn [JSON.skipSpace].
    by destruct c as [[] [] [] [] [] [] [] []]. }
  rewrite Hskip, (parseNumber_intToString z rest Hrest), Heq.
  by destruct c as [[] [] [] [] [] [] [] []].
Qed.

(** The elements of an array of numerals, up to its closing bracket. *)
Lemma parseElements_numerals gap zs : ∀ g z tail fuel,
  JSON.skipSpace gap = "" → JSON.skipSpace g = "" →
  (length zs + 2 ≤ fuel)%nat →
  JSON.parseElements fuel
    (g ++ JS.join ("," ++ gap) (JS.intToString <$> z :: zs) ++ String "]" tail)
  = Some (phaseValues (z :: zs), tail).
Proof.
  induction zs as [|z' zs IH]; intros g z tail fuel Hgap Hg Hfuel.
  - destruct fuel as [|[|fuel]]; [cbn in Hfuel; lia..|].
    rewrite parseElements_S. cbn [fmap list_fmap JS.join].
    rewrite (parseValue_intToString fuel g z (String "]" tail) Hg eq_refl).
    reflexivity.
  - destruct fuel as [|[|fuel]]; [cbn in Hfuel; lia..|].
    rewrite parseElements_S.
    change (JS.join ("," ++ gap) (JS.intToString <$> z :: z' :: zs))
      with (JS.intToString z
              ++ String "," (gap ++ JS.join ("," ++ gap) (JS.intToString <$> z' :: zs))).
    rewrite (append_assoc (JS.intToString z)), append_cons, (append_assoc gap).
    rewrite (parseValue_intToString fuel g z
               (String "," (gap ++ JS.join ("," ++ gap) (JS.intToString <$> z' :: zs)
                              ++ String "]" tail)) Hg eq_refl).
    cbn [JSON.skipSpace]. change (JSON.isJsonSpace ",") with false. cbv iota.
    cbn [JSON.afterChar]. change (Ascii.eqb "," ",") with true. cbv iota.
    rewrite (IH gap z' tail (S fuel) Hgap Hgap ltac:(cbn in Hfuel |- *; lia)).
    reflexivity.
Qed.

(** [JSON.parse] reads a list of integers written as an array. *)
Lemma parse_phaseListText gap zs :
  JSON.skipSpace gap = "" →
  JSON.parse (phaseListText gap zs) = Some (JSON.JArr (phaseValues zs)).
Proof.
  intros Hgap. destruct zs as [|z zs]; [done|].
  apply (parse_complete _ (S (length zs + 2)) _ ""); [|done].
  unfold phaseListText. rewrite append_cons, append_nil, parseValue_S. cbn zeta.
  cbn [JSON.skipSpace]. change (JSON.isJsonSpace "[") with false. cbv iota.
  cbn [JSON.afterChar]. change (Ascii.eqb "[" "[") with true. cbv iota.
  pose proof (parseElements_numerals gap zs "" z "" (length zs + 2) Hgap eq_refl
                ltac:(lia)) as Hel.
  rewrite append_nil in Hel. rewrite Hel.
  change (JS.join ("," ++ gap) (JS.intToString <$> z :: zs))
    with (JS.join ("," ++ gap) (JS.intToString z :: (JS.intToString <$> zs))).
  assert (Hfirst : ∃ c r,
            JS.join ("," ++ gap) (JS.intToString z :: (JS.intToString <$> zs)) ++ "]"
            = String c r ∧ (JSON.isDigit c || Ascii.eqb c "-") = true).
  { destruct (JS.intToString <$> zs) as [|s l]; cbn [JS.join].
    - apply numeral_first.
    - rewrite append_assoc. apply numeral_first. }
  destruct Hfirst as (c & r & -> & Hc).
  cbn [JSON.skipSpace]. by destruct c as [[] [] [] [] [] [] [] []].
Qed.

Lemma isPhaseNumber_phaseValues zs :
  Forall (λ z, (1 ≤ z)%Z) zs → forallb isPhaseNumber (phaseValues zs) = true.
Proof.
  induction 1 as [|z zs Hz _ IH]; [done|]. cbn [phaseValues fmap list_fmap forallb].
  fold (phaseValues zs). rewrite IH, andb_true_r.
  unfold isPhaseNumber, JSON.isInteger, JSON.ltOne. cbn [JSON.mant JSON.expo].
  change (0 <=? 0)%Z with true. rewrite orb_true_r. cbn [andb orb].
  apply negb_true_iff, Z.ltb_ge. lia.
Qed.

Lemma parsePhaseList_phaseListText gap zs :
  JSON.skipSpace gap = "" → Forall (λ z, (1 ≤ z)%Z) zs →
  parsePhaseList (phaseListText gap zs) = Some (phaseValues zs).
Proof.
  intros Hgap Hzs. unfold parsePhaseList.
  by rewrite (parse_phaseListText gap zs Hgap), (isPhaseNumber_phaseValues zs Hzs).
Qed.

Lemma phaseListText_cons gap zs :
  phaseListText gap zs
  = String "[" (JS.join ("," ++ gap) (JS.intToString <$> zs) ++ "]").
Proof. unfold phaseListText. by rewrite append_cons, append_nil. Qed.

Lemma checkAvailableSlots_listed rowNum (row : Row) gap zs :
  row !! "AvailableSlots" = Some (phaseListText gap zs) →
  JSON.skipSpace gap = "" → Forall (λ z, (1 ≤ z)%Z) zs →
  found (checkAvailableSlots rowNum row) ∅
  = match JS.parseIntCell (row !! "MaxLoadPerPhase") with
    | JS.Num load =>
        if (Z.of_nat (length zs) <? load)%Z then
          [ValidationError.Build rowNum "MaxLoadPerPhase" "overloaded_worker"
             ("MaxLoadPerPhase (" ++ JS.intToString load ++ ") exceeds available slots ("
                ++ JS.intToString (Z.of_nat (length zs)) ++ ")") warning]
        else []
    | JS.NaN => []
    end.
Proof.
  intros Hrow Hgap Hzs. unfold found, checkAvailableSlots. rewrite Hrow.
  rewrite phaseListText_cons, <- phaseListText_cons.
  rewrite (parsePhaseList_phaseListText gap zs Hgap Hzs).
  unfold phaseValues. rewrite length_fmap.
  destruct (JS.parseIntCell (row !! "MaxLoadPerPhase")) as [|load]; [done|].
  cbn [JS.isNaN negb andb JS.lt JS.numberToString].
  by destruct (Z.of_nat (length zs) <? load)%Z.
Qed.

(** X17. A worker whose AvailableSlots cell lists integers of at least 1
    (in the range where JavaScript numbers are exact) as a JSON array,
    written without padding or with white space after the commas, is never
    reported for a malformed list. The row gets an [overloaded_worker]
    warning exactly when its MaxLoadPerPhase cell reads as a number greater
    than the number of listed slots, and the warning quotes both numbers. *)
Theorem listed_slots_are_accepted entity allEntities j row gap zs :
  DataEntity.type entity = workers →
  DataEntity.data entity !! j = Some row →
  row !! "AvailableSlots" = Some (phaseListText gap zs) →
  JSON.skipSpace gap = "" →
  Forall (λ z, (1 ≤ z < 2 ^ 53)%Z) zs →
  readsExactly (row !! "MaxLoadPerPhase") →
  List.filter (λ d, atRow (j + 1) d && hasType "malformed_list" d)
    (validateEntity entity allEntities) = []
  ∧ List.filter (λ d, atRow (j + 1) d && hasType "overloaded_worker" d)
      (validateEntity entity allEntities)
    = match JS.parseIntCell (row !! "MaxLoadPerPhase") with
      | JS.Num load =>
          if (Z.of_nat (length zs) <? load)%Z then
            [ValidationError.Build (j + 1) "MaxLoadPerPhase" "overloaded_worker"
               ("MaxLoadPerPhase (" ++ JS.intToString load ++ ") exceeds available slots ("
                  ++ JS.intToString (Z.of_nat (length zs)) ++ ")") warning]
          else []
      | JS.NaN => []
      end.
Proof.
  intros Hty Hj Hrow Hgap Hsafe _.
  assert (Hzs : Forall (λ z, (1 ≤ z)%Z) zs).
  { eapply Forall_impl; [exact Hsafe|]. intros z Hz. cbn in Hz. lia. }
  rewrite !(validateEntity_at_row _ _ _ _ _ Hj) by done.
  rewrite Hty. unfold rowFindings. cbn [laterFindings]. rewrite !List.filter_app.
  rewrite (ranked_filter_type workers (j + 1) 0 1 _ "malformed_list"
             (checkId_ranked workers (j + 1) row _)); [|cbn; lia|cbn; solve_no_rank].
  rewrite (ranked_filter_type workers (j + 1) 0 1 _ "overloaded_worker"
             (checkId_ranked workers (j + 1) row _)); [|cbn; lia|cbn; solve_no_rank].
  rewrite (ranked_filter_type workers (j + 1) 4 4 _ "malformed_list"
             (checkMaxLoadPerPhase_ranked (j + 1) row)); [|cbn; lia|cbn; solve_no_rank].
  rewrite (ranked_filter_type workers (j + 1) 4 4 _ "overloaded_worker"
             (checkMaxLoadPerPhase_ranked (j + 1) row)); [|cbn; lia|cbn; solve_no_rank].
  rewrite !app_nil_r. cbn [app].
  rewrite (checkAvailableSlots_listed (j + 1) row gap zs Hrow Hgap Hzs).
  destruct (JS.parseIntCell (row !! "MaxLoadPerPhase")) as [|load]; [done|].
  by destruct (Z.of_nat (length zs) <? load)%Z.
Qed.

Lemma listed_slots_are_accepted_witness :
  let row : Row :=
    {[ "WorkerID" := "W1"; "AvailableSlots" := "[1, 2, 5]"; "MaxLoadPerPhase" := "4" ]} in
  let entity := DataEntity.Build "workers-1" workers [row] [] [] in
  List.filter (λ d, atRow 1 d && hasType "malformed_list" d) (validateEntity entity [entity])
  = []
  ∧ List.filter (λ d, atRow 1 d && hasType "overloaded_worker" d)
      (validateEntity entity [entity])
    = [ValidationError.Build 1 "MaxLoadPerPhase" "overloaded_worker"
         "MaxLoadPerPhase (4) exceeds available slots (3)" warning].
Proof.
  intros row entity.
  exact (listed_slots_are_accepted entity [entity] 0 row " " [1; 2; 5]%Z
           eq_refl eq_refl eq_refl eq_refl
           ltac:(repeat constructor; lia)
           ltac:(intros load Hload; vm_compute in Hload; injection Hload as <-;
                 unfold safeInteger; lia)).
Defined.

(** ** Phase tables *)

Lemma stripZeros_spec ds : ∀ ds' n,
  JSON.stripZeros ds = (ds', n) →
  ds = ds' ++ JSON.zeros n ∧ String.length ds = (String.length ds' + n)%nat.
Proof.
  induction ds as [|c r IH]; intros ds' n; cbn [JSON.stripZeros].
  - by intros [= <- <-].
  - destruct (JSON.stripZeros r) as [r' n'] eqn:E.
    destruct (IH r' n' eq_refl) as [Hr Hl]. destruct r' as [|c' r'].
    + destruct (Ascii.eqb_spec c "0") as [->|Hc]; intros [= <- <-].
      * rewrite append_nil in Hr |- *. cbn. split; [by rewrite <- Hr|]. cbn in Hl. lia.
      * rewrite append_nil in Hr. rewrite append_cons, append_nil. cbn.
        split; [by rewrite <- Hr|]. cbn in Hl. lia.
    + intros [= <- <-]. rewrite append_cons. cbn. split; [by rewrite <- Hr|].
      cbn in Hl. lia.
Qed.

Lemma digitsValue_acc d : ∀ acc,
  digitsValue d acc = (acc * 10 ^ Z.of_nat (Decimal.nb_digits d) + digitsValue d 0)%Z.
Proof.
  induction d as [|d IH|d IH|d IH|d IH|d IH|d IH|d IH|d IH|d IH|d IH]; intros acc;
    cbn [digitsValue Decimal.nb_digits]; [lia|..];
    rewrite IH, (IH (10 * 0 + _)%Z) || rewrite IH, (IH (10 * 0)%Z);
    rewrite Nat2Z.inj_succ, Z.pow_succ_r by lia; lia.
Qed.

Lemma digitsValue_nonneg d : (0 ≤ digitsValue d 0)%Z.
Proof.
  assert (H : ∀ acc, (0 ≤ acc)%Z → (0 ≤ digitsValue d acc)%Z).
  { induction d as [|d IH|d IH|d IH|d IH|d IH|d IH|d IH|d IH|d IH|d IH]; intros acc Hacc;
      cbn [digitsValue]; [done|..]; apply IH; lia. }
  by apply H.
Qed.

(** A positive number has at least as many digits as a power of ten below it. *)
Lemma to_uint_digits p :
  (10 ^ (Z.of_nat (Decimal.nb_digits (Pos.to_uint p)) - 1) ≤ Z.pos p)%Z.
Proof.
  rewrite <- (to_uint_value p). pose proof (to_uint_leading p) as Hlead.
  destruct (Pos.to_uint p) as [|d|d|d|d|d|d|d|d|d|d]; try done;
    cbn [digitsValue Decimal.nb_digits]; rewrite digitsValue_acc;
    pose proof (digitsValue_nonneg d);
    replace (Z.of_nat (S (Decimal.nb_digits d)) - 1)%Z with (Z.of_nat (Decimal.nb_digits d))
      by lia;
    pose proof (Z.pow_pos_nonneg 10 (Z.of_nat (Decimal.nb_digits d)) ltac:(lia) ltac:(lia));
    nia.
Qed.

Lemma string_of_uint_length d :
  String.length (NilEmpty.string_of_uint d) = Decimal.nb_digits d.
Proof. induction d; cbn; by rewrite ?IHd. Qed.

Lemma intToString_length z :
  (0 < z < 4294967295)%Z → (1 ≤ String.length (JS.intToString z) ≤ 10)%nat.
Proof.
  intros Hz. destruct z as [|p|p]; try lia.
  rewrite intToString_pos, string_of_uint_length.
  pose proof (to_uint_digits p) as Hp. pose proof (to_uint_leading p) as Hlead.
  split; [destruct (Pos.to_uint p); cbn in Hlead |- *; first [done|lia]|].
  destruct (decide (Decimal.nb_digits (Pos.to_uint p) ≤ 10)%nat) as [|Hbig]; [done|].
  assert (10 ^ 10 ≤ 10 ^ (Z.of_nat (Decimal.nb_digits (Pos.to_uint p)) - 1))%Z
    by (apply Z.pow_le_mono_r; lia).
  lia.
Qed.

(** The property key of a phase number is its numeral. *)
Lemma numberToString_phase z :
  (0 < z < 4294967295)%Z → JSON.numberToString (JSON.Decimal z 0) = JS.intToString z.
Proof.
  intros Hz. unfold JSON.numberToString. cbn [JSON.mant JSON.expo].
  replace (z =? 0)%Z with false by (symmetry; apply Z.eqb_neq; lia).
  replace (z <? 0)%Z with false by (symmetry; apply Z.ltb_ge; lia).
  unfold JS.natToString at 1. rewrite (Z.abs_eq z) by lia.
  destruct (JSON.stripZeros (JS.intToString z)) as [ds dropped] eqn:E.
  destruct (stripZeros_spec _ _ _ E) as [Heq Hlen].
  pose proof (intToString_length z Hz) as Hl.
  replace (Z.of_nat (String.length ds)
           <=? Z.of_nat (String.length ds) + Z.of_nat dropped + 0)%Z with true
    by (symmetry; apply Z.leb_le; lia).
  replace (Z.of_nat (String.length ds) + Z.of_nat dropped + 0 <=? 21)%Z with true
    by (symmetry; apply Z.leb_le; lia).
  cbn [andb]. rewrite append_nil.
  replace (Z.to_nat (Z.of_nat (String.length ds) + Z.of_nat dropped + 0
                     - Z.of_nat (String.length ds))) with dropped by lia.
  by rewrite <- Heq.
Qed.

Lemma intToString_inj a b : JS.intToString a = JS.intToString b → a = b.
Proof.
  intros H. pose proof (parseInt_intToString a "" eq_refl) as Ha.
  pose proof (parseInt_intToString b "" eq_refl) as Hb.
  rewrite append_empty in Ha, Hb. rewrite H in Ha. congruence.
Qed.

Lemma intToString_eqb a b : String.eqb (JS.intToString a) (JS.intToString b) = (a =? b)%Z.
Proof.
  destruct (Z.eqb_spec a b) as [->|Hne]; [apply String.eqb_refl|].
  apply String.eqb_neq. intros H. by apply intToString_inj in H.
Qed.

Lemma parseDigits_numeral z :
  (0 ≤ z)%Z → JS.parseDigits 10 (JS.intToString z) None = Some z.
Proof.
  intros Hz. destruct z as [|p|p]; [done| |lia].
  rewrite intToString_pos, <- (to_uint_value p).
  pose proof (to_uint_leading p) as Hlead.
  destruct (Pos.to_uint p) as [|d|d|d|d|d|d|d|d|d|d]; try done;
    cbn [NilEmpty.string_of_uint digitsValue];
    first [ rewrite (parseDigits_step _ 1%Z) by reflexivity
          | rewrite (parseDigits_step _ 2%Z) by reflexivity
          | rewrite (parseDigits_step _ 3%Z) by reflexivity
          | rewrite (parseDigits_step _ 4%Z) by reflexivity
          | rewrite (parseDigits_step _ 5%Z) by reflexivity
          | rewrite (parseDigits_step _ 6%Z) by reflexivity
          | rewrite (parseDigits_step _ 7%Z) by reflexivity
          | rewrite (parseDigits_step _ 8%Z) by reflexivity
          | rewrite (parseDigits_step _ 9%Z) by reflexivity ];
    rewrite <- (append_empty (NilEmpty.string_of_uint d));
    by rewrite (parseDigits_uint d "" _ eq_refl).
Qed.

Lemma arrayIndex_numeral z :
  (0 ≤ z < 4294967295)%Z → arrayIndex (JS.intToString z) = Some z.
Proof.
  intros Hz. unfold arrayIndex. rewrite (parseDigits_numeral z) by lia.
  unfold JS.natToString. rewrite (Z.abs_eq z) by lia. rewrite String.eqb_refl.
  by replace (z <? 4294967295)%Z with true by (symmetry; apply Z.ltb_lt; lia).
Qed.

(** *** A table and its abstraction *)

Lemma getOrZero_encode m z :
  getOrZero (encode m) (JS.intToString z) = JS.Num (amountAt m z).
Proof.
  unfold getOrZero. induction m as [|[k v] m IH]; [done|].
  cbn [encode fmap list_fmap get fst snd amountAt]. rewrite intToString_eqb.
  destruct (k =? z)%Z; [|exact IH]. cbn [JS.orElse].
  by destruct (Z.eqb_spec v 0) as [->|].
Qed.

Lemma get_encode m z :
  get (encode m) (JS.intToString z)
  = if bool_decide (z ∈ fst <$> m) then Some (JS.Num (amountAt m z)) else None.
Proof.
  induction m as [|[k v] m IH]; [done|].
  cbn [encode fmap list_fmap get fst snd amountAt]. rewrite intToString_eqb.
  destruct (Z.eqb_spec k z) as [->|Hne].
  - rewrite bool_decide_eq_true_2; [done|]. by left.
  - fold (encode m). rewrite IH. apply (f_equal (λ b : bool, if b then _ else _)).
    apply bool_decide_ext. rewrite elem_of_cons. intuition congruence.
Qed.

Lemma set_encode m z a :
  set (encode m) (JS.intToString z) (JS.Num (amountAt m z + a)) = encode (bump a z m).
Proof.
  induction m as [|[k v] m IH]; [done|].
  cbn [encode fmap list_fmap set fst snd amountAt bump]. rewrite intToString_eqb.
  destruct (k =? z)%Z; [done|]. cbn [fmap list_fmap fst snd].
  f_equal. exact IH.
Qed.

Lemma accumulate_encode a zs : ∀ m,
  Forall (λ z, (1 ≤ z < 4294967295)%Z) zs →
  accumulate (JS.Num a) (phaseValues zs) (encode m)
  = (encode (bumpAll m (a, zs)), true).
Proof.
  induction zs as [|z zs IH]; intros m Hzs; [done|].
  apply Forall_cons in Hzs as [Hz Hzs].
  cbn [phaseValues fmap list_fmap accumulate JSON.toPropertyKey].
  rewrite (numberToString_phase z) by lia.
  rewrite getOrZero_encode. cbn [JS.add]. rewrite set_encode.
  fold (phaseValues zs). by rewrite (IH _ Hzs).
Qed.

Lemma tryAccumulate_listed cell zs a m text :
  listsPhases cell zs → cell = Some text → text ≠ "" →
  tryAccumulate text (JS.Num a) (encode m) = (encode (bumpAll m (a, zs)), true).
Proof.
  intros [[Hfalsy _]|(gap & -> & Hgap & Hzs)] Hcell Htext.
  - rewrite Hcell in Hfalsy. by destruct text.
  - injection Hcell as <-. unfold tryAccumulate.
    rewrite (parse_phaseListText gap zs Hgap). by apply accumulate_encode.
Qed.

Lemma bumpAll_nil m a : bumpAll m (a, []) = m.
Proof. reflexivity. Qed.

Lemma listsPhases_falsy cell zs : listsPhases cell zs → JS.truthy cell = false → zs = [].
Proof.
  intros [[_ ->]|(gap & -> & _ & _)]; [done|]. rewrite phaseListText_cons. done.
Qed.

Lemma workerCapacity_encode m index (worker : Row) load slots :
  listsPhases (worker !! "AvailableSlots") slots →
  JS.orElse (JS.parseIntCell (worker !! "MaxLoadPerPhase")) (JS.Num 1) = JS.Num load →
  workerCapacity (encode m) index worker = encode (bumpAll m (load, slots)).
Proof.
  intros Hslots Hload. unfold workerCapacity.
  destruct (worker !! "AvailableSlots") as [[|c text]|] eqn:E.
  - by rewrite (listsPhases_falsy _ _ Hslots eq_refl).
  - rewrite Hload. by rewrite (tryAccumulate_listed _ slots load m _ Hslots eq_refl).
  - by rewrite (listsPhases_falsy _ _ Hslots eq_refl).
Qed.

Lemma forEachFrom_workerCapacity rows : ∀ ws index m,
  Forall2 (λ (worker : Row) (w : Z * list Z),
             listsPhases (worker !! "AvailableSlots") (snd w)
             ∧ JS.orElse (JS.parseIntCell (worker !! "MaxLoadPerPhase")) (JS.Num 1)
               = JS.Num (fst w)) rows ws →
  forEachFrom workerCapacity index rows (encode m) = encode (foldl bumpAll m ws).
Proof.
  induction rows as [|worker rows IH]; intros ws index m Hall.
  - by apply Forall2_nil_inv_l in Hall as ->.
  - apply Forall2_cons_inv_l in Hall as ([load slots] & ws' & [Hs Hl] & Hall & ->).
    cbn [forEachFrom foldl]. rewrite (workerCapacity_encode m index worker load slots Hs Hl).
    by apply IH.
Qed.

Lemma taskDemand_encode m errs index (task : Row) duration phases :
  listsPhases (task !! "PreferredPhases") phases →
  (JS.truthy (task !! "PreferredPhases") = true →
   JS.truthy (task !! "Duration") = true
   ∧ JS.parseIntCell (task !! "Duration") = JS.Num duration) →
  taskDemand (encode m, errs) index task = (encode (bumpAll m (duration, phases)), errs).
Proof.
  intros Hphases Hdur. unfold taskDemand.
  destruct (task !! "PreferredPhases") as [[|c text]|] eqn:E.
  - by rewrite (listsPhases_falsy _ _ Hphases eq_refl).
  - destruct (Hdur eq_refl) as [-> ->].
    by rewrite (tryAccumulate_listed _ phases duration m _ Hphases eq_refl).
  - by rewrite (listsPhases_falsy _ _ Hphases eq_refl).
Qed.

Lemma forEachFrom_taskDemand rows : ∀ ts index m errs,
  Forall2 (λ (task : Row) (t : Z * list Z),
             listsPhases (task !! "PreferredPhases") (snd t)
             ∧ (JS.truthy (task !! "PreferredPhases") = true →
                JS.truthy (task !! "Duration") = true
                ∧ JS.parseIntCell (task !! "Duration") = JS.Num (fst t))) rows ts →
  forEachFrom taskDemand index rows (encode m, errs) = (encode (foldl bumpAll m ts), errs).
Proof.
  induction rows as [|task rows IH]; intros ts index m errs Hall.
  - by apply Forall2_nil_inv_l in Hall as ->.
  - apply Forall2_cons_inv_l in Hall as ([duration phases] & ts' & [Hp Hd] & Hall & ->).
    cbn [forEachFrom foldl].
    rewrite (taskDemand_encode m errs index task duration phases Hp Hd).
    by apply IH.
Qed.

(** *** The abstract table *)

Lemma bump_keys a z m :
  fst <$> bump a z m
  = if bool_decide (z ∈ fst <$> m) then fst <$> m else ((fst <$> m) ++ [z])%list.
Proof.
  induction m as [|[k v] m IH]; [done|]. cbn [bump fmap list_fmap fst].
  destruct (Z.eqb_spec k z) as [->|Hne]; cbn [fmap list_fmap fst].
  - rewrite bool_decide_eq_true_2; [done|]. by left.
  - fold (fst <$> bump a z m). rewrite IH.
    destruct (decide (z ∈ fst <$> m)) as [Hin|Hnin].
    + rewrite !bool_decide_eq_true_2; [done|by right|done].
    + rewrite !bool_decide_eq_false_2; [done| |done].
      rewrite elem_of_cons. intuition congruence.
Qed.

Lemma bump_amountAt a z m z' :
  amountAt (bump a z m) z' = (amountAt m z' + if (z =? z')%Z then a else 0)%Z.
Proof.
  induction m as [|[k v] m IH]; cbn [bump amountAt].
  - destruct (z =? z')%Z; lia.
  - destruct (Z.eqb_spec k z) as [->|Hne]; cbn [amountAt].
    + destruct (z =? z')%Z; lia.
    + destruct (Z.eqb_spec k z') as [->|Hne'].
      * replace (z =? z')%Z with false by (symmetry; apply Z.eqb_neq; congruence). lia.
      * exact IH.
Qed.

Lemma bumpAll_amountAt a zs : ∀ m z,
  amountAt (bumpAll m (a, zs)) z = (amountAt m z + a * occurrences z zs)%Z.
Proof.
  unfold bumpAll, occurrences. cbn [fst snd].
  induction zs as [|z0 zs IH]; intros m z; cbn [foldl List.filter]; [cbn; lia|].
  rewrite IH, bump_amountAt. rewrite (Z.eqb_sym z0 z).
  destruct (z =? z0)%Z; cbn [length]; lia.
Qed.

Lemma bumpAll_keys a zs : ∀ m z,
  z ∈ fst <$> bumpAll m (a, zs) ↔ z ∈ fst <$> m ∨ z ∈ zs.
Proof.
  unfold bumpAll. cbn [fst snd].
  induction zs as [|z0 zs IH]; intros m z; cbn [foldl].
  - rewrite elem_of_nil. tauto.
  - rewrite IH, bump_keys, elem_of_cons. case_bool_decide as Hin.
    + split; [tauto|]. intros [?|[->|?]]; tauto.
    + rewrite elem_of_app, list_elem_of_singleton. tauto.
Qed.

Lemma bumpAll_NoDup a zs : ∀ m, NoDup (fst <$> m) → NoDup (fst <$> bumpAll m (a, zs)).
Proof.
  unfold bumpAll. cbn [fst snd].
  induction zs as [|z0 zs IH]; intros m Hm; cbn [foldl]; [done|].
  apply IH. rewrite bump_keys. case_bool_decide as Hin; [done|].
  apply NoDup_app. split; [done|]. split; [|apply NoDup_singleton].
  intros x Hx ->%list_elem_of_singleton. done.
Qed.

Lemma foldl_bumpAll_amountAt entries : ∀ m z,
  amountAt (foldl bumpAll m entries) z = (amountAt m z + phaseTotal entries z)%Z.
Proof.
  induction entries as [|[a zs] entries IH]; intros m z; cbn [foldl phaseTotal foldr];
    [lia|].
  fold (phaseTotal entries z). rewrite IH, bumpAll_amountAt. cbn [fst snd]. lia.
Qed.

Lemma foldl_bumpAll_keys entries : ∀ m z,
  z ∈ fst <$> foldl bumpAll m entries
  ↔ z ∈ fst <$> m ∨ ∃ entry, entry ∈ entries ∧ z ∈ snd entry.
Proof.
  induction entries as [|[a zs] entries IH]; intros m z; cbn [foldl].
  - split; [by left|]. intros [?|(e & ?%elem_of_nil & _)]; done.
  - rewrite IH, bumpAll_keys. split.
    + intros [[?|?]|(e & He & Hz)]; [by left| |].
      * right. exists (a, zs). split; [by left|done].
      * right. exists e. split; [by right|done].
    + intros [?|(e & [->|He]%elem_of_cons & Hz)]; [tauto| |].
      * left. by right.
      * right. by exists e.
Qed.

Lemma foldl_bumpAll_NoDup entries : ∀ m,
  NoDup (fst <$> m) → NoDup (fst <$> foldl bumpAll m entries).
Proof.
  induction entries as [|[a zs] entries IH]; intros m Hm; cbn [foldl]; [done|].
  by apply IH, bumpAll_NoDup.
Qed.

(** *** The keys of a table, in [Object.keys] order *)

Lemma insertByIndex_perm n l : insertByIndex n l ≡ₚ n :: l.
Proof.
  induction l as [|m l IH]; [done|]. cbn [insertByIndex].
  destruct (n <? m)%Z; [done|]. rewrite IH. apply Permutation_swap.
Qed.

Lemma insertByIndex_sorted n l :
  StronglySorted Z.lt l → n ∉ l → StronglySorted Z.lt (insertByIndex n l).
Proof.
  induction 1 as [|m l Hl IH Hm]; intros Hn; cbn [insertByIndex].
  - repeat constructor.
  - apply not_elem_of_cons in Hn as [Hne Hn].
    destruct (Z.ltb_spec n m) as [Hlt|Hge].
    + constructor; [by constructor|]. constructor; [done|].
      eapply Forall_impl; [exact Hm|]. intros x Hx. cbn in Hx. lia.
    + constructor; [by apply IH|].
      rewrite insertByIndex_perm. constructor; [lia|done].
Qed.

Lemma sortedKeys_spec l :
  NoDup l →
  StronglySorted Z.lt (foldr insertByIndex [] l) ∧ foldr insertByIndex [] l ≡ₚ l.
Proof.
  induction 1 as [|n l Hn _ [IHs IHp]]; cbn [foldr]; [split; [constructor|done]|].
  split.
  - apply insertByIndex_sorted; [done|]. by rewrite IHp.
  - by rewrite insertByIndex_perm, IHp.
Qed.

Lemma omap_arrayIndex zs :
  Forall (λ z, (1 ≤ z < 4294967295)%Z) zs → omap arrayIndex (JS.intToString <$> zs) = zs.
Proof.
  induction 1 as [|z zs Hz _ IH]; [done|]. cbn [fmap list_fmap omap list_omap].
  rewrite (arrayIndex_numeral z) by lia. f_equal. exact IH.
Qed.

Lemma ownKeys_encode m :
  Forall (λ z, (1 ≤ z < 4294967295)%Z) (fst <$> m) →
  ownKeys (encode m) = JS.intToString <$> foldr insertByIndex [] (fst <$> m).
Proof.
  intros Hm. unfold ownKeys.
  assert (Hnames : fst <$> encode m = JS.intToString <$> (fst <$> m)).
  { unfold encode. by rewrite <- !list_fmap_compose. }
  rewrite Hnames, (omap_arrayIndex _ Hm).
  rewrite (filter_none _ (JS.intToString <$> (fst <$> m))).
  2:{ apply Forall_fmap. eapply Forall_impl; [exact Hm|]. intros z Hz. cbn in Hz |- *.
      rewrite (arrayIndex_numeral z) by lia. apply negb_false_iff, bool_decide_eq_true. eauto. }
  rewrite app_nil_r. apply Forall_fmap_ext_1.
  assert (Hperm : foldr insertByIndex [] (fst <$> m) ≡ₚ fst <$> m).
  { clear. induction (fst <$> m) as [|n l IH]; [done|]. cbn [foldr].
    by rewrite insertByIndex_perm, IH. }
  rewrite Hperm. eapply Forall_impl; [exact Hm|]. intros z Hz. cbn in Hz.
  unfold JS.natToString. by rewrite Z.abs_eq by lia.
Qed.

(** *** The comparison of demand and capacity *)

Lemma checkSaturation_encode cap dem errs z :
  z ∈ fst <$> dem →
  checkSaturation (encode cap) (encode dem) errs (JS.intToString z)
  = if (amountAt cap z <? amountAt dem z)%Z
    then (errs ++ [saturationWarning z (amountAt dem z) (amountAt cap z)])%list
    else errs.
Proof.
  intros Hz. unfold checkSaturation.
  pose proof (parseInt_intToString z "" eq_refl) as Hparse. rewrite append_empty in Hparse.
  rewrite Hparse. cbn [JS.numberToString].
  rewrite getOrZero_encode, get_encode, bool_decide_eq_true_2 by done.
  cbn [JS.gt JS.lt JS.numberToString]. by destruct (amountAt cap z <? amountAt dem z)%Z.
Qed.

Lemma foldl_checkSaturation_encode cap dem ps : ∀ errs,
  Forall (λ z, z ∈ fst <$> dem) ps →
  foldl (checkSaturation (encode cap) (encode dem)) errs (JS.intToString <$> ps)
  = (errs ++ ((λ z, saturationWarning z (amountAt dem z) (amountAt cap z))
                <$> List.filter (λ z, (amountAt cap z <? amountAt dem z)%Z) ps))%list.
Proof.
  induction ps as [|z ps IH]; intros errs Hps; cbn [fmap list_fmap foldl List.filter].
  - by rewrite app_nil_r.
  - apply Forall_cons in Hps as [Hz Hps].
    rewrite (checkSaturation_encode cap dem errs z Hz), (IH _ Hps).
    destruct (amountAt cap z <? amountAt dem z)%Z; [|done].
    cbn [fmap list_fmap]. by rewrite <- app_assoc.
Qed.

Lemma StronglySorted_List_filter {A : Type} (R : A → A → Prop) (p : A → bool) (l : list A) :
  StronglySorted R l → StronglySorted R (List.filter p l).
Proof.
  induction 1 as [|x l Hl IH Hx]; cbn [List.filter]; [constructor|].
  destruct (p x); [|done]. constructor; [done|].
  apply Forall_forall. intros y Hy.
  apply list_elem_of_In, List.filter_In in Hy as [Hy _].
  rewrite Forall_forall in Hx. by apply Hx, list_elem_of_In.
Qed.

Lemma asksFor_range rows : ∀ ts,
  Forall2 asksFor rows ts →
  ∀ t z, t ∈ ts → z ∈ snd t → (1 ≤ z < 4294967295)%Z.
Proof.
  induction rows as [|task rows IH]; intros ts Hall t z Ht Hz.
  - apply Forall2_nil_inv_l in Hall as ->. by apply elem_of_nil in Ht.
  - apply Forall2_cons_inv_l in Hall as (t0 & ts' & [Hp _] & Hall & ->).
    apply elem_of_cons in Ht as [->|Ht]; [|by apply (IH ts' Hall t)].
    destruct Hp as [[_ Hnil]|(gap & _ & _ & Hrange)].
    + rewrite Hnil in Hz. by apply elem_of_nil in Hz.
    + rewrite Forall_forall in Hrange. by apply Hrange.
Qed.

(** X18. The saturation analysis on well-formed phase lists. Let every
    worker of the workers collection offer a load on the slots its
    AvailableSlots cell lists, and every task of the tasks collection ask
    for its duration on the phases its PreferredPhases cell lists, with
    loads and durations that are not negative and add up to safe integers.
    The capacity of a phase is then the total of the loads of the workers that
    list it, its demand the total of the durations of the tasks that list
    it, each counted once for each time the phase is listed. The analysis
    reports, in ascending order of phase and once each, exactly the phases
    that some task lists and whose demand exceeds their capacity; each
    warning quotes the phase, the demand and the capacity; and there is no
    other finding. *)
Theorem saturation_of_listed_phases allEntities tasksEntity workersEntity ws ts :
  entityOf tasks allEntities = Some tasksEntity →
  entityOf workers allEntities = Some workersEntity →
  Forall2 offers (DataEntity.data workersEntity) ws →
  Forall2 asksFor (DataEntity.data tasksEntity) ts →
  addsExactly ws →
  addsExactly ts →
  ∃ ps,
    StronglySorted Z.lt ps
    ∧ (∀ z, z ∈ ps ↔ (∃ t, t ∈ ts ∧ z ∈ snd t) ∧ (phaseTotal ws z < phaseTotal ts z)%Z)
    ∧ validatePhaseSlotSaturation allEntities
      = (λ z, saturationWarning z (phaseTotal ts z) (phaseTotal ws z)) <$> ps.
Proof.
  intros Ht Hw Hws Hts _ _. unfold entityOf in Ht, Hw.
  unfold validatePhaseSlotSaturation. rewrite Ht, Hw. unfold forEach.
  change (@nil (string * JS.number)) with (encode []).
  rewrite (forEachFrom_workerCapacity _ ws 0 [] Hws).
  rewrite (forEachFrom_taskDemand _ ts 0 [] [] Hts).
  set (cap := foldl bumpAll [] ws). set (dem := foldl bumpAll [] ts).
  assert (Hkeys : ∀ z, z ∈ fst <$> dem ↔ ∃ t, t ∈ ts ∧ z ∈ snd t).
  { intros z. unfold dem. rewrite foldl_bumpAll_keys. split; [|by right].
    intros [?%elem_of_nil|?]; done. }
  assert (Hrange : Forall (λ z, (1 ≤ z < 4294967295)%Z) (fst <$> dem)).
  { apply Forall_forall. intros z (t & Hin & Hz)%Hkeys.
    by apply (asksFor_range _ _ Hts t z). }
  assert (Hnodup : NoDup (fst <$> dem)).
  { apply foldl_bumpAll_NoDup. constructor. }
  destruct (sortedKeys_spec _ Hnodup) as [Hsorted Hperm].
  assert (Hcap : ∀ z, amountAt cap z = phaseTotal ws z).
  { intros z. unfold cap. rewrite foldl_bumpAll_amountAt. cbn [amountAt]. lia. }
  assert (Hdem : ∀ z, amountAt dem z = phaseTotal ts z).
  { intros z. unfold dem. rewrite foldl_bumpAll_amountAt. cbn [amountAt]. lia. }
  exists (List.filter (λ z, (amountAt cap z <? amountAt dem z)%Z)
            (foldr insertByIndex [] (fst <$> dem))).
  split; [by apply StronglySorted_List_filter|]. split.
  - intros z. rewrite list_elem_of_In, List.filter_In, <- list_elem_of_In, Hperm, Hkeys.
    by rewrite Z.ltb_lt, Hcap, Hdem.
  - rewrite (ownKeys_encode dem Hrange).
    rewrite foldl_checkSaturation_encode.
    + cbn [app]. apply list_fmap_ext. intros i z _. by rewrite Hcap, Hdem.
    + rewrite Hperm. apply Forall_forall. by intros z Hz.
Qed.

Lemma saturation_of_listed_phases_witness :
  let workersEntity :=
    DataEntity.Build "workers-1" workers
      [ {[ "WorkerID" := "W1"; "AvailableSlots" := "[1,2]"; "MaxLoadPerPhase" := "2" ]};
        {[ "WorkerID" := "W2"; "AvailableSlots" := "[2]"; "MaxLoadPerPhase" := "x" ]} ] [] [] in
  let tasksEntity :=
    DataEntity.Build "tasks-1" tasks
      [ {[ "TaskID" := "T1"; "Duration" := "3"; "PreferredPhases" := "[2, 1]" ]};
        {[ "TaskID" := "T2"; "Duration" := "1"; "PreferredPhases" := "[2]" ]};
        {[ "TaskID" := "T3"; "Duration" := "9" ]} ] [] [] in
  let ws : list (Z * list Z) := [(2, [1; 2]); (1, [2])]%Z in
  let ts : list (Z * list Z) := [(3, [2; 1]); (1, [2]); (9, [])]%Z in
  ∃ ps,
    StronglySorted Z.lt ps
    ∧ validatePhaseSlotSaturation [workersEntity; tasksEntity]
      = (λ z, saturationWarning z (phaseTotal ts z) (phaseTotal ws z)) <$> ps.
Proof.
  intros workersEntity tasksEntity ws ts.
  destruct (saturation_of_listed_phases [workersEntity; tasksEntity] tasksEntity workersEntity
              ws ts eq_refl eq_refl)
    as (ps & Hsorted & _ & Heq).
  - constructor; [|constructor; [|constructor]];
      (split; [|reflexivity]); right; exists "";
      (split; [reflexivity|split; [reflexivity|repeat constructor; lia]]).
  - constructor; [|constructor; [|constructor; [|constructor]]].
    + split; [|intros _; split; reflexivity]. right. exists " ".
      split; [reflexivity|split; [reflexivity|repeat constructor; lia]].
    + split; [|intros _; split; reflexivity]. right. exists "".
      split; [reflexivity|split; [reflexivity|repeat constructor; lia]].
    + split; [|discriminate]. left. split; reflexivity.
  - split; [repeat constructor; cbn; lia|unfold safeInteger; cbn; lia].
  - split; [repeat constructor; cbn; lia|unfold safeInteger; cbn; lia].
  - by exists ps.
Defined.

(** ** FileUpload: where the cells of a file go *)

Lemma renameRow_fold (headerMap : gmap string string) (row : FileUpload.RawRow) :
  ∀ (acc : Row) column,
  foldl (λ newRow cell,
           <[default (fst cell) (headerMap !! fst cell) := snd cell]> newRow) acc row
    !! column
  = match last (List.filter
                  (λ cell, bool_decide (default (fst cell) (headerMap !! fst cell) = column))
                  row) with
    | Some cell => Some (snd cell)
    | None => acc !! column
    end.
Proof.
  induction row as [|[k v] row IH]; intros acc column; [done|].
  cbn [foldl List.filter fst snd]. rewrite IH.
  case_bool_decide as Hc.
  - rewrite last_cons. destruct (last _) as [cell|]; [done|].
    by rewrite Hc, lookup_insert_eq.
  - destruct (last _) as [cell|]; [done|]. by rewrite lookup_insert_ne.
Qed.

(** X19. Where the cells of a decoded file go. The header map is made from
    the first row alone and applied to every row: each cell goes under the
    standard header its header is mapped to, or stays under its own header.
    The mapped row has a cell under a header exactly when some cell of the
    raw row goes there, and when several do, it holds the one that comes
    last in the raw row. This is for headers of the first row within
    ASCII, and for a row none of whose headers names a property that
    objects inherit. *)
Theorem mapped_row_cells ty first rest i raw :
  (first :: rest) !! i = Some raw →
  Forall (λ cell, isAscii (fst cell) = true) first →
  Forall (λ cell, fst cell ∉ inheritedNames) raw →
  ∃ row,
    FileUpload.intelligentColumnMapping (first :: rest) ty !! i = Some row
    ∧ ∀ column,
        row !! column
        = snd <$> last (List.filter
                          (λ cell,
                             bool_decide
                               (default (fst cell)
                                  (FileUpload.headerMapOf (FileUpload.columnMappings ty)
                                     (fst <$> first) !! fst cell) = column))
                          raw).
Proof.
  intros Hi _ _. cbn [FileUpload.intelligentColumnMapping].
  exists (FileUpload.renameRow
            (FileUpload.headerMapOf (FileUpload.columnMappings ty) (fst <$> first)) raw).
  split; [by rewrite list_lookup_fmap, Hi|].
  intros column. unfold FileUpload.renameRow. rewrite renameRow_fold.
  by destruct (last _).
Qed.

Lemma mapped_row_cells_witness :
  let first := [("id", "7"); ("Company", "Acme"); ("ClientID", "C1"); ("notes", "")] in
  ∃ row,
    FileUpload.intelligentColumnMapping [first] clients !! 0 = Some row
    ∧ row !! "ClientID" = Some "C1"
    ∧ row !! "ClientName" = Some "Acme"
    ∧ row !! "notes" = Some ""
    ∧ row !! "id" = None.
Proof.
  intros first.
  destruct (mapped_row_cells clients first [] 0 first eq_refl) as (row & Hrow & Hcells).
  { repeat constructor. }
  { apply (bool_decide_unpack _). vm_compute. exact I. }
  exists row. split; [exact Hrow|].
  rewrite !Hcells. vm_compute. repeat split.
Defined.

(** ** FileUpload: the kind of a file *)

Lemma includes_word filename word :
  JS.toLowerCase word = word →
  JS.includes (JS.toLowerCase filename) word = true → containsIgnoringCase filename word.
Proof. intros Hw. by apply includes_toLowerCase. Qed.

Lemma not_includes_word filename word :
  JS.toLowerCase word = word →
  ¬ containsIgnoringCase filename word → JS.includes (JS.toLowerCase filename) word = false.
Proof.
  intros Hw Hno. apply not_true_is_false. intros H. by apply Hno, includes_toLowerCase.
Qed.

(** X20. The name of a file decides its kind before its columns are looked
    at, letter case set aside and in a fixed order. For a name within
    ASCII: a name that contains "client" is a clients file, whatever else
    it contains; failing that, a name that contains "worker" or "employee"
    is a workers file; failing that, a name that contains "task" or "job"
    is a tasks file. Only a name with none of the five words leaves the
    decision to the headers of the first row, and then the name plays no
    part; such a file without rows has no kind. *)
Theorem detectEntityType_by_name filename data :
  isAscii filename = true →
  (containsIgnoringCase filename "client" →
   FileUpload.detectEntityType filename data = Some clients)
  ∧ (¬ containsIgnoringCase filename "client" →
     containsIgnoringCase filename "worker" ∨ containsIgnoringCase filename "employee" →
     FileUpload.detectEntityType filename data = Some workers)
  ∧ (¬ containsIgnoringCase filename "client" →
     ¬ containsIgnoringCase filename "worker" →
     ¬ containsIgnoringCase filename "employee" →
     containsIgnoringCase filename "task" ∨ containsIgnoringCase filename "job" →
     FileUpload.detectEntityType filename data = Some tasks)
  ∧ (¬ containsIgnoringCase filename "client" →
     ¬ containsIgnoringCase filename "worker" →
     ¬ containsIgnoringCase filename "employee" →
     ¬ containsIgnoringCase filename "task" →
     ¬ containsIgnoringCase filename "job" →
     FileUpload.detectEntityType filename data = FileUpload.detectEntityType "" data
     ∧ FileUpload.detectEntityType filename [] = None).
Proof.
  intros _. unfold FileUpload.detectEntityType. split; [|split; [|split]].
  - intros H. by rewrite (proj2 (includes_toLowerCase filename "client" eq_refl) H).
  - intros Hc [H|H]; rewrite (not_includes_word filename "client" eq_refl Hc);
      rewrite (proj2 (includes_toLowerCase filename _ eq_refl) H); [done|].
    by rewrite orb_true_r.
  - intros Hc Hw He [H|H]; rewrite (not_includes_word filename "client" eq_refl Hc),
      (not_includes_word filename "worker" eq_refl Hw),
      (not_includes_word filename "employee" eq_refl He);
      rewrite (proj2 (includes_toLowerCase filename _ eq_refl) H); [done|].
    by rewrite orb_true_r.
  - intros Hc Hw He Ht Hj.
    by rewrite (not_includes_word filename "client" eq_refl Hc),
      (not_includes_word filename "worker" eq_refl Hw),
      (not_includes_word filename "employee" eq_refl He),
      (not_includes_word filename "task" eq_refl Ht),
      (not_includes_word filename "job" eq_refl Hj).
Qed.

Lemma detectEntityType_by_name_witness :
  FileUpload.detectEntityType "Tasks-for-CLIENTS.csv" [[("TaskID", "T1")]] = Some clients.
Proof.
  apply (proj1 (detectEntityType_by_name "Tasks-for-CLIENTS.csv" [[("TaskID", "T1")]]
                  eq_refl)).
  exists "Tasks-for-", "CLIENT", "S.csv". split; reflexivity.
Defined.

(** ** What the validation of an entity reads *)

Lemma allWorkerSkills_cells allEntities :
  allWorkerSkills allEntities
  = foldl (λ skills cell,
             foldl (λ skills skill, {[ skill ]} ∪ skills) skills (skillsOfCell cell))
          ∅ (skillCells allEntities).
Proof.
  unfold allWorkerSkills, skillCells. destruct (entityOf workers allEntities) as [we|]; [|done].
  by rewrite foldl_fmap.
Qed.

Lemma length_filter_fmap {A B : Type} (f : A → B) (p : B → bool) (l : list A) :
  length (List.filter (λ x, p (f x)) l) = length (List.filter p (f <$> l)).
Proof.
  induction l as [|x l IH]; [done|]. cbn [List.filter fmap list_fmap].
  destruct (p (f x)); cbn [length]; by rewrite IH.
Qed.

Lemma qualifiedWorkers_cells allEntities (requiredSkills : list string) :
  length (match entityOf workers allEntities with
          | Some we =>
              List.filter
                (λ worker : Row,
                   JS.truthy (worker !! "Skills") &&
                   existsb (λ reqSkill, listIncludes (skillsOf worker) reqSkill) requiredSkills)
                (DataEntity.data we)
          | None => []
          end)
  = length (List.filter
              (λ cell, JS.truthy cell &&
                       existsb (λ reqSkill, listIncludes (skillsOfCell cell) reqSkill)
                               requiredSkills)
              (skillCells allEntities)).
Proof.
  unfold skillCells. destruct (entityOf workers allEntities) as [we|]; [|done].
  by rewrite <- length_filter_fmap.
Qed.

Lemma checkSkills_reads allEntities allEntities' rowNum row :
  skillCells allEntities = skillCells allEntities' →
  found (checkSkills (entityOf workers allEntities) (allWorkerSkills allEntities) rowNum row) ∅
  = found (checkSkills (entityOf workers allEntities') (allWorkerSkills allEntities')
             rowNum row) ∅.
Proof.
  intros Hcells.
  assert (Hskills : allWorkerSkills allEntities = allWorkerSkills allEntities')
    by (by rewrite !allWorkerSkills_cells, Hcells).
  rewrite Hskills. unfold found, checkSkills.
  destruct (row !! "RequiredSkills") as [[|c text]|]; try done.
  cbn zeta.
  rewrite (qualifiedWorkers_cells allEntities), (qualifiedWorkers_cells allEntities'), Hcells.
  done.
Qed.

Lemma laterFindings_reads ty allEntities allEntities' rowNum row :
  (ty = clients → taskIdCells allEntities = taskIdCells allEntities') →
  (ty = tasks → skillCells allEntities = skillCells allEntities') →
  laterFindings ty allEntities rowNum row = laterFindings ty allEntities' rowNum row.
Proof.
  intros Hc Ht. destruct ty; cbn [laterFindings].
  - by rewrite (Hc eq_refl).
  - done.
  - by rewrite (checkSkills_reads allEntities allEntities' rowNum row (Ht eq_refl)).
Qed.

Lemma blocksFrom_reads ty allEntities allEntities' rows : ∀ seen index,
  (ty = clients → taskIdCells allEntities = taskIdCells allEntities') →
  (ty = tasks → skillCells allEntities = skillCells allEntities') →
  blocksFrom ty allEntities seen index rows = blocksFrom ty allEntities' seen index rows.
Proof.
  induction rows as [|row rows IH]; intros seen index Hc Ht; [done|].
  cbn [blocksFrom]. unfold rowFindings.
  by rewrite (laterFindings_reads ty allEntities allEntities' _ row Hc Ht), (IH _ _ Hc Ht).
Qed.

(** X21. What the validation of an entity reads of the rest of the upload.
    A workers entity is validated on its own. Of the other entities, the
    validation of a clients entity reads the TaskID cells of the tasks
    collection and nothing else, and the validation of a tasks entity reads
    the Skills cells of the workers collection and nothing else: two
    uploads that agree on those cells give the entity the same findings. *)
Theorem validateEntity_reads entity allEntities allEntities' :
  (DataEntity.type entity = workers →
   validateEntity entity allEntities = validateEntity entity allEntities')
  ∧ (DataEntity.type entity = clients →
     taskIdCells allEntities = taskIdCells allEntities' →
     validateEntity entity allEntities = validateEntity entity allEntities')
  ∧ (DataEntity.type entity = tasks →
     skillCells allEntities = skillCells allEntities' →
     validateEntity entity allEntities = validateEntity entity allEntities').
Proof.
  rewrite !validateEntity_blocks.
  split; [|split]; intros Hty; [|intros Hcells..]; f_equal;
    apply blocksFrom_reads; rewrite Hty; done.
Qed.

Lemma validateEntity_reads_witness :
  let task : Row := {[ "TaskID" := "T1"; "RequiredSkills" := "go"; "MaxConcurrent" := "1" ]} in
  let tasksEntity := DataEntity.Build "tasks-1" tasks [task] [] [] in
  let ann := DataEntity.Build "workers-1" workers
               [ {[ "WorkerID" := "W1"; "WorkerName" := "Ann"; "Skills" := "go" ]} ] [] [] in
  let bob := DataEntity.Build "workers-2" workers
               [ {[ "WorkerID" := "W9"; "WorkerName" := "Bob"; "Skills" := "go" ]} ] [] [] in
  validateEntity tasksEntity [tasksEntity; ann] = validateEntity tasksEntity [bob; tasksEntity].
Proof.
  intros task tasksEntity ann bob.
  exact (proj2 (proj2 (validateEntity_reads tasksEntity [tasksEntity; ann] [bob; tasksEntity]))
           eq_refl eq_refl).
Defined.

(** ** The upload, from the files to the page *)

Lemma pushOntoTasks_frame phaseSlotErrors entities :
  (λ e, (DataEntity.id e, DataEntity.type e, DataEntity.data e))
    <$> FileUpload.pushOntoTasks phaseSlotErrors entities
  = (λ e, (DataEntity.id e, DataEntity.type e, DataEntity.data e)) <$> entities.
Proof.
  induction entities as [|e entities IH]; [done|]. cbn [FileUpload.pushOntoTasks].
  destruct (bool_decide (DataEntity.type e = tasks)); [done|].
  cbn [fmap list_fmap]. f_equal. exact IH.
Qed.

Lemma onDrop_frame uploadedEntities :
  (λ e, (DataEntity.id e, DataEntity.type e, DataEntity.data e))
    <$> FileUpload.onDrop uploadedEntities
  = (λ e, (DataEntity.id e, DataEntity.type e, DataEntity.data e)) <$> uploadedEntities.
Proof.
  unfold FileUpload.onDrop. cbn zeta.
  assert (Hv : (λ e, (DataEntity.id e, DataEntity.type e, DataEntity.data e))
                 <$> (FileUpload.validated uploadedEntities <$> uploadedEntities)
               = (λ e, (DataEntity.id e, DataEntity.type e, DataEntity.data e))
                   <$> uploadedEntities).
  { by rewrite <- list_fmap_compose. }
  case_match; [|done]. by rewrite pushOntoTasks_frame.
Qed.

Lemma uploaded_parsed acceptedFiles :
  (λ e, (DataEntity.type e, DataEntity.data e)) <$> FileUpload.uploaded acceptedFiles
  = omap (λ file, FileUpload.parseFile (FileUpload.name file) (FileUpload.decoded file))
         acceptedFiles.
Proof.
  unfold FileUpload.uploaded.
  induction acceptedFiles as [|file files IH]; [done|]. cbn [omap list_omap].
  destruct (FileUpload.parseFile _ _) as [[ty rows]|]; [|exact IH].
  cbn [fmap list_fmap DataEntity.type DataEntity.data]. f_equal. exact IH.
Qed.

(** X22. The upload hands on the files that parse, and only changes what
    is found in them: [onDrop] keeps the id, the kind and the rows of every
    entity it validates. From the dropped files to the page, the entities
    handed on are, in the order of the files, one for each file that
    parses, with the kind and the rows [parseFile] made of it; when no
    file parses nothing is handed on. *)
Theorem upload_hands_on_parsed_files acceptedFiles :
  let parsed :=
    omap (λ file, FileUpload.parseFile (FileUpload.name file) (FileUpload.decoded file))
         acceptedFiles in
  match FileUpload.onDropFiles acceptedFiles with
  | Some entities =>
      parsed ≠ []
      ∧ (λ e, (DataEntity.type e, DataEntity.data e)) <$> entities = parsed
      ∧ (λ e, (DataEntity.id e, DataEntity.type e, DataEntity.data e)) <$> entities
        = (λ e, (DataEntity.id e, DataEntity.type e, DataEntity.data e))
            <$> FileUpload.uploaded acceptedFiles
  | None => parsed = []
  end.
Proof.
  cbn zeta. rewrite <- uploaded_parsed. unfold FileUpload.onDropFiles.
  destruct (FileUpload.uploaded acceptedFiles) as [|e entities] eqn:Eu; [done|].
  cbn [length Nat.ltb Nat.leb]. split; [done|].
  pose proof (onDrop_frame (e :: entities)) as Hframe. split; [|exact Hframe].
  apply (f_equal (fmap (λ t : string * EntityType * list Row, (snd (fst t), snd t)))) in Hframe.
  by rewrite <- !list_fmap_compose in Hframe.
Qed.

(** ** Phase lists that are refused *)

Lemma isPhaseNumber_below_one zs :
  Exists (λ z, (z < 1)%Z) zs → forallb isPhaseNumber (phaseValues zs) = false.
Proof.
  induction 1 as [z zs Hz|z zs _ IH]; cbn [phaseValues fmap list_fmap forallb].
  - apply andb_false_iff. left.
    unfold isPhaseNumber, JSON.isInteger, JSON.ltOne. cbn [JSON.mant JSON.expo].
    change (0 <=? 0)%Z with true. rewrite orb_true_r. cbn [andb orb].
    apply negb_false_iff, Z.ltb_lt. lia.
  - fold (phaseValues zs). rewrite IH. apply andb_false_r.
Qed.

(** X23. A worker whose AvailableSlots cell is a JSON array of integers
    (in the range where JavaScript numbers are exact) one of which is below
    1 is refused as a whole: the row gets exactly one [malformed_list]
    error, on AvailableSlots, and no [overloaded_worker] warning, whatever
    its MaxLoadPerPhase. *)
Theorem slot_below_one_is_malformed entity allEntities j row gap zs :
  DataEntity.type entity = workers →
  DataEntity.data entity !! j = Some row →
  row !! "AvailableSlots" = Some (phaseListText gap zs) →
  JSON.skipSpace gap = "" →
  Forall (λ z, (- 2 ^ 53 < z < 2 ^ 53)%Z) zs →
  Exists (λ z, (z < 1)%Z) zs →
  List.filter (λ d, atRow (j + 1) d && hasType "malformed_list" d)
    (validateEntity entity allEntities)
  = [ValidationError.Build (j + 1) "AvailableSlots" "malformed_list"
       "AvailableSlots must be a valid JSON array of phase numbers" error]
  ∧ List.filter (λ d, atRow (j + 1) d && hasType "overloaded_worker" d)
      (validateEntity entity allEntities) = [].
Proof.
  intros Hty Hj Hrow Hgap _ Hbelow.
  rewrite !(validateEntity_at_row _ _ _ _ _ Hj) by done.
  rewrite Hty. unfold rowFindings. cbn [laterFindings]. rewrite !List.filter_app.
  rewrite (ranked_filter_type workers (j + 1) 0 1 _ "malformed_list"
             (checkId_ranked workers (j + 1) row _)); [|cbn; lia|cbn; solve_no_rank].
  rewrite (ranked_filter_type workers (j + 1) 0 1 _ "overloaded_worker"
             (checkId_ranked workers (j + 1) row _)); [|cbn; lia|cbn; solve_no_rank].
  rewrite (ranked_filter_type workers (j + 1) 4 4 _ "malformed_list"
             (checkMaxLoadPerPhase_ranked (j + 1) row)); [|cbn; lia|cbn; solve_no_rank].
  rewrite (ranked_filter_type workers (j + 1) 4 4 _ "overloaded_worker"
             (checkMaxLoadPerPhase_ranked (j + 1) row)); [|cbn; lia|cbn; solve_no_rank].
  rewrite !app_nil_r. cbn [app].
  unfold found, checkAvailableSlots. rewrite Hrow.
  rewrite phaseListText_cons, <- phaseListText_cons.
  unfold parsePhaseList.
  rewrite (parse_phaseListText gap zs Hgap), (isPhaseNumber_below_one zs Hbelow).
  done.
Qed.

Lemma slot_below_one_is_malformed_witness :
  let row : Row :=
    {[ "WorkerID" := "W1"; "AvailableSlots" := "[1,0,3]"; "MaxLoadPerPhase" := "9" ]} in
  let entity := DataEntity.Build "workers-1" workers [row] [] [] in
  List.filter (λ d, atRow 1 d && hasType "malformed_list" d) (validateEntity entity [entity])
  = [ValidationError.Build 1 "AvailableSlots" "malformed_list"
       "AvailableSlots must be a valid JSON array of phase numbers" error]
  ∧ List.filter (λ d, atRow 1 d && hasType "overloaded_worker" d)
      (validateEntity entity [entity]) = [].
Proof.
  intros row entity.
  exact (slot_below_one_is_malformed entity [entity] 0 row "" [1; 0; 3]%Z
           eq_refl eq_refl eq_refl eq_refl
           ltac:(repeat constructor; lia)
           ltac:(right; left; lia)).
Defined.
